(** * Blender-AI-Agent: the task bridge

    A shallow embedding of the two Python programs of the repository,
    [server/app.py] (the Flask gateway with its AST sanitizer) and
    [agent/blender_agent.py] (the XML-RPC agent whose timer callback
    executes queued work on Blender's main thread), followed by the
    properties of the bridge.

    What lies outside the repository is taken as a parameter: Python's
    parser ([ast.parse]), the regular-expression engine, the language
    model client, the clock, the file system and every [bpy] call. *)

From Stdlib Require Import String Ascii List Bool Arith ZArith QArith Lia.
From Stdlib Require Import DecimalString Permutation Sorted.
Import ListNotations.
Open Scope string_scope.
Close Scope Q_scope.
Set Warnings "-register-all".

(** ** Python values and string helpers *)

Module Py.

(** The values that cross XML-RPC and JSON: [None], booleans, integers,
    floats (kept as rationals), strings, lists and string-keyed dicts. *)
Inductive value : Type :=
| VNone
| VBool (b : bool)
| VInt (z : Z)
| VFloat (q : Q)
| VStr (s : string)
| VList (l : list value)
| VDict (d : list (string * value)).

(** A raised instance of Python's [Exception] class whose text can be
    taken; [message e] is [str(e)].  This is the class every handler of
    the two programs names ([except Exception]).  What a handler of that
    kind does not hold, an exception outside [Exception] such as
    [SystemExit] or one whose [__str__] raises, is what the executed
    script alone can bring about; module [Endings] has them. *)
Record exn : Type := Exception { message : string }.

Inductive outcome (A : Type) : Type :=
| Returned (a : A)
| Raised (e : exn).
Arguments Returned {A} a.
Arguments Raised {A} e.

Definition type_name (v : value) : string :=
  match v with
  | VNone => "NoneType"
  | VBool _ => "bool"
  | VInt _ => "int"
  | VFloat _ => "float"
  | VStr _ => "str"
  | VList _ => "list"
  | VDict _ => "dict"
  end.

(** [bool(v)] *)
Definition truthy (v : value) : bool :=
  match v with
  | VNone => false
  | VBool b => b
  | VInt z => negb (z =? 0)%Z
  | VFloat q => negb (Qeq_bool q 0%Q)
  | VStr s => negb (s =? "")
  | VList l => match l with [] => false | _ => true end
  | VDict d => match d with [] => false | _ => true end
  end.

(** A dict literal or update keeps one entry per key, the last written. *)
Fixpoint lookup (k : string) (d : list (string * value)) : option value :=
  match d with
  | [] => None
  | (k', v) :: d' => if k' =? k then Some v else lookup k d'
  end.

Fixpoint store (k : string) (v : value) (d : list (string * value))
  : list (string * value) :=
  match d with
  | [] => [(k, v)]
  | (k', v') :: d' =>
      if k' =? k then (k, v) :: d' else (k', v') :: store k v d'
  end.

(** [x.get(key, default)]: only a dict has the method. *)
Definition get (x : value) (key : string) (default : value) : outcome value :=
  match x with
  | VDict d =>
      Returned (match lookup key d with Some v => v | None => default end)
  | _ =>
      Raised (Exception
        ("'" ++ type_name x ++ "' object has no attribute 'get'"))
  end.

(** [len(x)]; of a text the number of its bytes, which no caller keeps. *)
Definition len (x : value) : outcome Z :=
  match x with
  | VStr s => Returned (Z.of_nat (String.length s))
  | VList l => Returned (Z.of_nat (List.length l))
  | VDict d => Returned (Z.of_nat (List.length d))
  | _ =>
      Raised (Exception
        ("object of type '" ++ type_name x ++ "' has no len()"))
  end.

Fixpoint chars (s : string) : list value :=
  match s with
  | EmptyString => []
  | String c s' => VStr (String c EmptyString) :: chars s'
  end.

(** The items a [for] loop draws from [x]. *)
Definition iterate (x : value) : outcome (list value) :=
  match x with
  | VList l => Returned l
  | VDict d => Returned (map (fun kv => VStr (fst kv)) d)
  | VStr s => Returned (chars s)
  | _ =>
      Raised (Exception ("'" ++ type_name x ++ "' object is not iterable"))
  end.

(** [s.startswith(p)] and [s.endswith(p)] *)
Definition startswith (s p : string) : bool := String.prefix p s.

Fixpoint endswith (s p : string) : bool :=
  (s =? p) ||
  match s with
  | EmptyString => false
  | String _ s' => endswith s' p
  end.

(** [s.split(sep)[0]] for a one-character separator. *)
Fixpoint split_head (sep : ascii) (s : string) : string :=
  match s with
  | EmptyString => EmptyString
  | String c s' =>
      if Ascii.eqb c sep then EmptyString else String c (split_head sep s')
  end.

(** [s.split(sep)] for a one-character separator. *)
Fixpoint split (sep : ascii) (s : string) : list string :=
  match s with
  | EmptyString => [EmptyString]
  | String c s' =>
      if Ascii.eqb c sep then EmptyString :: split sep s'
      else match split sep s' with
           | [] => [String c EmptyString]
           | w :: ws => String c w :: ws
           end
  end.

(** [sep.join(parts)] *)
Definition join (sep : string) (parts : list string) : string :=
  String.concat sep parts.

(** A text is the sequence of the UTF-8 bytes of its characters.  The
    white space of [str.strip()]: the one-byte characters 9 to 13, 28 to
    31 and 32; U+0085 and U+00A0 in two bytes; U+1680, U+2000 to U+200A,
    U+2028, U+2029, U+202F, U+205F and U+3000 in three. *)
Definition is_space (c : ascii) : bool :=
  let n := nat_of_ascii c in
  (((9 <=? n) && (n <=? 13)) || ((28 <=? n) && (n <=? 32)))%nat.

Definition byte_is (c : ascii) (n : nat) : bool := (nat_of_ascii c =? n)%nat.

Definition is_space2 (c1 c2 : ascii) : bool :=
  byte_is c1 194 && (byte_is c2 133 || byte_is c2 160).

Definition is_space3 (c1 c2 c3 : ascii) : bool :=
  let n3 := nat_of_ascii c3 in
  (byte_is c1 225 && byte_is c2 154 && byte_is c3 128)
  || (byte_is c1 226 && byte_is c2 128
      && (((128 <=? n3) && (n3 <=? 138))%nat
          || byte_is c3 168 || byte_is c3 169 || byte_is c3 175))
  || (byte_is c1 226 && byte_is c2 129 && byte_is c3 159)
  || (byte_is c1 227 && byte_is c2 128 && byte_is c3 128).

Fixpoint lstrip (s : string) : string :=
  match s with
  | EmptyString => EmptyString
  | String c1 s1 =>
      if is_space c1 then lstrip s1
      else
        match s1 with
        | String c2 s2 =>
            if is_space2 c1 c2 then lstrip s2
            else
              match s2 with
              | String c3 s3 =>
                  if is_space3 c1 c2 c3 then lstrip s3 else s
              | EmptyString => s
              end
        | EmptyString => s
        end
  end.

(** The text without the white space it ends with: nothing is left of a
    text that is white space throughout. *)
Fixpoint rstrip (s : string) : string :=
  match s with
  | EmptyString => EmptyString
  | String c s' =>
      if lstrip s =? "" then EmptyString else String c (rstrip s')
  end.

Definition strip (s : string) : string := rstrip (lstrip s).

Definition lower_char (c : ascii) : ascii :=
  let n := nat_of_ascii c in
  if ((65 <=? n) && (n <=? 90))%nat then ascii_of_nat (n + 32) else c.

Fixpoint lower (s : string) : string :=
  match s with
  | EmptyString => EmptyString
  | String c s' => String (lower_char c) (lower s')
  end.

(** [p in s] *)
Fixpoint contains (s p : string) : bool :=
  String.prefix p s ||
  match s with
  | EmptyString => false
  | String _ s' => contains s' p
  end.

(** [str(n)] of an integer. *)
Definition str_of_Z (z : Z) : string := NilZero.string_of_int (Z.to_int z).

(** [os.path.join(a, b)] *)
Definition path_join (a b : string) : string :=
  if startswith b "/" then b
  else if (a =? "") || endswith a "/" then a ++ b
  else a ++ "/" ++ b.

Definition newline : string := String (ascii_of_nat 10) EmptyString.

(** *** Statements

    A statement runs on a process state [S] and either returns or
    raises; what it did before a raise stays done. *)
Section Statements.

Context {S : Type}.

Definition M (A : Type) : Type := S -> outcome A * S.

Definition ret {A} (a : A) : M A := fun s => (Returned a, s).

Definition raise {A} (e : exn) : M A := fun s => (Raised e, s).

Definition bind {A B} (m : M A) (k : A -> M B) : M B :=
  fun s =>
    match m s with
    | (Returned a, s') => k a s'
    | (Raised e, s') => (Raised e, s')
    end.

(** [try: m  except Exception as e: h e], for what [m] raises within
    [Exception] (see [Endings.handled] for a script's other endings). *)
Definition catch {A} (m : M A) (h : exn -> M A) : M A :=
  fun s =>
    match m s with
    | (Returned a, s') => (Returned a, s')
    | (Raised e, s') => h e s'
    end.

Definition lift {A} (o : outcome A) : M A := fun s => (o, s).

End Statements.

Module Notations.
Notation "x <- m ;; k" := (bind m (fun x => k))
  (at level 61, m at next level, right associativity).
Notation "m ;;; k" := (bind m (fun _ => k))
  (at level 61, right associativity).
End Notations.

End Py.

(** ** The agent: [agent/blender_agent.py] *)

Module Agent.
Import Py Py.Notations.

Definition OUTPUT_DIR : string := "/opt/app/output".

(** What a name of the script's namespace is bound to. *)
Inductive binding : Type :=
| BpyModule
| OsModule
| StrConst (s : string)
| RenderAndSave.

(** The calls that leave the program, in the order they are made. *)
Inductive event : Type :=
| EvBpy (prim : string) (args : list value)
| EvExec (script : value) (env : list (string * binding))
| EvListdir (dir : string)
| EvGetmtime (path : string)
| EvRender (outpath : string)
| EvExportGltf (path : string)
| EvExportObj (path : string)
| EvClock.

(** Blender and the operating system, over a process state [W]:
    whether [import bpy] succeeded; the [bpy] statements of a primitive,
    by the primitive's name and the values it read from [params];
    [exec(script, env)]; [os.listdir] and [os.path.getmtime];
    the making of the directory, the setting of the render path and
    [bpy.ops.render.render(write_still=True)] of [_render_and_save];
    [bpy.ops.export_scene.gltf] and [bpy.ops.export_scene.obj];
    [int(time.time())]. *)
Record Host (W : Type) : Type := {
  bpy_available : bool;
  bpy_body : string -> list value -> W -> outcome value * W;
  py_exec : value -> list (string * binding) -> W -> outcome unit * W;
  os_listdir : string -> W -> outcome (list string) * W;
  os_getmtime : string -> W -> outcome Q * W;
  render_still : string -> W -> outcome unit * W;
  export_scene_gltf : string -> W -> outcome unit * W;
  export_scene_obj : string -> W -> outcome unit * W;
  time_int : W -> Z * W
}.
Arguments bpy_available {W} h.
Arguments bpy_body {W} h.
Arguments py_exec {W} h.
Arguments os_listdir {W} h.
Arguments os_getmtime {W} h.
Arguments render_still {W} h.
Arguments export_scene_gltf {W} h.
Arguments export_scene_obj {W} h.
Arguments time_int {W} h.

(** The process: the host state, the two module-level queues, and the
    history of outside calls. *)
Record state (W : Type) : Type := {
  world : W;
  task_queue : list value;
  response_queue : list value;
  events : list event
}.
Arguments world {W} s.
Arguments task_queue {W} s.
Arguments response_queue {W} s.
Arguments events {W} s.

Section Executor.

Context {W : Type}.
Variable host : Host W.

Definition M (A : Type) : Type := @Py.M (state W) A.

Definition outside {A} (ev : event) (f : W -> outcome A * W) : M A :=
  fun s =>
    let (r, w) := f (world s) in
    (r, {| world := w; task_queue := task_queue s;
           response_queue := response_queue s;
           events := (events s ++ [ev])%list |}).

Definition response_put (r : value) : M unit :=
  fun s =>
    (Returned tt,
     {| world := world s; task_queue := task_queue s;
        response_queue := (response_queue s ++ [r])%list;
        events := events s |}).

Definition task_put (t : value) : M unit :=
  fun s =>
    (Returned tt,
     {| world := world s; task_queue := (task_queue s ++ [t])%list;
        response_queue := response_queue s;
        events := events s |}).

(** *** The primitives *)

Definition require_bpy (who : string) : M unit :=
  if bpy_available host then ret tt
  else raise (Exception
         ("bpy not available: " ++ who ++ " must run inside Blender")).

Definition bpy (prim : string) (args : list value) : M value :=
  outside (EvBpy prim args) (bpy_body host prim args).

Definition reset_scene : M value :=
  require_bpy "reset_scene" ;;;
  bpy "reset_scene" [].

Definition zeros : value := VList [VInt 0; VInt 0; VInt 0].

Definition add_box (params : value) : M value :=
  name <- lift (get params "name" (VStr "Box")) ;;
  size <- lift (get params "size" (VList [VInt 1; VInt 1; VInt 1])) ;;
  location <- lift (get params "location" zeros) ;;
  require_bpy "add_box" ;;;
  bpy "add_box" [name; size; location].

Definition add_cylinder (params : value) : M value :=
  name <- lift (get params "name" (VStr "Cyl")) ;;
  radius <- lift (get params "radius" (VFloat (1 # 2)%Q)) ;;
  depth <- lift (get params "depth" (VFloat 1%Q)) ;;
  location <- lift (get params "location" zeros) ;;
  require_bpy "add_cylinder" ;;;
  bpy "add_cylinder" [name; radius; depth; location].

Definition translate (params : value) : M value :=
  objname <- lift (get params "object" VNone) ;;
  vec <- lift (get params "vector" zeros) ;;
  require_bpy "translate" ;;;
  bpy "translate" [objname; vec].

Definition rotate (params : value) : M value :=
  objname <- lift (get params "object" VNone) ;;
  rot <- lift (get params "rotation" zeros) ;;
  require_bpy "rotate" ;;;
  bpy "rotate" [objname; rot].

Definition boolean_diff (params : value) : M value :=
  target <- lift (get params "target" VNone) ;;
  cutter <- lift (get params "cutter" VNone) ;;
  require_bpy "boolean_diff" ;;;
  bpy "boolean_diff" [target; cutter].

(** [os.path.join(OUTPUT_DIR, filename)] *)
Definition join_output (filename : value) : outcome string :=
  match filename with
  | VStr f => Returned (path_join OUTPUT_DIR f)
  | _ =>
      Raised (Exception
        ("join() argument must be str, bytes, or os.PathLike object, not '"
           ++ type_name filename ++ "'"))
  end.

Definition export_obj (params : value) : M value :=
  filename <- lift (get params "filename" (VStr "model.obj")) ;;
  outpath <- lift (join_output filename) ;;
  require_bpy "export_obj" ;;;
  bpy "export_obj" [VStr outpath].

(** A Python function of the agent, by the number of its parameters. *)
Inductive pyfun : Type :=
| Fun0 (name : string) (body : M value)
| Fun1 (name : string) (body : value -> M value).

(** [func(params)] *)
Definition call1 (func : pyfun) (arg : value) : M value :=
  match func with
  | Fun1 _ body => body arg
  | Fun0 name _ =>
      raise (Exception
        (name ++ "() takes 0 positional arguments but 1 was given"))
  end.

Definition OP_MAP : list (string * (pyfun * bool)) :=
  [ ("reset", (Fun0 "reset_scene" reset_scene, false));
    ("add_box", (Fun1 "add_box" add_box, true));
    ("add_cylinder", (Fun1 "add_cylinder" add_cylinder, true));
    ("translate", (Fun1 "translate" translate, true));
    ("rotate", (Fun1 "rotate" rotate, true));
    ("boolean_diff", (Fun1 "boolean_diff" boolean_diff, true));
    ("export", (Fun1 "export_obj" export_obj, true)) ].

Fixpoint assoc {A} (k : string) (d : list (string * A)) : option A :=
  match d with
  | [] => None
  | (k', a) :: d' => if k' =? k then Some a else assoc k d'
  end.

(** [OP_MAP.get(name)]: the key has to be hashable. *)
Definition OP_MAP_get (name : value) : outcome (option (pyfun * bool)) :=
  match name with
  | VStr s => Returned (assoc s OP_MAP)
  | VList _ | VDict _ =>
      Raised (Exception ("unhashable type: '" ++ type_name name ++ "'"))
  | _ => Returned None
  end.

Definition op_unsupported (name : value) : value :=
  VDict [("op", name); ("status", VStr "error");
         ("msg", VStr "unsupported op")].

Definition op_ok (name res : value) : value :=
  VDict [("op", name); ("status", VStr "ok"); ("result", res)].

Definition op_error (name : value) (e : exn) : value :=
  VDict [("op", name); ("status", VStr "error"); ("msg", VStr (message e))].

(** The body of the [for] loop of [process_operations_main_thread],
    over the items still to come. *)
Fixpoint ops_loop (items : list value) (results : list value)
  : M (list value) :=
  match items with
  | [] => ret results
  | op :: rest =>
      name <- lift (get op "op" VNone) ;;
      params <- lift (get op "params" (VDict [])) ;;
      handler <- lift (OP_MAP_get name) ;;
      match handler with
      | None => ops_loop rest (results ++ [op_unsupported name])%list
      | Some (func, returns) =>
          results' <- catch
            (res <- call1 func params ;;
             ret (results ++ [op_ok name res])%list)
            (fun e => ret (results ++ [op_error name e])%list) ;;
          ops_loop rest results'
      end
  end.

Definition process_operations_main_thread (ops : value) : M (list value) :=
  operations <- lift (get ops "operations" (VList [])) ;;
  items <- lift (iterate operations) ;;
  ops_loop items [].

(** *** The timer callback *)

Definition exec_env : list (string * binding) :=
  [ ("bpy", BpyModule);
    ("os", OsModule);
    ("OUTPUT_DIR", StrConst OUTPUT_DIR);
    ("render_and_save", RenderAndSave) ].

Definition _render_and_save (filename : string) : M string :=
  let outpath := path_join OUTPUT_DIR filename in
  outside (EvRender outpath) (render_still host outpath) ;;;
  ret outpath.

(** [int(time.time())] *)
Definition now : M Z :=
  outside EvClock (fun w => let (z, w') := time_int host w in (Returned z, w')).

Definition is_preview_name (f : string) : bool :=
  startswith f "preview_" &&
  (endswith f ".png" || endswith f ".jpg" || endswith f ".jpeg").

(** [list.sort(key=..., reverse=True)]: descending and stable. *)
Fixpoint insert_desc (x : Q * string) (l : list (Q * string))
  : list (Q * string) :=
  match l with
  | [] => [x]
  | y :: l' =>
      if Qle_bool (fst y) (fst x) then x :: l else y :: insert_desc x l'
  end.

Definition sort_desc (l : list (Q * string)) : list (Q * string) :=
  fold_right insert_desc [] l.

Fixpoint mtimes (files : list string) : M (list (Q * string)) :=
  match files with
  | [] => ret []
  | f :: fs =>
      t <- outside (EvGetmtime (path_join OUTPUT_DIR f))
             (os_getmtime host (path_join OUTPUT_DIR f)) ;;
      r <- mtimes fs ;;
      ret ((t, f) :: r)
  end.

(** The search for a preview written during the run; a failure of the
    search leaves [preview_path] at [None]. *)
Definition find_preview : M (option string) :=
  catch
    (existing_files <- outside (EvListdir OUTPUT_DIR)
                         (os_listdir host OUTPUT_DIR) ;;
     let preview_files := filter is_preview_name existing_files in
     match preview_files with
     | [] => ret None
     | _ =>
         keyed <- mtimes preview_files ;;
         match sort_desc keyed with
         | (_, f) :: _ => ret (Some (path_join OUTPUT_DIR f))
         | [] => raise (Exception "list index out of range")
         end
     end)
    (fun _ => ret None).

Definition basename (p : string) : string :=
  last (split "/" p) EmptyString.

Definition try_export (ext : string) (ev : string -> event)
    (export : string -> W -> outcome unit * W) (exported_files : list string)
  : M (list string) :=
  catch
    (t <- now ;;
     let path := path_join OUTPUT_DIR ("model_" ++ str_of_Z t ++ ext) in
     outside (ev path) (export path) ;;;
     ret (exported_files ++ [basename path])%list)
    (fun _ => ret exported_files).

Definition script_ok (preview_path : string) (exported_files : list string)
  : value :=
  VDict [("status", VStr "ok"); ("preview", VStr preview_path);
         ("exported_files", VList (map VStr exported_files))].

Definition script_error (e : exn) : value :=
  VDict [("status", VStr "error"); ("error", VStr (message e))].

(** [fname = f"preview_{int(time.time())}.png"] and the render. *)
Definition synthesize_preview : M string :=
  t <- now ;;
  _render_and_save ("preview_" ++ str_of_Z t ++ ".png").

(** The preview of the run: the one found or, failing that, a new one. *)
Definition settle_preview : M string :=
  found <- find_preview ;;
  match found with
  | Some p0 => if p0 =? "" then synthesize_preview else ret p0
  | None => synthesize_preview
  end.

(** The two exports, each in its own [try], and the answer. *)
Definition export_and_answer (preview_path : string) : M unit :=
  exported_gltf <- try_export ".gltf" EvExportGltf (export_scene_gltf host) [] ;;
  exported_files <-
    try_export ".obj" EvExportObj (export_scene_obj host) exported_gltf ;;
  response_put (script_ok preview_path exported_files).

(** What follows [exec] in the inner [try]. *)
Definition post_process : M unit :=
  preview_path <- settle_preview ;;
  export_and_answer preview_path.

(** The body of the inner [try] of the script branch. *)
Definition run_script (script : value) : M unit :=
  (if bpy_available host then ret tt
   else raise (Exception
          "bpy not available: script execution requires Blender")) ;;;
  outside (EvExec script exec_env) (py_exec host script exec_env) ;;;
  post_process.

Definition is_str (v : value) (s : string) : bool :=
  match v with
  | VStr s' => s' =? s
  | _ => false
  end.

(** [try: response_queue.put(r)  except Exception: pass] *)
Definition put_quietly (r : value) : M unit :=
  catch (response_put r) (fun _ => ret tt).

(** The body of the outer [try]. *)
Definition process_item (item : value) : M unit :=
  _ <- lift (get item "type" VNone) ;;
  ty <- lift (get item "type" VNone) ;;
  if is_str ty "ops" then
    ops <- lift (get item "ops" VNone) ;;
    operations <- lift (get ops "operations" (VList [])) ;;
    _ <- lift (len operations) ;;
    res <- process_operations_main_thread ops ;;
    response_put (VList res)
  else
    ty' <- lift (get item "type" VNone) ;;
    if is_str ty' "script" then
      script <- lift (get item "script" (VStr "")) ;;
      _ <- lift (len script) ;;
      catch (run_script script) (fun e => put_quietly (script_error e))
    else
      response_put (VDict [("error", VStr "unknown item type")]).

(** The interval the timer asks to be called again after, in seconds. *)
Definition TICK : Q := (3 # 10)%Q.

(** The timer on scripts that end as [py_exec] tells;
    [Endings.blender_timer] has it with their other endings. *)
Definition blender_timer : M Q :=
  fun s =>
    match task_queue s with
    | [] => (Returned TICK, s)
    | item :: rest =>
        (catch (process_item item)
           (fun e => put_quietly (VDict [("error", VStr (message e))])) ;;;
         ret TICK)
          {| world := world s; task_queue := rest;
             response_queue := response_queue s; events := events s |}
    end.

(** *** The XML-RPC entry points *)

Definition timeout_error : value := VDict [("error", VStr "timeout")].

(** [response_queue.get(block=False)] on the queue as it stands. *)
Definition get_nowait (queue : list value) : outcome value :=
  match queue with
  | r :: _ => Returned r
  | [] => Raised (Exception "")
  end.

(** One turn of a waiting loop as the serving thread meets it: the reading
    of [time.time()] at the loop test and the response queue as it stands
    when [get(block=False)] is tried.  The loop is run against the turns
    the other threads leave it; [None] is a loop still waiting when the
    turns given are used up. *)
Fixpoint wait_response (limit start : Q) (turns : list (Q * list value))
  : option (outcome value) :=
  match turns with
  | [] => None
  | (t, queue) :: later =>
      if Qle_bool limit (t - start)%Q then Some (Returned timeout_error)
      else match get_nowait queue with
           | Returned r => Some (Returned r)
           | Raised _ => wait_response limit start later
           end
  end.

Definition OPS_TIMEOUT : Q := 60%Q.

Definition enqueue_ops (ops : value) (start : Q) (turns : list (Q * list value))
  : state W -> option (outcome value) * state W :=
  fun s =>
    let (_, s') := task_put (VDict [("type", VStr "ops"); ("ops", ops)]) s in
    (wait_response OPS_TIMEOUT start turns, s').


End Executor.

End Agent.

(** ** The gateway: [server/app.py] *)

Module Server.
Import Py Py.Notations.

(** *** Syntax trees

    The nodes of Python's [ast] the scanner tells apart, and one
    constructor for every other node class, with its child nodes in
    field order ([generic_visit] walks them in that order). *)

Record alias : Type := { alias_name : string; asname : option string }.

Inductive node : Type :=
| Name (id : string)
| Attribute (value : node) (attr : string)
| Call (func : node) (args : list node) (keywords : list node)
| Import (names : list alias)
| ImportFrom (module : option string) (names : list alias) (level : nat)
| Other (class : string) (children : list node).

(** The replacement argument of [re.sub]. *)
Inductive repl : Type :=
| ReplCap (bound : Z)
| ReplText (s : string).

(** What the gateway reaches outside itself, over a process state [W]:
    the parser (a tree, or the text of the exception), the regular
    expression engine, [json.dumps], [str], the model client, the file
    system, the clock and the XML-RPC proxy. *)
Record Outside (W : Type) : Type := {
  ast_parse : string -> node + string;
  re_sub : string -> repl -> bool -> string -> string;
  json_dumps : value -> string;
  py_str : value -> string;
  call_hermes : string -> value -> W -> outcome string * W;
  get_output_dir : W -> outcome string * W;
  write_text : string -> string -> W -> outcome unit * W;
  time_int : W -> Z * W;
  process_script : string -> W -> outcome value * W
}.
Arguments ast_parse {W} o.
Arguments re_sub {W} o.
Arguments json_dumps {W} o.
Arguments py_str {W} o.
Arguments call_hermes {W} o.
Arguments get_output_dir {W} o.
Arguments write_text {W} o.
Arguments time_int {W} o.
Arguments process_script {W} o.

(** The process: the outside state, the module-level [LATEST_PREVIEW]
    dict, and the scripts handed to [blender_server.process_script]. *)
Record state (W : Type) : Type := {
  world : W;
  LATEST_PREVIEW : list (string * value);
  sent : list string
}.
Arguments world {W} s.
Arguments LATEST_PREVIEW {W} s.
Arguments sent {W} s.

Definition LATEST_PREVIEW_init : list (string * value) :=
  [ ("status", VStr "idle"); ("filename", VNone); ("last_updated", VNone);
    ("error", VNone); ("exported_files", VList []) ].

Record request : Type := {
  method : string;
  content_type : option string;
  get_json : option value;
  get_data : string
}.

(** *** The sanitizer *)

Definition forbidden_calls : list string :=
  ["eval"; "exec"; "compile"; "open"; "__import__"; "run"; "Popen";
   "system"; "popen"].

Definition allowed_imports : list string :=
  ["bpy"; "math"; "mathutils"; "random"].

Definition mem (s : string) (l : list string) : bool :=
  existsb (String.eqb s) l.

Definition dot : ascii := ascii_of_nat 46.

Fixpoint visit_Import (names : list alias) (error : option string)
  : option string :=
  match names with
  | [] => error
  | a :: rest =>
      let base := split_head dot (alias_name a) in
      if mem base allowed_imports then visit_Import rest error
      else Some ("import not allowed: " ++ alias_name a)
  end.

Definition visit_ImportFrom (module : option string) (error : option string)
  : option string :=
  let modname :=
    match module with
    | Some m => m
    | None => ""
    end in
  let base := split_head dot modname in
  if mem base allowed_imports then error
  else Some ("from-import not allowed: " ++ modname).

(** The [while isinstance(cur, ast.Attribute)] loop. *)
Fixpoint attribute_chain (cur : node) (parts : list string)
  : list string * node :=
  match cur with
  | Attribute v a => attribute_chain v (parts ++ [a])%list
  | _ => (parts, cur)
  end.

(** [full], the name collected for the called function, if any. *)
Definition full_name (func : node) : option string :=
  match func with
  | Name id => Some id
  | Attribute _ _ =>
      let (parts, cur) := attribute_chain func [] in
      let parts :=
        match cur with
        | Name id => (parts ++ [id])%list
        | _ => parts
        end in
      Some (join "." (rev parts))
  | _ => None
  end.

Definition is_forbidden (full : string) : bool :=
  existsb (fun bad => (full =? bad) || endswith full ("." ++ bad))
    forbidden_calls.

(** [Scanner.visit], threading [self.error]. *)
Fixpoint visit (n : node) (error : option string) : option string :=
  match n with
  | Import names => visit_Import names error
  | ImportFrom module _ _ => visit_ImportFrom module error
  | Call func args keywords =>
      let walk :=
        fold_left (fun e c => visit c e) keywords
          (fold_left (fun e c => visit c e) args (visit func error)) in
      match full_name func with
      | Some full =>
          if negb (full =? "") && is_forbidden full
          then Some ("forbidden call detected: " ++ full)
          else walk
      | None => walk
      end
  | Name _ => error
  | Attribute v _ => visit v error
  | Other _ children => fold_left (fun e c => visit c e) children error
  end.

(** [resp.get("status") == "ok" and resp.get("preview")] on a dict. *)
Definition is_ok (d : list (string * value)) : bool :=
  match lookup "status" d with
  | Some (VStr st) =>
      (st =? "ok") &&
      match lookup "preview" d with
      | Some v => truthy v
      | None => false
      end
  | _ => false
  end.

Section Gateway.

Context {W : Type}.
Variable out : Outside W.

Definition M (A : Type) : Type := @Py.M (state W) A.

Definition outside {A} (f : W -> outcome A * W) : M A :=
  fun s =>
    let (r, w) := f (world s) in
    (r, {| world := w; LATEST_PREVIEW := LATEST_PREVIEW s; sent := sent s |}).

(** [int(time.time())] *)
Definition now : M Z :=
  outside (fun w => let (z, w') := time_int out w in (Returned z, w')).

(** [LATEST_PREVIEW.update({...})] *)
Definition update (entries : list (string * value)) : M unit :=
  fun s =>
    (Returned tt,
     {| world := world s;
        LATEST_PREVIEW :=
          fold_left (fun d kv => store (fst kv) (snd kv) d) entries
            (LATEST_PREVIEW s);
        sent := sent s |}).

(** [blender_server.process_script(model_text)] *)
Definition rpc_process_script (model_text : string) : M value :=
  fun s =>
    let (r, w) := process_script out model_text (world s) in
    (r, {| world := w; LATEST_PREVIEW := LATEST_PREVIEW s;
           sent := (sent s ++ [model_text])%list |}).

Definition system_prompt_text : string :=
  "You are an expert Blender Python modeler." ++ newline ++
  "Output runnable Blender Python code (starts with `import bpy`)." ++ newline ++
  "Do NOT include extra commentary or markdown. Only return Python code." ++ newline ++
  newline ++
  "IMPORTANT: After creating the 3D model, you should:" ++ newline ++
  "1. Set up proper lighting and materials for a good preview" ++ newline ++
  "2. Optionally export the model using bpy.ops.export_scene.gltf() or bpy.ops.export_scene.obj()" ++ newline ++
  "3. Render a preview image using render_and_save() helper function or bpy.ops.render.render(write_still=True)" ++ newline ++
  newline ++
  "Example export pattern:" ++ newline ++
  "  bpy.ops.export_scene.gltf(filepath=os.path.join(OUTPUT_DIR, 'model.gltf'))" ++ newline ++
  "  render_and_save('preview.png')" ++ newline.

Definition build_prompt (user_instruction : value) (constraints : value)
  : string * value :=
  let constraints := if truthy constraints then constraints else VDict [] in
  let system :=
    if truthy constraints
    then system_prompt_text ++ newline ++ "CONSTRAINTS:" ++ newline
           ++ json_dumps out constraints
    else system_prompt_text in
  (system, user_instruction).

Definition fence : string := "```".

(** The removal of a Markdown fence around the model's answer. *)
Definition strip_fences (model_text : string) : string :=
  if startswith (strip model_text) fence then
    let parts := split (ascii_of_nat 10) (strip model_text) in
    let parts :=
      match parts with
      | p0 :: rest => if startswith p0 fence then rest else parts
      | [] => parts
      end in
    let parts :=
      match parts with
      | [] => parts
      | _ => if startswith (last parts "") fence then removelast parts
             else parts
      end in
    join newline parts
  else model_text.

Definition dq : string := String (ascii_of_nat 34) EmptyString.

Definition quote_class : string := "['\" ++ dq ++ "]".

Definition adjust_for_preview (code : string) : string :=
  let code :=
    re_sub out "(bpy\.context\.scene\.cycles\.samples\s*=\s*)(\d+)"
      (ReplCap 64) false code in
  let code :=
    re_sub out "(bpy\.context\.scene\.render\.resolution_x\s*=\s*)(\d+)"
      (ReplCap 800) false code in
  let code :=
    re_sub out "(bpy\.context\.scene\.render\.resolution_y\s*=\s*)(\d+)"
      (ReplCap 800) false code in
  let code :=
    re_sub out
      ("bpy\.context\.scene\.render\.engine\s*=\s*" ++ quote_class
         ++ "CYCLES" ++ quote_class)
      (ReplText "bpy.context.scene.render.engine = 'BLENDER_EEVEE'")
      false code in
  re_sub out
    ("bpy\.context\.scene\.render\.engine\s*=\s*" ++ quote_class
       ++ "cycles" ++ quote_class)
    (ReplText "bpy.context.scene.render.engine = 'BLENDER_EEVEE'")
    true code.

Definition sanitize_script (code : string) : bool * option string :=
  match ast_parse out code with
  | inr e => (false, Some ("syntax error during parse: " ++ e))
  | inl tree =>
      match visit tree None with
      | Some error =>
          if error =? "" then (true, None) else (false, Some error)
      | None => (true, None)
      end
  end.

(** A JSON body and an HTTP status. *)
Definition response : Type := (value * nat)%type.

Definition usage : value :=
  VDict
    [ ("info",
       VStr ("POST JSON {" ++ dq ++ "text" ++ dq ++ ": " ++ dq
             ++ "your prompt" ++ dq
             ++ "} to this endpoint to generate a Blender Python script, or POST raw Blender Python (text/plain) to execute directly."));
      ("example",
       VDict
         [ ("json_prompt",
            VDict [("text", VStr "Create a small table with four legs")]);
           ("raw_script_example",
            VStr "<send raw .py body as text/plain>") ]) ].

Definition of_reason (reason : option string) : value :=
  match reason with
  | Some r => VStr r
  | None => VNone
  end.

(** [os.path.basename(p)] *)
Definition os_path_basename (p : value) : outcome string :=
  match p with
  | VStr s => Returned (last (split "/" s) EmptyString)
  | _ =>
      Raised (Exception
        ("expected str, bytes or os.PathLike object, not " ++ type_name p))
  end.

Definition mark_error (text : string) : M unit :=
  t <- now ;;
  update [("status", VStr "error"); ("error", VStr text);
          ("last_updated", VInt t)].

(** The [else] branch: blender returned an error or an unexpected
    shape. *)
Definition unexpected (resp : value) : M response :=
  let err :=
    match resp with
    | VNone => VStr "no response"
    | _ => resp
    end in
  mark_error (py_str out err) ;;;
  ret (VDict [("status", VStr "error"); ("blender_response", resp)], 500).

(** [generate] up to the script that goes to the sanitizer: an early
    answer, or [model_text] after fence removal, saving and
    [adjust_for_preview]. *)
Definition prepare (req : request) : M (response + string) :=
  let content_type :=
    lower match content_type req with Some c => c | None => "" end in
  if method req =? "GET" then ret (inl (usage, 200))
  else
    parsed <-
      (if contains content_type "application/json" then
         let data :=
           match get_json req with
           | Some d => if truthy d then d else VDict []
           | None => VDict []
           end in
         user_text <- lift (get data "text" (VStr "")) ;;
         constraints <- lift (get data "constraints" (VDict [])) ;;
         ret (user_text, constraints, None)
       else ret (VStr "", VDict [], Some (get_data req))) ;;
    let '(user_text, constraints, raw_body) := parsed in
    let raw_given :=
      match raw_body with
      | Some b => negb (b =? "")
      | None => false
      end in
    if negb (truthy user_text) && negb raw_given
    then ret (inl (VDict [("error", VStr "no text provided")], 400))
    else
      let (system_prompt, user_prompt) := build_prompt user_text constraints in
      model_text <-
        match raw_body with
        | Some b =>
            if negb (b =? "") && negb (strip b =? "") then ret b
            else outside (call_hermes out system_prompt user_prompt)
        | None => outside (call_hermes out system_prompt user_prompt)
        end ;;
      let model_text := strip_fences model_text in
      output_dir <- outside (get_output_dir out) ;;
      catch
        (outside
           (write_text out (path_join output_dir "last_model_script.py")
              model_text))
        (fun _ => ret tt) ;;;
      ret (inr (adjust_for_preview model_text)).

(** [generate] from the call of the sanitizer on. *)
Definition submit (model_text : string) : M response :=
  let (ok, reason) := sanitize_script model_text in
  if negb ok then
    t <- now ;;
    update [("status", VStr "error"); ("error", of_reason reason);
            ("last_updated", VInt t)] ;;;
    ret (VDict [("error", VStr "script rejected by sanitizer");
                ("reason", of_reason reason)], 400)
  else
    t <- now ;;
    update [("status", VStr "running"); ("error", VNone);
            ("last_updated", VInt t)] ;;;
    sending <-
      catch
        (resp <- rpc_process_script model_text ;; ret (inr resp))
        (fun e =>
           mark_error (message e) ;;;
           ret (inl (VDict [("error",
                             VStr "failed to send script to blender agent");
                            ("details", VStr (message e))], 500))) ;;
    match sending with
    | inl answer => ret answer
    | inr resp =>
        catch
          (match resp with
           | VDict d =>
               if is_ok d then
                 let preview_path :=
                   match lookup "preview" d with
                   | Some v => v
                   | None => VNone
                   end in
                 preview_name <- lift (os_path_basename preview_path) ;;
                 let exported_files :=
                   match lookup "exported_files" d with
                   | Some v => v
                   | None => VList []
                   end in
                 t <- now ;;
                 update [("status", VStr "done");
                         ("filename", VStr preview_name);
                         ("last_updated", VInt t); ("error", VNone);
                         ("exported_files", exported_files)] ;;;
                 ret (VDict [("status", VStr "done");
                             ("preview", VStr preview_name);
                             ("exported_files", exported_files);
                             ("blender_response", resp)], 200)
               else unexpected resp
           | _ => unexpected resp
           end)
          (fun e =>
             mark_error (message e) ;;;
             ret (VDict [("error",
                          VStr "failed to interpret blender response");
                         ("details", VStr (message e))], 500))
    end.

Definition generate (req : request) : M response :=
  prepared <- prepare req ;;
  match prepared with
  | inl answer => ret answer
  | inr model_text => submit model_text
  end.

End Gateway.

End Server.

(** ** Reading the claims: offending constructs and sample programs *)

Module Reading.
Import Py Server.

(** [f] is a name, or a dotted chain of attributes rooted at a name, and
    [full] is that name written out. *)
Inductive resolves : node -> string -> Prop :=
| resolves_name id : resolves (Name id) id
| resolves_attribute v a s :
    resolves v s -> resolves (Attribute v a) (s ++ "." ++ a).

(** [full] is an entry of the deny-list, or ends with a dot and one. *)
Definition denied (full : string) : Prop :=
  exists bad, In bad forbidden_calls /\
    (full = bad \/ exists p, full = p ++ "." ++ bad).

(** [c] occurs in [t]. *)
Inductive subnode (c : node) : node -> Prop :=
| sub_here : subnode c c
| sub_value v a : subnode c v -> subnode c (Attribute v a)
| sub_func f args kws : subnode c f -> subnode c (Call f args kws)
| sub_arg f args kws x :
    In x args -> subnode c x -> subnode c (Call f args kws)
| sub_keyword f args kws x :
    In x kws -> subnode c x -> subnode c (Call f args kws)
| sub_child k children x :
    In x children -> subnode c x -> subnode c (Other k children).

(** The first alias of an [import] statement outside the allow-list. *)
Fixpoint first_refused (names : list alias) : option alias :=
  match names with
  | [] => None
  | a :: rest =>
      if mem (split_head dot (alias_name a)) allowed_imports
      then first_refused rest
      else Some a
  end.

(** The messages of the constructs the scanner objects to, in the order
    it meets them. *)
Fixpoint offences (n : node) : list string :=
  match n with
  | Import names =>
      match first_refused names with
      | Some a => ["import not allowed: " ++ alias_name a]
      | None => []
      end
  | ImportFrom module _ _ =>
      let modname := match module with Some m => m | None => "" end in
      if mem (split_head dot modname) allowed_imports then []
      else ["from-import not allowed: " ++ modname]
  | Call func args keywords =>
      let inner :=
        (offences func ++ flat_map offences args
           ++ flat_map offences keywords)%list in
      match full_name func with
      | Some full =>
          if negb (full =? "") && is_forbidden full
          then ["forbidden call detected: " ++ full]
          else inner
      | None => inner
      end
  | Name _ => []
  | Attribute v _ => offences v
  | Other _ children => flat_map offences children
  end.

(** The last message of a list, or what was there before. *)
Definition latest (msgs : list string) (before : option string)
  : option string :=
  match msgs with
  | [] => before
  | _ => Some (last msgs "")
  end.

Definition plain (name : string) : alias :=
  {| alias_name := name; asname := None |}.

Definition Module_ (body : list node) : node := Other "Module" body.
Definition Expr (e : node) : node := Other "Expr" [e].
Definition Constant : node := Other "Constant" [].

(** [import os] / [os.system('ls')] *)
Definition os_system_code : string :=
  "import os" ++ newline ++ "os.system('ls')".
Definition os_system_tree : node :=
  Module_ [ Import [plain "os"];
            Expr (Call (Attribute (Name "os") "system") [Constant] []) ].

(** [eval('1')] / [import os] *)
Definition eval_then_import_code : string :=
  "eval('1')" ++ newline ++ "import os".
Definition eval_then_import_tree : node :=
  Module_ [ Expr (Call (Name "eval") [Constant] []); Import [plain "os"] ].

(** [from os import path] *)
Definition from_os_code : string := "from os import path".
Definition from_os_tree : node :=
  Module_ [ ImportFrom (Some "os") [plain "path"] 0 ].

(** [import bpy] / [bpy.ops.mesh.primitive_cube_add(size=2)] *)
Definition cube_code : string :=
  "import bpy" ++ newline ++ "bpy.ops.mesh.primitive_cube_add(size=2)".
Definition cube_tree : node :=
  Module_ [ Import [plain "bpy"];
            Expr (Call
                    (Attribute (Attribute (Attribute (Name "bpy") "ops") "mesh")
                       "primitive_cube_add")
                    [] [Other "keyword" [Constant]]) ].

(** [print(] *)
Definition unbalanced_code : string := "print(".

(** A parser for the sample programs; it answers every other text as
    CPython answers text it cannot parse. *)
Definition sample_parse (code : string) : node + string :=
  if code =? os_system_code then inl os_system_tree
  else if code =? eval_then_import_code then inl eval_then_import_tree
  else if code =? from_os_code then inl from_os_tree
  else if code =? cube_code then inl cube_tree
  else if code =? unbalanced_code
       then inr "'(' was never closed (<unknown>, line 1)"
  else inr "invalid syntax (<unknown>, line 1)".

(** A gateway whose outside world is a clock: the engine leaves the text
    as it is, the model answers [cube_code], the agent answers
    [agent_answer]. *)
Definition sample_outside (agent_answer : outcome value) : Outside Z :=
  {| ast_parse := sample_parse;
     re_sub := fun _ _ _ code => code;
     json_dumps := fun _ => "{}";
     py_str := fun v => match v with VStr s => s | _ => "{...}" end;
     call_hermes := fun _ _ w => (Returned cube_code, w);
     get_output_dir := fun w => (Returned "/opt/app/output", w);
     write_text := fun _ _ w => (Returned tt, w);
     time_int := fun w => (w, (w + 1)%Z);
     process_script := fun _ w => (agent_answer, w) |}.

Definition raw_post (body : string) : request :=
  {| method := "POST"; content_type := Some "text/plain";
     get_json := None; get_data := body |}.

Definition fresh (clock : Z) : state Z :=
  {| world := clock; LATEST_PREVIEW := LATEST_PREVIEW_init; sent := [] |}.

(** The answer of [generate] to a script the sanitizer refuses. *)
Definition rejection (reason : string) : response :=
  (VDict [("error", VStr "script rejected by sanitizer");
          ("reason", VStr reason)], 400).

(** A statement that neither writes [LATEST_PREVIEW] nor calls the
    agent. *)
Definition quiet {W A} (m : @Server.M W A) : Prop :=
  forall s r s', m s = (r, s') ->
    sent s' = sent s /\ LATEST_PREVIEW s' = LATEST_PREVIEW s.

(** Induction over syntax trees, children included. *)
Fixpoint node_induction (P : node -> Prop)
    (HName : forall id, P (Name id))
    (HAttribute : forall v a, P v -> P (Attribute v a))
    (HCall : forall f args kws,
        P f -> Forall P args -> Forall P kws -> P (Call f args kws))
    (HImport : forall names, P (Import names))
    (HImportFrom : forall m names level, P (ImportFrom m names level))
    (HOther : forall k children, Forall P children -> P (Other k children))
    (n : node) {struct n} : P n :=
  let rec := node_induction P HName HAttribute HCall HImport HImportFrom
               HOther in
  let all :=
    fix all (l : list node) : Forall P l :=
      match l with
      | [] => Forall_nil P
      | x :: l' => Forall_cons x (rec x) (all l')
      end in
  match n with
  | Name id => HName id
  | Attribute v a => HAttribute v a (rec v)
  | Call f args kws => HCall f args kws (rec f) (all args) (all kws)
  | Import names => HImport names
  | ImportFrom m names level => HImportFrom m names level
  | Other k children => HOther k children (all children)
  end.

End Reading.

(** ** Reading the claims: tasks, batches and sample hosts *)

Module Bridge.
Import Py Agent.

(** The items the two entry points put on the task queue. *)
Definition ops_task (ops : value) : value :=
  VDict [("type", VStr "ops"); ("ops", ops)].

Definition script_task (text : string) : value :=
  VDict [("type", VStr "script"); ("script", VStr text)].

(** A batch [{operations: [...]}]. *)
Definition batch (items : list value) : value :=
  VDict [("operations", VList items)].

(** An entry of a batch read as the spec types it: an operation name and
    its parameters ([{}] when none are given). *)
Definition as_call (item : value) : option (string * value) :=
  match item with
  | VDict d =>
      match lookup "op" d with
      | Some (VStr name) =>
          Some (name,
                match lookup "params" d with
                | Some v => v
                | None => VDict []
                end)
      | _ => None
      end
  | _ => None
  end.

Section Results.

Context {W : Type}.
Variable host : Host W.

(** The results of a batch, entry by entry and in order, in the words of
    the spec: an unknown name gives ["unsupported op"] and changes
    nothing; a handler that raises gives an error with the exception
    text; a handler that returns gives its value under status ok. *)
Inductive batch_results
  : state W -> list (string * value) -> list value -> state W -> Prop :=
| results_done s :
    batch_results s [] [] s
| results_unsupported s name params rest rs s' :
    assoc name (OP_MAP host) = None ->
    batch_results s rest rs s' ->
    batch_results s ((name, params) :: rest)
      (op_unsupported (VStr name) :: rs) s'
| results_ok s name params func flag res s1 rest rs s' :
    assoc name (OP_MAP host) = Some (func, flag) ->
    call1 func params s = (Returned res, s1) ->
    batch_results s1 rest rs s' ->
    batch_results s ((name, params) :: rest)
      (op_ok (VStr name) res :: rs) s'
| results_error s name params func flag e s1 rest rs s' :
    assoc name (OP_MAP host) = Some (func, flag) ->
    call1 func params s = (Raised e, s1) ->
    batch_results s1 rest rs s' ->
    batch_results s ((name, params) :: rest)
      (op_error (VStr name) e :: rs) s'.

(** A statement that leaves both queues alone and makes only outside
    calls of the kind [P]. *)
Definition only {A} (P : event -> Prop) (m : @Agent.M W A) : Prop :=
  forall s r s', m s = (r, s') ->
    task_queue s' = task_queue s /\
    response_queue s' = response_queue s /\
    exists made, events s' = (events s ++ made)%list /\ Forall P made.

(** The state once the timer has taken the first task off the queue. *)
Definition taken (s : state W) (rest : list value) : state W :=
  {| world := world s; task_queue := rest;
     response_queue := response_queue s; events := events s |}.

(** The state once the timer has taken [item] and the script has run. *)
Definition after_exec (s : state W) (rest : list value) (text : string)
    (w : W) : state W :=
  {| world := w; task_queue := rest; response_queue := response_queue s;
     events := (events s ++ [EvExec (VStr text) exec_env])%list |}.

(** The state once the output directory has been listed. *)
Definition listed (s : state W) (w : W) : state W :=
  {| world := w; task_queue := task_queue s;
     response_queue := response_queue s;
     events := (events s ++ [EvListdir OUTPUT_DIR])%list |}.

(** The state with one more response on the queue. *)
Definition answered (s : state W) (r : value) : state W :=
  {| world := world s; task_queue := task_queue s;
     response_queue := (response_queue s ++ [r])%list;
     events := events s |}.

Definition preview_file (t : Z) : string :=
  path_join OUTPUT_DIR ("preview_" ++ str_of_Z t ++ ".png").

Definition model_file (t : Z) (ext : string) : string :=
  path_join OUTPUT_DIR ("model_" ++ str_of_Z t ++ ext).

Definition returned {A} (o : outcome A) : bool :=
  match o with
  | Returned _ => true
  | Raised _ => false
  end.

(** What the spec says follows once the preview [preview] is settled in
    state [s3] of a tick started in [s]: both exports are tried, each on
    its own, and the answer lists the names of those that came back. *)
Definition exports_follow (s : state W) (rest : list value)
    (preview : string) (s3 : state W) : Prop :=
  let (tg, w1) := time_int host (world s3) in
  let gltf := model_file tg ".gltf" in
  let (rg, w2) := export_scene_gltf host gltf w1 in
  let (to, w3) := time_int host w2 in
  let obj := model_file to ".obj" in
  let (ro, w4) := export_scene_obj host obj w3 in
  blender_timer host s =
    (Returned TICK,
     {| world := w4; task_queue := rest;
        response_queue :=
          (response_queue s ++
             [script_ok preview
                ((if returned rg then [basename gltf] else []) ++
                 (if returned ro then [basename obj] else []))])%list;
        events :=
          (events s3 ++ [EvClock; EvExportGltf gltf;
                         EvClock; EvExportObj obj])%list |}).

(** The state once a preview has been rendered at clock reading [t]. *)
Definition rendered_state (s2 : state W) (t : Z) (w : W) : state W :=
  {| world := w; task_queue := task_queue s2;
     response_queue := response_queue s2;
     events := (events s2 ++ [EvClock; EvRender (preview_file t)])%list |}.

(** What follows when the search found nothing, in state [s2] of a tick
    started in [s]: one render; the exports if it comes back, and an
    error answer with no export if it raises. *)
Definition synthesis_follows (s : state W) (rest : list value)
    (s2 : state W) : Prop :=
  let (t, w1) := time_int host (world s2) in
  let (r, w2) := render_still host (preview_file t) w1 in
  match r with
  | Returned _ =>
      exports_follow s rest (preview_file t) (rendered_state s2 t w2)
  | Raised e =>
      blender_timer host s =
        (Returned TICK, answered (rendered_state s2 t w2) (script_error e))
  end.

(** A statement that puts exactly one response when it returns and none
    when it raises, and leaves the task queue alone. *)
Definition answers_once {A} (m : @Agent.M W A) : Prop :=
  forall s,
    match m s with
    | (Returned _, s') =>
        task_queue s' = task_queue s /\
        exists r, response_queue s' = (response_queue s ++ [r])%list
    | (Raised _, s') =>
        task_queue s' = task_queue s /\
        response_queue s' = response_queue s
    end.

End Results.

(** The entry of a response under a key, if it has one. *)
Definition field (k : string) (r : value) : option value :=
  match r with
  | VDict d => lookup k d
  | _ => None
  end.

Definition not_exec (ev : event) : Prop :=
  match ev with
  | EvExec _ _ => False
  | _ => True
  end.

Definition searches (ev : event) : Prop :=
  match ev with
  | EvListdir _ | EvGetmtime _ => True
  | _ => False
  end.

Definition any (ev : event) : Prop := True.

(** The names the registry answers to, and the functions behind them. *)
Definition registry_names {W} (host : Host W) : list string :=
  map fst (OP_MAP host).

Definition function_name {W} (f : @pyfun W) : string :=
  match f with
  | Fun0 name _ => name
  | Fun1 name _ => name
  end.

Definition registry_functions {W} (host : Host W) : list string :=
  map (fun entry => function_name (fst (snd entry))) (OP_MAP host).


(** A Blender whose process state is a clock: [add_box] answers the name
    it is given and every other primitive raises; the script, the
    listing, the render and the two exports answer as told; a file's
    time of change is the length of its path. *)
Definition sample_host (ran : outcome unit) (listing : outcome (list string))
    (rendered gltf obj : outcome unit) : Host Z :=
  {| bpy_available := true;
     bpy_body := fun prim args w =>
       if prim =? "add_box"
       then (Returned (hd VNone args), w)
       else (Raised (Exception "object not found"), w);
     py_exec := fun _ _ w => (ran, w);
     os_listdir := fun _ w => (listing, w);
     os_getmtime := fun path w =>
       (Returned (Z.of_nat (String.length path) # 1)%Q, w);
     render_still := fun _ w => (rendered, w);
     export_scene_gltf := fun _ w => (gltf, w);
     export_scene_obj := fun _ w => (obj, w);
     time_int := fun w => (w, (w + 1)%Z) |}.

Definition ok : outcome unit := Returned tt.

Definition awaiting (tasks : list value) : state Z :=
  {| world := 1700000000%Z; task_queue := tasks; response_queue := [];
     events := [] |}.

End Bridge.

(** ** Runs of the agent *)

Module Runs.
Import Py Agent.

Section Ticks.

Context {W : Type}.
Variable host : Host W.

(** Blender calling the registered timer [k] times in a row. *)
Fixpoint ticks (k : nat) (s : state W) : state W :=
  match k with
  | O => s
  | S k' => ticks k' (snd (blender_timer host s))
  end.

End Ticks.

(** A file name without a directory separator. *)
Fixpoint no_slash (s : string) : Prop :=
  match s with
  | EmptyString => True
  | String c s' => c <> "/"%char /\ no_slash s'
  end.

(** A text in which the character [c] does not occur. *)
Fixpoint lacks (c : ascii) (s : string) : Prop :=
  match s with
  | EmptyString => True
  | String c' s' => c' <> c /\ lacks c s'
  end.

(** The last character of a text. *)
Fixpoint last_char (s : string) : option ascii :=
  match s with
  | EmptyString => None
  | String c EmptyString => Some c
  | String _ s' => last_char s'
  end.

(** The same host where [import bpy] has failed. *)
Definition without_bpy {W} (h : Host W) : Host W :=
  {| bpy_available := false;
     bpy_body := bpy_body h;
     py_exec := py_exec h;
     os_listdir := os_listdir h;
     os_getmtime := os_getmtime h;
     render_still := render_still h;
     export_scene_gltf := export_scene_gltf h;
     export_scene_obj := export_scene_obj h;
     time_int := time_int h |}.

(** A Blender where the script, the render and the exports succeed and
    the output directory is empty. *)
Definition plain_host : Host Z :=
  Bridge.sample_host Bridge.ok (Returned []) Bridge.ok Bridge.ok Bridge.ok.

(** A batch entry naming an operation, with its parameters. *)
Definition entry (name : string) (params : value) : value :=
  VDict [("op", VStr name); ("params", params)].

(** The message of the [AttributeError] for [x.get] on a non-dict. *)
Definition no_get (x : value) : exn :=
  Exception ("'" ++ type_name x ++ "' object has no attribute 'get'").

End Runs.

(** ** The other endings of a script: [agent/blender_agent.py] *)

(** [exec(script, exec_env)] runs text the agent did not write.  Besides
    returning, or raising an instance of [Exception] whose text can be
    taken, which is what [py_exec] tells, the script can raise what the
    handlers of [blender_timer] do not hold: both are written
    [except Exception as e] and both begin by printing [e]. *)

Module Endings.
Import Py Py.Notations Agent.

(** An exception that leaves the timer; [what] names it. *)
Record exit : Type := Exit { what : string }.

Inductive ending : Type :=
| Garbled (by_str : exn)
    (** an instance of [Exception] whose [__str__] raises [by_str] *)
| Exits (x : exit).
    (** an exception outside [Exception], [SystemExit] or
        [KeyboardInterrupt] say, or one whose [__str__] raises such a
        one, or raises one whose own text cannot be taken *)

(** Where a statement of the timer leaves off: as [Py.outcome] has it,
    with an exception in flight whose text cannot be taken, or with one
    no [except Exception] catches. *)
Inductive flow (A : Type) : Type :=
| Went (o : outcome A)
| Mute (by_str : exn)
| Left (x : exit).

Arguments Went {A} o.
Arguments Mute {A} by_str.
Arguments Left {A} x.

(** How a call of the timer ends: with the interval Blender is to wait
    before the next call, or with the exception that leaves it. *)
Inductive tick_end : Type :=
| Rescheduled (interval : Q)
| Ended (x : exit).

Section Timer.

Context {W : Type}.
Variable host : Host W.

(** The endings of a script [py_exec] does not tell, and the state of
    Blender they leave; [None] where the script ends as [py_exec] has
    it. *)
Variable script_ends :
  value -> list (string * binding) -> W -> option (ending * W).

Definition X (A : Type) : Type := state W -> flow A * state W.

(** A statement that does not execute the script. *)
Definition usual {A} (m : @Agent.M W A) : X A :=
  fun s => let (o, s') := m s in (Went o, s').

Definition and_then {A B} (m : X A) (k : A -> X B) : X B :=
  fun s =>
    match m s with
    | (Went (Returned a), s') => k a s'
    | (Went (Raised e), s') => (Went (Raised e), s')
    | (Mute e2, s') => (Mute e2, s')
    | (Left x, s') => (Left x, s')
    end.

(** [try: m  except Exception as e: print(f"... {e}"); h e]: the [print]
    takes the text of [e], and what that raises leaves the handler. *)
Definition handled {A} (m : X A) (h : exn -> X A) : X A :=
  fun s =>
    match m s with
    | (Went (Returned a), s') => (Went (Returned a), s')
    | (Went (Raised e), s') => h e s'
    | (Mute e2, s') => (Went (Raised e2), s')
    | (Left x, s') => (Left x, s')
    end.

(** The state once [exec] has ended on [script], leaving Blender as [w]. *)
Definition left_at (s : state W) (script : value) (w : W) : state W :=
  {| world := w; task_queue := task_queue s;
     response_queue := response_queue s;
     events := (events s ++ [EvExec script exec_env])%list |}.

(** [exec(script, exec_env)] *)
Definition exec (script : value) : X unit :=
  fun s =>
    match script_ends script exec_env (world s) with
    | Some (en, w) =>
        (match en with Garbled e2 => Mute e2 | Exits x => Left x end,
         left_at s script w)
    | None =>
        usual (outside (EvExec script exec_env) (py_exec host script exec_env)) s
    end.

(** The body of the inner [try] of the script branch. *)
Definition run_script (script : value) : X unit :=
  and_then
    (usual (if bpy_available host then ret tt
            else raise (Exception
                   "bpy not available: script execution requires Blender")))
    (fun _ =>
  and_then (exec script) (fun _ =>
  usual (post_process host))).

(** The body of the outer [try]. *)
Definition process_item (item : value) : X unit :=
  and_then (usual (lift (get item "type" VNone))) (fun _ =>
  and_then (usual (lift (get item "type" VNone))) (fun ty =>
  if is_str ty "ops" then
    usual (ops <- lift (get item "ops" VNone) ;;
           operations <- lift (get ops "operations" (VList [])) ;;
           _ <- lift (len operations) ;;
           res <- process_operations_main_thread host ops ;;
           response_put (VList res))
  else
    and_then (usual (lift (get item "type" VNone))) (fun ty' =>
    if is_str ty' "script" then
      and_then (usual (lift (get item "script" (VStr "")))) (fun script =>
      and_then (usual (lift (len script))) (fun _ =>
      handled (run_script script)
        (fun e => usual (put_quietly (script_error e)))))
    else
      usual (response_put (VDict [("error", VStr "unknown item type")]))))).

(** The timer as Blender calls it.  The handler of the outer [try]
    prints [e] before it answers; past it there is [return 0.3]. *)
Definition blender_timer : state W -> tick_end * state W :=
  fun s =>
    match task_queue s with
    | [] => (Rescheduled TICK, s)
    | item :: rest =>
        match
          handled (process_item item)
            (fun e =>
               usual (put_quietly (VDict [("error", VStr (message e))])))
            {| world := world s; task_queue := rest;
               response_queue := response_queue s; events := events s |}
        with
        | (Went (Returned _), s') => (Rescheduled TICK, s')
        | (Went (Raised e), s') => (Ended (Exit (message e)), s')
        | (Mute e2, s') => (Ended (Exit (message e2)), s')
        | (Left x, s') => (Ended x, s')
        end
    end.

(** Blender calling the registered timer [k] times in a row; a timer
    that an exception has left is not called again. *)
Fixpoint ticks (k : nat) (s : state W) : option (state W) :=
  match k with
  | O => Some s
  | S k' =>
      match blender_timer s with
      | (Rescheduled _, s') => ticks k' s'
      | (Ended _, _) => None
      end
  end.


End Timer.




End Endings.

(** ** The other routes of the gateway: [server/app.py] *)

Module Routes.
Import Py Py.Notations Server.

(** The directory of the gateway as Flask and [os] give it: the listing
    of a directory, a file's time of change, and
    [send_from_directory]. *)
Record Files (W : Type) : Type := {
  listdir : string -> W -> outcome (list string) * W;
  getmtime : string -> W -> outcome Q * W;
  send_from_directory : string -> value -> W -> outcome response * W
}.
Arguments listdir {W} f.
Arguments getmtime {W} f.
Arguments send_from_directory {W} f.

(** [fn.lower().endswith((".png", ".jpg", ".jpeg")) and
    fn.startswith("preview_")] *)
Definition is_listed (fn : string) : bool :=
  (endswith (lower fn) ".png" || endswith (lower fn) ".jpg"
   || endswith (lower fn) ".jpeg")
  && startswith fn "preview_".

(** [int(x)] of a float: the fraction is cut off. *)
Definition int_of (q : Q) : Z := Z.quot (Qnum q) (Zpos (Qden q)).

(** [files.sort(key=lambda x: x["mtime"], reverse=True)] *)
Fixpoint insert_by_mtime (x : string * Z) (l : list (string * Z))
  : list (string * Z) :=
  match l with
  | [] => [x]
  | y :: l' =>
      if (snd y <=? snd x)%Z then x :: l else y :: insert_by_mtime x l'
  end.

Definition sort_by_mtime (l : list (string * Z)) : list (string * Z) :=
  fold_right insert_by_mtime [] l.

Definition preview_entry (f : string * Z) : value :=
  VDict [("name", VStr (fst f)); ("mtime", VInt (snd f))].

Section Routes.

Context {W : Type}.
Variable out : Outside W.
Variable files : Files W.

(** The [for fn in os.listdir(outdir)] loop of [list_previews]. *)
Fixpoint collect (outdir : string) (names : list string)
    (found : list (string * Z)) : @Server.M W (list (string * Z)) :=
  match names with
  | [] => ret found
  | fn :: rest =>
      if is_listed fn then
        mtime <- catch
                   (t <- outside (getmtime files (path_join outdir fn)) ;;
                    ret (int_of t))
                   (fun _ => ret 0%Z) ;;
        collect outdir rest (found ++ [(fn, mtime)])%list
      else collect outdir rest found
  end.

(** What the listing holds for the names of a directory, name by name:
    nothing for a name that is no preview, the whole seconds of its time
    of change for one that is, and 0 in their place where that time
    cannot be read.  Said of the directory as each call of [getmtime]
    finds it and leaves it. *)
Inductive recorded (outdir : string)
  : W -> list string -> list (string * Z) -> W -> Prop :=
| recorded_end (w : W) : recorded outdir w [] [] w
| recorded_skip (w : W) (fn : string) (rest : list string)
    (found : list (string * Z)) (w' : W) :
    is_listed fn = false ->
    recorded outdir w rest found w' ->
    recorded outdir w (fn :: rest) found w'
| recorded_time (w : W) (fn : string) (t : Q) (w1 : W) (rest : list string)
    (found : list (string * Z)) (w' : W) :
    is_listed fn = true ->
    getmtime files (path_join outdir fn) w = (Returned t, w1) ->
    recorded outdir w1 rest found w' ->
    recorded outdir w (fn :: rest) ((fn, int_of t) :: found) w'
| recorded_zero (w : W) (fn : string) (e : exn) (w1 : W) (rest : list string)
    (found : list (string * Z)) (w' : W) :
    is_listed fn = true ->
    getmtime files (path_join outdir fn) w = (Raised e, w1) ->
    recorded outdir w1 rest found w' ->
    recorded outdir w (fn :: rest) ((fn, 0%Z) :: found) w'.

Definition list_previews : @Server.M W response :=
  outdir <- outside (get_output_dir out) ;;
  catch
    (names <- outside (listdir files outdir) ;;
     found <- collect outdir names [] ;;
     ret (VDict [("previews",
                  VList (map preview_entry (sort_by_mtime found)))], 200))
    (fun e => ret (VDict [("error", VStr (message e))], 500)).

Definition generate_status : @Server.M W response :=
  fun s => (Returned (VDict (LATEST_PREVIEW s), 200), s).

Definition serve_latest_preview : @Server.M W response :=
  fun s =>
    let fname :=
      match lookup "filename" (LATEST_PREVIEW s) with
      | Some v => v
      | None => VNone
      end in
    if negb (truthy fname)
    then (Returned (VDict [("error", VStr "no preview available")], 404), s)
    else
      catch
        (dir <- outside (get_output_dir out) ;;
         outside (send_from_directory files dir fname))
        (fun e =>
           ret (VDict [("error", VStr "failed to read preview");
                       ("details", VStr (message e))], 500)) s.

End Routes.

(** The same outside world with another model client. *)
Definition with_hermes {W} (out : Outside W)
    (client : string -> value -> W -> outcome string * W) : Outside W :=
  {| ast_parse := ast_parse out;
     re_sub := re_sub out;
     json_dumps := json_dumps out;
     py_str := py_str out;
     call_hermes := client;
     get_output_dir := get_output_dir out;
     write_text := write_text out;
     time_int := time_int out;
     process_script := process_script out |}.

(** The gateway of the samples with an agent that answers a finished
    run, and the one whose model client fails. *)
Definition done_answer : value :=
  VDict [("status", VStr "ok");
         ("preview", VStr "/opt/app/output/preview_1.png");
         ("exported_files", VList [VStr "model_1.gltf"])].

Definition done_outside : Outside Z :=
  Reading.sample_outside (Returned done_answer).

Definition failing_client : string -> value -> Z -> outcome string * Z :=
  fun _ _ w => (Raised (Exception "Nebius API request failed"), w).

(** A request with a JSON body. *)
Definition json_post (data : option value) : request :=
  {| method := "POST"; content_type := Some "application/json";
     get_json := data; get_data := "" |}.

(** A directory that lists as told, where a file's time of change is the
    length of its path plus a half and a file named [preview_gone.png]
    cannot be read. *)
Definition sample_files (names : outcome (list string)) : Files Z :=
  {| listdir := fun _ w => (names, w);
     getmtime := fun path w =>
       if endswith path "preview_gone.png"
       then (Raised (Exception "No such file or directory"), w)
       else (Returned ((Z.of_nat (String.length path) # 1) + (1 # 2))%Q, w);
     send_from_directory := fun dir name w =>
       (Returned (VDict [("sent", name)], 200), w) |}.

End Routes.

(** ** The model client: [server/nebius_client.py] *)

Module Client.
Import Py.

Section Content.

(** [f"{data}"], and the exception the interpreter raises when a value
    that is not a mapping is indexed, searched with [in], or asked for
    [get]. *)
Variable py_repr : value -> string.
Variable fault : value -> exn.

(** [choices[0]] of a truthy [choices]. *)
Definition first_choice (choices : value) : outcome value :=
  match choices with
  | VList (first :: _) => Returned first
  | VStr (String c _) => Returned (VStr (String c EmptyString))
  | _ => Raised (fault choices)
  end.

(** The part of [call_hermes] between the call of the service and the
    [return]: the assistant's text out of the decoded answer. *)
Definition assistant_content (data : value) : outcome value :=
  match get data "choices" (VList []) with
  | Raised e => Raised e
  | Returned choices =>
      if negb (truthy choices)
      then Raised (Exception
                     ("no choices in Nebius response: " ++ py_repr data))
      else
        match first_choice choices with
        | Raised e => Raised e
        | Returned (VDict first) =>
            let content :=
              match lookup "message" first with
              | Some (VDict msg) =>
                  match lookup "content" msg with
                  | Some c => c
                  | None => VNone
                  end
              | _ => VNone
              end in
            let content :=
              if truthy content then Returned content
              else
                let text :=
                  match lookup "text" first with
                  | Some t => t
                  | None => VNone
                  end in
                if truthy text then Returned text
                else
                  get match lookup "message" first with
                      | Some m => m
                      | None => VDict []
                      end "content" VNone in
            match content with
            | Raised e => Raised e
            | Returned c =>
                if truthy c then Returned c
                else Raised (Exception
                       ("couldn't find assistant content in response: "
                          ++ py_repr data))
            end
        | Returned first => Raised (fault first)
        end
  end.

End Content.

(** An answer of the service with a message and a text, and stand-ins
    for [repr] and the interpreter's errors. *)
Definition sample_choice : list (string * value) :=
  [("message", VDict [("role", VStr "assistant");
                      ("content", VStr "import bpy")]);
   ("text", VStr "older shape")].

Definition sample_reply : list (string * value) :=
  [("id", VStr "cmpl-1"); ("choices", VList [VDict sample_choice])].

Definition sample_repr : value -> string := fun _ => "{...}".

Definition sample_fault : value -> exn :=
  fun v => Exception ("'" ++ type_name v ++ "' object is not subscriptable").

End Client.


(** ** The sanitizer *)

Import Py Server Reading.

Lemma last_skip {A} (a : list A) (y : A) (b : list A) (d : A) :
  last (a ++ y :: b) d = last (y :: b) d.
Proof.
  induction a as [|x a IH]; [reflexivity|].
  change ((x :: a) ++ y :: b)%list with (x :: (a ++ y :: b))%list.
  destruct (a ++ y :: b)%list eqn:E.
  - destruct a; discriminate.
  - rewrite <- IH. reflexivity.
Qed.

Lemma latest_app (a b : list string) (before : option string) :
  latest (a ++ b) before = latest b (latest a before).
Proof.
  unfold latest. destruct b as [|y b].
  - rewrite app_nil_r. reflexivity.
  - destruct a as [|x a]; [reflexivity|].
    change ((x :: a) ++ y :: b)%list with (x :: (a ++ y :: b))%list.
    destruct (a ++ y :: b)%list eqn:E.
    + destruct a; discriminate.
    + rewrite <- E. f_equal.
      change (last ((x :: a) ++ y :: b) "" = last (y :: b) "").
      apply last_skip.
Qed.

Lemma walk_latest (l : list node) :
  Forall (fun c => forall e, visit c e = latest (offences c) e) l ->
  forall e,
    fold_left (fun e c => visit c e) l e = latest (flat_map offences l) e.
Proof.
  induction 1 as [|c l Hc _ IH]; intros e; [reflexivity|].
  cbn [fold_left flat_map]. rewrite IH, Hc, latest_app. reflexivity.
Qed.

Lemma visit_Import_latest (names : list alias) (e : option string) :
  visit_Import names e = latest (offences (Import names)) e.
Proof.
  cbn [offences]. induction names as [|a names IH]; [reflexivity|].
  cbn [visit_Import first_refused].
  destruct (mem (split_head dot (alias_name a)) allowed_imports);
    [exact IH | reflexivity].
Qed.

(** The scanner keeps the message of the last construct it objects to. *)
Lemma visit_latest (n : node) :
  forall e, visit n e = latest (offences n) e.
Proof.
  induction n as [id | v a IH | f args kws IHf IHa IHk | names
                 | m names level | k children IH] using node_induction;
    intros e.
  - reflexivity.
  - cbn [visit offences]. apply IH.
  - cbn [visit offences].
    assert (Hwalk :
      fold_left (fun e c => visit c e) kws
        (fold_left (fun e c => visit c e) args (visit f e))
      = latest (offences f ++ flat_map offences args
                  ++ flat_map offences kws) e).
    { rewrite (walk_latest kws IHk), (walk_latest args IHa), IHf.
      rewrite !latest_app. reflexivity. }
    destruct (full_name f) as [full|]; [|exact Hwalk].
    destruct (negb (full =? "") && is_forbidden full); [reflexivity|].
    exact Hwalk.
  - apply visit_Import_latest.
  - cbn [visit offences]. unfold visit_ImportFrom.
    destruct (mem _ allowed_imports); reflexivity.
  - cbn [visit offences]. apply walk_latest, IH.
Qed.

Lemma offences_nonempty (n : node) :
  Forall (fun m => m <> "") (offences n).
Proof.
  induction n as [id | v a IH | f args kws IHf IHa IHk | names
                 | m names level | k children IH] using node_induction.
  - constructor.
  - exact IH.
  - assert (Hin : Forall (fun m => m <> "")
             (offences f ++ flat_map offences args
                ++ flat_map offences kws)).
    { rewrite !Forall_app. repeat split; [exact IHf | |].
      - rewrite Forall_flat_map. exact IHa.
      - rewrite Forall_flat_map. exact IHk. }
    cbn [offences]. destruct (full_name f) as [full|]; [|exact Hin].
    destruct (negb (full =? "") && is_forbidden full); [|exact Hin].
    constructor; [discriminate | constructor].
  - cbn [offences]. destruct (first_refused names);
      constructor; [discriminate | constructor].
  - cbn [offences]. destruct (mem _ allowed_imports);
      constructor; [discriminate | constructor].
  - cbn [offences]. rewrite Forall_flat_map. exact IH.
Qed.

Lemma flat_map_offends (l : list node) (x : node) :
  In x l -> offences x <> [] -> flat_map offences l <> [].
Proof.
  intros Hin Hx Hnil. apply Hx.
  destruct (offences x) as [|m ms] eqn:E; [reflexivity|].
  assert (Hm : In m (flat_map offences l)).
  { apply in_flat_map. exists x. split; [exact Hin|]. rewrite E. now left. }
  rewrite Hnil in Hm. destruct Hm.
Qed.

(** A tree that holds an offending construct gives the scanner something
    to object to. *)
Lemma subnode_offends (c n : node) :
  subnode c n -> offences c <> [] -> offences n <> [].
Proof.
  intros Hsub Hc.
  induction Hsub as [ | v a _ IH | f args kws _ IH | f args kws x Hin _ IH
                    | f args kws x Hin _ IH | k children x Hin _ IH ].
  - exact Hc.
  - exact IH.
  - cbn [offences].
    assert (Hin : (offences f ++ flat_map offences args
                     ++ flat_map offences kws)%list <> []).
    { intros H. apply app_eq_nil in H. tauto. }
    destruct (full_name f) as [full|]; [|exact Hin].
    destruct (negb (full =? "") && is_forbidden full);
      [discriminate | exact Hin].
  - cbn [offences].
    assert (Hne : (offences f ++ flat_map offences args
                     ++ flat_map offences kws)%list <> []).
    { intros H. apply app_eq_nil in H. destruct H as [_ H].
      apply app_eq_nil in H. destruct H as [H _].
      exact (flat_map_offends args x Hin IH H). }
    destruct (full_name f) as [full|]; [|exact Hne].
    destruct (negb (full =? "") && is_forbidden full);
      [discriminate | exact Hne].
  - cbn [offences].
    assert (Hne : (offences f ++ flat_map offences args
                     ++ flat_map offences kws)%list <> []).
    { intros H. apply app_eq_nil in H. destruct H as [_ H].
      apply app_eq_nil in H. destruct H as [_ H].
      exact (flat_map_offends kws x Hin IH H). }
    destruct (full_name f) as [full|]; [|exact Hne].
    destruct (negb (full =? "") && is_forbidden full);
      [discriminate | exact Hne].
  - cbn [offences]. exact (flat_map_offends children x Hin IH).
Qed.

(** *** Names of callees *)

Lemma append_assoc (a b c : string) : (a ++ b) ++ c = a ++ b ++ c.
Proof.
  induction a as [|x a IH]; [reflexivity|]. cbn [append]. now rewrite IH.
Qed.

Lemma concat_snoc (sep : string) (l : list string) (a : string) :
  l <> [] -> String.concat sep (l ++ [a]) = String.concat sep l ++ sep ++ a.
Proof.
  induction l as [|x l IH]; intros Hne; [contradiction|].
  destruct l as [|y l].
  - reflexivity.
  - change (String.concat sep ((x :: y :: l) ++ [a]))
      with (x ++ sep ++ String.concat sep ((y :: l) ++ [a])).
    rewrite IH by discriminate.
    change (String.concat sep (x :: y :: l))
      with (x ++ sep ++ String.concat sep (y :: l)).
    rewrite !append_assoc. reflexivity.
Qed.

Lemma attribute_chain_resolves (v : node) (s : string) :
  resolves v s ->
  forall parts, exists ps root,
    attribute_chain v parts = ((parts ++ ps)%list, Name root) /\
    join "." (rev (ps ++ [root])) = s.
Proof.
  induction 1 as [id | v a s _ IH]; intros parts.
  - exists [], id. split; [cbn; now rewrite app_nil_r | reflexivity].
  - destruct (IH (parts ++ [a])%list) as (ps & root & Hc & Hj).
    exists (a :: ps), root. split.
    + cbn [attribute_chain]. rewrite Hc, <- app_assoc. reflexivity.
    + change ((a :: ps) ++ [root])%list with (a :: (ps ++ [root]))%list.
      cbn [rev]. unfold join in *. rewrite concat_snoc, Hj; [reflexivity|].
      rewrite rev_app_distr. discriminate.
Qed.

Lemma resolves_full_name (f : node) (full : string) :
  resolves f full -> full_name f = Some full.
Proof.
  intros H. destruct H as [id | v a s H]; [reflexivity|].
  destruct (attribute_chain_resolves (Attribute v a) (s ++ "." ++ a)
              (resolves_attribute v a s H) []) as (ps & root & Hc & Hj).
  unfold full_name. rewrite Hc. cbn [app]. rewrite Hj. reflexivity.
Qed.

Lemma endswith_refl (s : string) : endswith s s = true.
Proof. destruct s; cbn [endswith]; rewrite String.eqb_refl; reflexivity. Qed.

Lemma endswith_append (p suffix : string) : endswith (p ++ suffix) suffix = true.
Proof.
  induction p as [|c p IH]; [apply endswith_refl|].
  cbn [append endswith]. rewrite IH. apply orb_true_r.
Qed.

Lemma endswith_inv (s suffix : string) :
  endswith s suffix = true -> exists p, s = p ++ suffix.
Proof.
  induction s as [|c s IH]; cbn [endswith]; intros H.
  - rewrite orb_false_r in H. apply String.eqb_eq in H. now exists "".
  - apply orb_true_iff in H. destruct H as [H | H].
    + apply String.eqb_eq in H. now exists "".
    + destruct (IH H) as [p ->]. now exists (String c p).
Qed.

Lemma denied_is_forbidden (full : string) :
  denied full -> negb (full =? "") && is_forbidden full = true.
Proof.
  intros (bad & Hin & Hfull). apply andb_true_iff. split.
  - apply negb_true_iff, String.eqb_neq. intros ->.
    destruct Hfull as [<- | [p Hp]].
    + cbn in Hin. repeat (destruct Hin as [Hin | Hin]; [discriminate|]).
      exact Hin.
    + destruct p; discriminate.
  - unfold is_forbidden. apply existsb_exists. exists bad.
    split; [exact Hin|]. apply orb_true_iff.
    destruct Hfull as [-> | [p ->]].
    + left. apply String.eqb_refl.
    + right. apply endswith_append.
Qed.

Lemma is_forbidden_denied (full : string) :
  is_forbidden full = true -> denied full.
Proof.
  unfold is_forbidden. intros H. apply existsb_exists in H.
  destruct H as (bad & Hin & H). exists bad. split; [exact Hin|].
  apply orb_true_iff in H. destruct H as [H | H].
  - left. now apply String.eqb_eq.
  - right. destruct (endswith_inv _ _ H) as [p Hp]. now exists p.
Qed.

(** A call the claim describes is one the scanner objects to, by name. *)
Lemma denied_call_offends (f : node) (args kws : list node) (full : string) :
  resolves f full -> denied full ->
  offences (Call f args kws) = ["forbidden call detected: " ++ full].
Proof.
  intros Hr Hd. cbn [offences].
  rewrite (resolves_full_name f full Hr), (denied_is_forbidden full Hd).
  reflexivity.
Qed.

(** *** The verdict of [sanitize_script] *)

Lemma last_in {A} (l : list A) (d : A) : l <> [] -> In (last l d) l.
Proof.
  induction l as [|x l IH]; intros Hne; [contradiction|].
  destruct l as [|y l]; [now left|].
  right. apply IH. discriminate.
Qed.

Lemma lookup_store_same (k : string) (v : value) (d : list (string * value)) :
  lookup k (store k v d) = Some v.
Proof.
  induction d as [|[k' v'] d IH]; cbn [store lookup].
  - now rewrite String.eqb_refl.
  - destruct (k' =? k) eqn:E; cbn [lookup].
    + now rewrite String.eqb_refl.
    + now rewrite E.
Qed.

Lemma lookup_store_other (k k' : string) (v : value)
    (d : list (string * value)) :
  k <> k' -> lookup k (store k' v d) = lookup k d.
Proof.
  intros Hne. induction d as [|[k0 v0] d IH]; cbn [store lookup].
  - destruct (k' =? k) eqn:E; [|reflexivity].
    apply String.eqb_eq in E. congruence.
  - destruct (k0 =? k') eqn:E; cbn [lookup].
    + apply String.eqb_eq in E. subst k0.
      destruct (k' =? k) eqn:E'; [|reflexivity].
      apply String.eqb_eq in E'. congruence.
    + destruct (k0 =? k); [reflexivity | exact IH].
Qed.

Section GatewayFacts.

Context {W : Type}.
Variable out : Outside W.

(** A text that parses is accepted when the scanner objects to nothing,
    and refused with the last objection otherwise. *)
Lemma sanitize_parsed (code : string) (tree : node) :
  ast_parse out code = inl tree ->
  sanitize_script out code =
    match offences tree with
    | [] => (true, None)
    | msgs => (false, Some (last msgs ""))
    end.
Proof.
  intros Hp. unfold sanitize_script. rewrite Hp, visit_latest.
  unfold latest. destruct (offences tree) as [|m ms] eqn:E; [reflexivity|].
  assert (Hne : last (m :: ms) "" <> "").
  { pose proof (offences_nonempty tree) as Hall. rewrite E in Hall.
    rewrite Forall_forall in Hall. apply Hall, last_in. discriminate. }
  apply String.eqb_neq in Hne. rewrite Hne. reflexivity.
Qed.

Lemma sanitize_offending (code : string) (tree c : node) :
  ast_parse out code = inl tree ->
  subnode c tree -> offences c <> [] ->
  exists reason,
    sanitize_script out code = (false, Some reason) /\
    latest (offences tree) None = Some reason.
Proof.
  intros Hp Hsub Hc. rewrite (sanitize_parsed code tree Hp).
  pose proof (subnode_offends c tree Hsub Hc) as Hne.
  unfold latest. destruct (offences tree) as [|m ms]; [contradiction|].
  eexists. split; reflexivity.
Qed.

Lemma sanitize_trailing (code : string) (pre : list node) (stmt : node)
    (msg : string) :
  ast_parse out code = inl (Module_ (pre ++ [stmt])) ->
  offences stmt = [msg] ->
  sanitize_script out code = (false, Some msg).
Proof.
  intros Hp Hs. rewrite (sanitize_parsed _ _ Hp).
  unfold Module_. cbn [offences]. rewrite flat_map_app. cbn [flat_map].
  rewrite Hs. cbn [app].
  destruct (flat_map offences pre ++ [msg])%list eqn:E.
  - destruct (flat_map offences pre); discriminate.
  - rewrite <- E, last_last. reflexivity.
Qed.

(** A refusal always carries a reason. *)
Lemma sanitize_refusal (code : string) :
  fst (sanitize_script out code) = false ->
  exists reason, sanitize_script out code = (false, Some reason).
Proof.
  unfold sanitize_script. destruct (ast_parse out code) as [tree | e].
  - destruct (visit tree None) as [err|]; [|discriminate].
    destruct (err =? ""); [discriminate|]. intros _. now exists err.
  - intros _. eexists. reflexivity.
Qed.

(** What [generate] does with a script the sanitizer refuses. *)
Lemma submit_refused (model_text reason : string) (s : state W) :
  sanitize_script out model_text = (false, Some reason) ->
  submit out model_text s =
    (Returned (rejection reason),
     {| world := snd (time_int out (world s));
        LATEST_PREVIEW :=
          store "last_updated" (VInt (fst (time_int out (world s))))
            (store "error" (VStr reason)
               (store "status" (VStr "error") (LATEST_PREVIEW s)));
        sent := sent s |}).
Proof.
  intros H. unfold submit. rewrite H. cbn [negb].
  unfold bind, now, outside, update, ret. cbn.
  destruct (time_int out (world s)) as [t w]. reflexivity.
Qed.

Lemma quiet_ret {A} (a : A) : quiet (ret a : @Server.M W A).
Proof. intros s r s' H. inversion H. now split. Qed.

Lemma quiet_lift {A} (o : outcome A) : quiet (lift o : @Server.M W A).
Proof. intros s r s' H. inversion H. now split. Qed.

Lemma quiet_outside {A} (f : W -> outcome A * W) : quiet (outside f).
Proof.
  intros s r s' H. unfold outside in H. destruct (f (world s)).
  inversion H. now split.
Qed.

Lemma quiet_bind {A B} (m : @Server.M W A) (k : A -> @Server.M W B) :
  quiet m -> (forall a, quiet (k a)) -> quiet (bind m k).
Proof.
  intros Hm Hk s r s' H. unfold bind in H.
  destruct (m s) as [[a | e] s1] eqn:E.
  - destruct (Hm _ _ _ E) as [H1 H2]. destruct (Hk a _ _ _ H) as [H3 H4].
    split; congruence.
  - inversion H; subst. exact (Hm _ _ _ E).
Qed.

Lemma quiet_catch {A} (m : @Server.M W A) (h : exn -> @Server.M W A) :
  quiet m -> (forall e, quiet (h e)) -> quiet (catch m h).
Proof.
  intros Hm Hh s r s' H. unfold catch in H.
  destruct (m s) as [[a | e] s1] eqn:E.
  - inversion H; subst. exact (Hm _ _ _ E).
  - destruct (Hm _ _ _ E) as [H1 H2]. destruct (Hh e _ _ _ H) as [H3 H4].
    split; congruence.
Qed.

Lemma prepare_quiet (req : request) : quiet (prepare out req).
Proof.
  unfold prepare. destruct (method req =? "GET"); [apply quiet_ret|].
  apply quiet_bind.
  - destruct (contains _ _); [|apply quiet_ret].
    apply quiet_bind; [apply quiet_lift|]. intros a.
    apply quiet_bind; [apply quiet_lift|]. intros b. apply quiet_ret.
  - intros [[user_text constraints] raw_body].
    destruct (negb (truthy user_text) && _); [apply quiet_ret|].
    destruct (build_prompt out user_text constraints) as [sp up].
    apply quiet_bind.
    + destruct raw_body as [b|]; [|apply quiet_outside].
      destruct (negb (b =? "") && negb (strip b =? ""));
        [apply quiet_ret | apply quiet_outside].
    + intros model_text. apply quiet_bind; [apply quiet_outside|].
      intros dir. apply quiet_bind; [|intros; apply quiet_ret].
      apply quiet_catch; [apply quiet_outside | intros; apply quiet_ret].
Qed.

Lemma generate_prepared (req : request) (s s1 : state W) (text : string) :
  prepare out req s = (Returned (inr text), s1) ->
  generate out req s = submit out text s1.
Proof. intros H. unfold generate, bind. rewrite H. reflexivity. Qed.

End GatewayFacts.

(** *** Claims about the sanitizer and the gateway *)

Section GatewayClaims.

Context {W : Type}.
Variable out : Outside W.

(** C1 (as amended).  A text that parses and holds a call whose callee
    resolves statically to a denied name is always refused, and the reason
    reported is the message of the last construct the scanner objects to;
    it is ['forbidden call detected: <name>'] when the call is the last
    statement of the module.  A request whose script is such a text is
    answered with the refusal and nothing is handed to [process_script].
    For [import os] followed by [os.system('ls')] the reason is
    ['forbidden call detected: os.system']. *)
Theorem forbidden_call_rejected :
  (forall code tree f args kws full,
      ast_parse out code = inl tree ->
      subnode (Call f args kws) tree ->
      resolves f full -> denied full ->
      (exists reason,
          sanitize_script out code = (false, Some reason) /\
          latest (offences tree) None = Some reason /\
          forall req s s1,
            prepare out req s = (Returned (inr code), s1) ->
            exists s2,
              generate out req s = (Returned (rejection reason), s2) /\
              sent s2 = sent s) /\
      (forall pre,
          tree = Module_ (pre ++ [Expr (Call f args kws)]) ->
          sanitize_script out code =
            (false, Some ("forbidden call detected: " ++ full)))) /\
  (ast_parse out os_system_code = inl os_system_tree ->
   sanitize_script out os_system_code =
     (false, Some "forbidden call detected: os.system") /\
   forall req s s1,
     prepare out req s = (Returned (inr os_system_code), s1) ->
     exists s2,
       generate out req s =
         (Returned (rejection "forbidden call detected: os.system"), s2) /\
       sent s2 = sent s).
Proof.
  assert (Hreq : forall code reason,
    sanitize_script out code = (false, Some reason) ->
    forall req s s1,
      prepare out req s = (Returned (inr code), s1) ->
      exists s2,
        generate out req s = (Returned (rejection reason), s2) /\
        sent s2 = sent s).
  { intros code reason Hs req s s1 Hp.
    rewrite (generate_prepared out req s s1 code Hp).
    rewrite (submit_refused out code reason s1 Hs).
    eexists. split; [reflexivity|]. cbn [sent].
    apply (prepare_quiet out req s _ s1 Hp). }
  assert (Hlast : forall code f args kws full pre,
    ast_parse out code = inl (Module_ (pre ++ [Expr (Call f args kws)])) ->
    resolves f full -> denied full ->
    sanitize_script out code =
      (false, Some ("forbidden call detected: " ++ full))).
  { intros code f args kws full pre Hp Hr Hd.
    apply (sanitize_trailing out code pre (Expr (Call f args kws))); [exact Hp|].
    unfold Expr. cbn [offences flat_map].
    rewrite app_nil_r. apply denied_call_offends; assumption. }
  split.
  - intros code tree f args kws full Hp Hsub Hr Hd. split.
    + destruct (sanitize_offending out code tree (Call f args kws) Hp Hsub)
        as (reason & Hs & Hl).
      { rewrite (denied_call_offends f args kws full Hr Hd). discriminate. }
      exists reason. repeat split; [exact Hs | exact Hl |].
      apply Hreq, Hs.
    + intros pre ->. apply (Hlast code f args kws full pre Hp Hr Hd).
  - intros Hp.
    assert (Hs : sanitize_script out os_system_code =
                 (false, Some "forbidden call detected: os.system")).
    { apply (Hlast os_system_code (Attribute (Name "os") "system")
               [Constant] [] ("os" ++ "." ++ "system") [Import [plain "os"]]).
      - exact Hp.
      - apply resolves_attribute, resolves_name.
      - exists "system". split; [cbn; tauto|]. right. now exists "os". }
    split; [exact Hs|]. apply Hreq, Hs.
Qed.

(** C6.  A text the parser fails on is refused with the reason
    ['syntax error during parse: <detail>'], which is a syntax-error reason
    and not a forbidden-call reason, whatever the text holds. *)
Theorem parse_failure_is_syntax_error :
  forall code detail,
    ast_parse out code = inr detail ->
    exists reason,
      sanitize_script out code = (false, Some reason) /\
      reason = "syntax error during parse: " ++ detail /\
      startswith reason "syntax error" = true /\
      startswith reason "forbidden call detected" = false.
Proof.
  intros code detail Hp. unfold sanitize_script. rewrite Hp.
  eexists. repeat split.
Qed.

(** C9 (as amended).  A text that parses and holds an [import] or a
    [from ... import] whose root module is outside the allow-list is always
    refused, with the message of the last construct the scanner objects
    to.  When the statement is the last of the module the reason is
    ['import not allowed: <name>'] for an [import], naming its first alias
    outside the list, and ['from-import not allowed: <module>'] for a
    [from ... import]. *)
Theorem refused_import_rejected :
  forall code tree,
    ast_parse out code = inl tree ->
    (forall names a,
        subnode (Import names) tree ->
        In a names ->
        mem (split_head dot (alias_name a)) allowed_imports = false ->
        exists a',
          first_refused names = Some a' /\
          (exists reason,
              sanitize_script out code = (false, Some reason) /\
              latest (offences tree) None = Some reason) /\
          (forall pre,
              tree = Module_ (pre ++ [Import names]) ->
              sanitize_script out code =
                (false, Some ("import not allowed: " ++ alias_name a')))) /\
    (forall m names level,
        subnode (ImportFrom m names level) tree ->
        let modname := match m with Some x => x | None => "" end in
        mem (split_head dot modname) allowed_imports = false ->
        (exists reason,
            sanitize_script out code = (false, Some reason) /\
            latest (offences tree) None = Some reason) /\
        (forall pre,
            tree = Module_ (pre ++ [ImportFrom m names level]) ->
            sanitize_script out code =
              (false, Some ("from-import not allowed: " ++ modname)))).
Proof.
  intros code tree Hp. split.
  - intros names a Hsub Hin Hout.
    assert (Hfirst : exists a', first_refused names = Some a').
    { clear Hsub. induction names as [|x names IH]; [destruct Hin|].
      cbn [first_refused].
      destruct (mem (split_head dot (alias_name x)) allowed_imports) eqn:E.
      - destruct Hin as [-> | Hin]; [congruence | exact (IH Hin)].
      - now exists x. }
    destruct Hfirst as [a' Ha']. exists a'. split; [exact Ha'|].
    assert (Hoff : offences (Import names)
                   = ["import not allowed: " ++ alias_name a']).
    { cbn [offences]. now rewrite Ha'. }
    split.
    + apply (sanitize_offending out code tree (Import names) Hp Hsub).
      rewrite Hoff. discriminate.
    + intros pre ->. exact (sanitize_trailing out code pre _ _ Hp Hoff).
  - intros m names level Hsub modname Hout.
    assert (Hoff : offences (ImportFrom m names level)
                   = ["from-import not allowed: " ++ modname]).
    { cbn [offences]. fold modname. now rewrite Hout. }
    split.
    + apply (sanitize_offending out code tree _ Hp Hsub).
      rewrite Hoff. discriminate.
    + intros pre ->. exact (sanitize_trailing out code pre _ _ Hp Hoff).
Qed.

(** C10.  When the script a request arrives at is refused by the
    sanitizer, [generate] answers status 400 with the reason, hands
    nothing to [process_script], and writes [LATEST_PREVIEW]: status
    ['error'], the reason, and the clock as read at the refusal; the other
    keys stay as they were. *)
Theorem rejected_script_updates_tracker :
  forall req s s1 model_text,
    prepare out req s = (Returned (inr model_text), s1) ->
    fst (sanitize_script out model_text) = false ->
    exists reason s2,
      sanitize_script out model_text = (false, Some reason) /\
      generate out req s =
        (Returned (VDict [("error", VStr "script rejected by sanitizer");
                          ("reason", VStr reason)], 400), s2) /\
      sent s2 = sent s /\
      lookup "status" (LATEST_PREVIEW s2) = Some (VStr "error") /\
      lookup "error" (LATEST_PREVIEW s2) = Some (VStr reason) /\
      lookup "last_updated" (LATEST_PREVIEW s2)
        = Some (VInt (fst (time_int out (world s1)))) /\
      forall k, k <> "status" -> k <> "error" -> k <> "last_updated" ->
        lookup k (LATEST_PREVIEW s2) = lookup k (LATEST_PREVIEW s).
Proof.
  intros req s s1 model_text Hp Hno.
  destruct (sanitize_refusal out model_text Hno) as [reason Hs].
  destruct (prepare_quiet out req s _ s1 Hp) as [Hsent Hprev].
  exists reason. eexists. split; [exact Hs|].
  rewrite (generate_prepared out req s s1 model_text Hp).
  rewrite (submit_refused out model_text reason s1 Hs).
  split; [reflexivity|]. cbn [sent LATEST_PREVIEW]. rewrite Hprev.
  split; [exact Hsent|]. repeat split.
  - rewrite !lookup_store_other by discriminate. apply lookup_store_same.
  - rewrite lookup_store_other by discriminate. apply lookup_store_same.
  - apply lookup_store_same.
  - intros k H1 H2 H3. now rewrite !lookup_store_other by assumption.
Qed.

End GatewayClaims.

(** [eval('1')] followed by [import os] holds a denied call and is
    refused for the import. *)
Lemma forbidden_call_reason_overwritten :
  ~ (forall (W : Type) (out : Outside W) code tree f args kws full,
        ast_parse out code = inl tree ->
        subnode (Call f args kws) tree ->
        resolves f full -> denied full ->
        sanitize_script out code =
          (false, Some ("forbidden call detected: " ++ full))).
Proof.
  intros H.
  specialize (H Z (sample_outside (Returned VNone)) eval_then_import_code
                eval_then_import_tree (Name "eval") [Constant] [] "eval"
                eq_refl).
  assert (Hsub : subnode (Call (Name "eval") [Constant] [])
                   eval_then_import_tree).
  { eapply sub_child; [left; reflexivity|].
    eapply sub_child; [left; reflexivity|]. apply sub_here. }
  assert (Hd : denied "eval").
  { exists "eval". split; [cbn; tauto | now left]. }
  specialize (H Hsub (resolves_name "eval") Hd).
  vm_compute in H. discriminate H.
Qed.

(** [from os import path] is refused with the from-import wording. *)
Lemma from_import_wording_differs :
  ~ (forall (W : Type) (out : Outside W) code tree,
        ast_parse out code = inl tree ->
        (forall names a,
            subnode (Import names) tree -> In a names ->
            mem (split_head dot (alias_name a)) allowed_imports = false ->
            sanitize_script out code =
              (false, Some ("import not allowed: " ++ alias_name a))) /\
        (forall m names level,
            subnode (ImportFrom (Some m) names level) tree ->
            mem (split_head dot m) allowed_imports = false ->
            sanitize_script out code =
              (false, Some ("import not allowed: " ++ m)))).
Proof.
  intros H.
  destruct (H Z (sample_outside (Returned VNone)) from_os_code from_os_tree
              eq_refl) as [_ H2].
  specialize (H2 "os" [plain "path"] 0).
  assert (Hsub : subnode (ImportFrom (Some "os") [plain "path"] 0)
                   from_os_tree).
  { eapply sub_child; [left; reflexivity|]. apply sub_here. }
  specialize (H2 Hsub eq_refl). vm_compute in H2. discriminate H2.
Qed.

Lemma forbidden_call_rejected_witness :
  let out := sample_outside (Returned VNone) in
  (exists reason,
      sanitize_script out os_system_code = (false, Some reason) /\
      latest (offences os_system_tree) None = Some reason) /\
  sanitize_script out os_system_code =
    (false, Some "forbidden call detected: os.system") /\
  exists s2,
    generate out (raw_post os_system_code) (fresh 1000) =
      (Returned (rejection "forbidden call detected: os.system"), s2) /\
    sent s2 = [].
Proof.
  intros out.
  destruct (forbidden_call_rejected out) as [Hgen Hex].
  assert (Hsub : subnode (Call (Attribute (Name "os") "system") [Constant] [])
                   os_system_tree).
  { eapply sub_child; [right; left; reflexivity|].
    eapply sub_child; [left; reflexivity|]. apply sub_here. }
  assert (Hd : denied ("os" ++ "." ++ "system")).
  { exists "system". split; [cbn; tauto|]. right. now exists "os". }
  destruct (Hgen os_system_code os_system_tree
              (Attribute (Name "os") "system") [Constant] []
              ("os" ++ "." ++ "system") eq_refl Hsub
              (resolves_attribute _ _ _ (resolves_name "os")) Hd)
    as [(reason & Hs & Hl & _) _].
  split; [exists reason; split; assumption|].
  destruct (Hex eq_refl) as [Hs' Hg]. split; [exact Hs'|].
  apply (Hg (raw_post os_system_code) (fresh 1000) (fresh 1000)).
  vm_compute. reflexivity.
Defined.

Lemma parse_failure_is_syntax_error_witness :
  exists reason,
    sanitize_script (sample_outside (Returned VNone)) unbalanced_code
      = (false, Some reason) /\
    reason = "syntax error during parse: "
               ++ "'(' was never closed (<unknown>, line 1)" /\
    startswith reason "syntax error" = true /\
    startswith reason "forbidden call detected" = false.
Proof.
  apply (parse_failure_is_syntax_error (sample_outside (Returned VNone))
           unbalanced_code "'(' was never closed (<unknown>, line 1)").
  vm_compute. reflexivity.
Defined.

Lemma refused_import_rejected_witness :
  let out := sample_outside (Returned VNone) in
  sanitize_script out from_os_code
    = (false, Some ("from-import not allowed: " ++ "os")) /\
  exists reason,
    sanitize_script out os_system_code = (false, Some reason) /\
    latest (offences os_system_tree) None = Some reason.
Proof.
  intros out. split.
  - destruct (refused_import_rejected out from_os_code from_os_tree eq_refl)
      as [_ H].
    assert (Hsub : subnode (ImportFrom (Some "os") [plain "path"] 0)
                     from_os_tree).
    { eapply sub_child; [left; reflexivity|]. apply sub_here. }
    destruct (H (Some "os") [plain "path"] 0 Hsub eq_refl) as [_ Hlast].
    apply (Hlast []). reflexivity.
  - destruct (refused_import_rejected out os_system_code os_system_tree
                eq_refl) as [H _].
    assert (Hsub : subnode (Import [plain "os"]) os_system_tree).
    { eapply sub_child; [left; reflexivity|]. apply sub_here. }
    destruct (H [plain "os"] (plain "os") Hsub (or_introl eq_refl) eq_refl)
      as (a' & _ & Hrej & _).
    exact Hrej.
Defined.

Lemma rejected_script_updates_tracker_witness :
  let out := sample_outside (Returned VNone) in
  exists reason s2,
    sanitize_script out os_system_code = (false, Some reason) /\
    generate out (raw_post os_system_code) (fresh 1000) =
      (Returned (VDict [("error", VStr "script rejected by sanitizer");
                        ("reason", VStr reason)], 400), s2) /\
    sent s2 = sent (fresh 1000) /\
    lookup "status" (LATEST_PREVIEW s2) = Some (VStr "error") /\
    lookup "error" (LATEST_PREVIEW s2) = Some (VStr reason) /\
    lookup "last_updated" (LATEST_PREVIEW s2) = Some (VInt 1000).
Proof.
  intros out.
  destruct (rejected_script_updates_tracker out (raw_post os_system_code)
              (fresh 1000) (fresh 1000) os_system_code)
    as (reason & s2 & H1 & H2 & H3 & H4 & H5 & H6 & _).
  - vm_compute. reflexivity.
  - vm_compute. reflexivity.
  - exists reason, s2. repeat split; assumption.
Defined.

(** ** The executor *)

Section ExecutorFacts.

Import Agent Bridge.

Context {W : Type}.
Variable host : Host W.

Local Abbreviation St := (@Agent.M W).

Lemma only_ret {A} (P : event -> Prop) (a : A) : only P (ret a : St A).
Proof.
  intros s r s' H. inversion H; subst. repeat split.
  exists []. now rewrite app_nil_r.
Qed.

Lemma only_raise {A} (P : event -> Prop) (e : exn) : only P (raise e : St A).
Proof.
  intros s r s' H. inversion H; subst. repeat split.
  exists []. now rewrite app_nil_r.
Qed.

Lemma only_lift {A} (P : event -> Prop) (o : outcome A) :
  only P (lift o : St A).
Proof.
  intros s r s' H. inversion H; subst. repeat split.
  exists []. now rewrite app_nil_r.
Qed.

Lemma only_outside {A} (P : event -> Prop) (ev : event)
    (f : W -> outcome A * W) :
  P ev -> only P (outside ev f).
Proof.
  intros Hev s r s' H. unfold outside in H. destruct (f (world s)).
  inversion H; subst. cbn. repeat split.
  exists [ev]. split; [reflexivity | now constructor].
Qed.

Lemma only_bind {A B} (P : event -> Prop) (m : St A) (k : A -> St B) :
  only P m -> (forall a, only P (k a)) -> only P (bind m k).
Proof.
  intros Hm Hk s r s' H. unfold bind in H.
  destruct (m s) as [[a | e] s1] eqn:E.
  - destruct (Hm _ _ _ E) as (T1 & R1 & l1 & E1 & F1).
    destruct (Hk a _ _ _ H) as (T2 & R2 & l2 & E2 & F2).
    repeat split; [congruence | congruence |].
    exists (l1 ++ l2)%list. split.
    + now rewrite E2, E1, app_assoc.
    + now apply Forall_app.
  - inversion H; subst. exact (Hm _ _ _ E).
Qed.

Lemma only_catch {A} (P : event -> Prop) (m : St A) (h : exn -> St A) :
  only P m -> (forall e, only P (h e)) -> only P (catch m h).
Proof.
  intros Hm Hh s r s' H. unfold catch in H.
  destruct (m s) as [[a | e] s1] eqn:E.
  - inversion H; subst. exact (Hm _ _ _ E).
  - destruct (Hm _ _ _ E) as (T1 & R1 & l1 & E1 & F1).
    destruct (Hh e _ _ _ H) as (T2 & R2 & l2 & E2 & F2).
    repeat split; [congruence | congruence |].
    exists (l1 ++ l2)%list. split.
    + now rewrite E2, E1, app_assoc.
    + now apply Forall_app.
Qed.

Lemma only_any {A} (P : event -> Prop) (m : St A) : only P m -> only any m.
Proof.
  intros Hm s r s' H. destruct (Hm _ _ _ H) as (T & R & l & E & _).
  repeat split; [exact T | exact R |]. exists l. split; [exact E|].
  apply Forall_forall. intros; exact I.
Qed.

Ltac only_step :=
  first
    [ apply only_ret | apply only_raise | apply only_lift
    | apply only_outside; exact I
    | apply only_bind; [| intros ?]
    | apply only_catch; [| intros ?] ].

Lemma require_bpy_only (who : string) : only any (require_bpy host who).
Proof. unfold require_bpy. destruct (bpy_available host); only_step. Qed.

Lemma bpy_only (prim : string) (args : list value) :
  only any (bpy host prim args).
Proof. unfold bpy. only_step. Qed.

Lemma call1_only (func : pyfun) (params : value) :
  In func (map (fun entry => fst (snd entry)) (OP_MAP host)) ->
  only any (call1 func params).
Proof.
  intros Hin. cbn in Hin.
  repeat (destruct Hin as [<- | Hin];
    [ cbn [call1];
      first
        [ apply only_raise
        | unfold add_box, add_cylinder, translate, rotate, boolean_diff,
            export_obj;
          repeat first [ apply require_bpy_only | apply bpy_only | only_step ] ]
    | ]).
  destruct Hin.
Qed.

Lemma assoc_in {A} (k : string) (d : list (string * A)) (a : A) :
  assoc k d = Some a -> In a (map snd d).
Proof.
  induction d as [|[k' a'] d IH]; cbn; [discriminate|].
  destruct (k' =? k); intros H; [inversion H; now left | right; auto].
Qed.

Lemma handler_only (name : string) (func : pyfun) (flag : bool)
    (params : value) :
  assoc name (OP_MAP host) = Some (func, flag) ->
  only any (call1 func params).
Proof.
  intros H. apply call1_only. apply assoc_in in H.
  apply in_map_iff in H. destruct H as ([k [f b]] & Hfb & Hin).
  cbn in Hfb. inversion Hfb; subst.
  apply in_map_iff. exists (k, (func, flag)). split; [reflexivity | exact Hin].
Qed.

(** *** Operation batches *)

Lemma as_call_inv (item : value) (name : string) (params : value) :
  as_call item = Some (name, params) ->
  get item "op" VNone = Returned (VStr name) /\
  get item "params" (VDict []) = Returned params.
Proof.
  destruct item as [ | | | | | |d]; try discriminate. cbn [as_call get].
  destruct (lookup "op" d) as [[ | | | |n| | ]|]; try discriminate.
  intros H. inversion H; subst. split; reflexivity.
Qed.

Lemma batch_results_length (s s' : state W) (calls : list (string * value))
    (rs : list value) :
  batch_results host s calls rs s' -> length rs = length calls.
Proof. induction 1; cbn; congruence. Qed.

Lemma batch_results_queues (s s' : state W) (calls : list (string * value))
    (rs : list value) :
  batch_results host s calls rs s' ->
  task_queue s' = task_queue s /\ response_queue s' = response_queue s.
Proof.
  induction 1 as [ s | s name params rest rs s' _ _ IH
                 | s name params func flag res s1 rest rs s' Ha Hc _ IH
                 | s name params func flag e s1 rest rs s' Ha Hc _ IH ].
  - now split.
  - exact IH.
  - destruct (handler_only name func flag params Ha _ _ _ Hc) as (T & R & _).
    destruct IH. split; congruence.
  - destruct (handler_only name func flag params Ha _ _ _ Hc) as (T & R & _).
    destruct IH. split; congruence.
Qed.

(** The loop answers every entry, in order. *)
Lemma ops_loop_results (items : list value) :
  forall (calls : list (string * value)) (acc : list value) (s : state W),
    map as_call items = map Some calls ->
    exists rs s',
      ops_loop host items acc s = (Returned (acc ++ rs)%list, s') /\
      batch_results host s calls rs s'.
Proof.
  induction items as [|item items IH]; intros calls acc s Hc.
  - destruct calls; [|discriminate]. exists [], s. split.
    + cbn. now rewrite app_nil_r.
    + constructor.
  - destruct calls as [|[name params] calls]; [discriminate|].
    cbn [map] in Hc. inversion Hc as [[Hitem Hrest]].
    destruct (as_call_inv item name params Hitem) as [Hop Hpar].
    cbn [ops_loop]. unfold bind, lift. rewrite Hop, Hpar.
    cbn [OP_MAP_get].
    destruct (assoc name (OP_MAP host)) as [[func flag]|] eqn:Ha.
    + unfold catch, ret.
      destruct (call1 func params s) as [[res | e] s1] eqn:Hcall.
      * destruct (IH calls (acc ++ [op_ok (VStr name) res])%list s1 Hrest)
          as (rs & s' & Hl & Hb).
        exists (op_ok (VStr name) res :: rs), s'. split.
        -- rewrite Hl, <- app_assoc. reflexivity.
        -- eapply results_ok; eassumption.
      * destruct (IH calls (acc ++ [op_error (VStr name) e])%list s1 Hrest)
          as (rs & s' & Hl & Hb).
        exists (op_error (VStr name) e :: rs), s'. split.
        -- rewrite Hl, <- app_assoc. reflexivity.
        -- eapply results_error; eassumption.
    + destruct (IH calls (acc ++ [op_unsupported (VStr name)])%list s Hrest)
        as (rs & s' & Hl & Hb).
      exists (op_unsupported (VStr name) :: rs), s'. split.
      * rewrite Hl, <- app_assoc. reflexivity.
      * now apply results_unsupported.
Qed.

Lemma process_operations_results (d : list (string * value))
    (items : list value) (calls : list (string * value)) (s : state W) :
  lookup "operations" d = Some (VList items) ->
  map as_call items = map Some calls ->
  exists rs s',
    process_operations_main_thread host (VDict d) s = (Returned rs, s') /\
    batch_results host s calls rs s'.
Proof.
  intros Hd Hc. unfold process_operations_main_thread, bind, lift.
  cbn [get]. rewrite Hd. cbn [iterate].
  destruct (ops_loop_results items calls [] s Hc) as (rs & s' & Hl & Hb).
  exists rs, s'. split; assumption.
Qed.

(** *** Scripts *)

Lemma mtimes_only (files : list string) : only searches (mtimes host files).
Proof.
  induction files as [|f files IH]; cbn [mtimes]; [apply only_ret|].
  apply only_bind; [apply only_outside; exact I|]. intros t.
  apply only_bind; [exact IH|]. intros r. apply only_ret.
Qed.

Lemma find_preview_only : only searches (find_preview host).
Proof.
  unfold find_preview. apply only_catch; [|intros; apply only_ret].
  apply only_bind; [apply only_outside; exact I|]. intros names.
  destruct (filter is_preview_name names); [apply only_ret|].
  apply only_bind; [apply mtimes_only|]. intros keyed.
  destruct (sort_desc keyed) as [|[t f] sorted];
    [apply only_raise | apply only_ret].
Qed.

(** The search never raises. *)
Lemma find_preview_returns (s : state W) :
  exists found s', find_preview host s = (Returned found, s').
Proof.
  unfold find_preview, catch.
  match goal with |- context [match ?m s with _ => _ end] =>
    destruct (m s) as [[found | e] s1] end.
  - now exists found, s1.
  - now exists None, s1.
Qed.

Lemma try_export_runs (ext : string) (ev : string -> event)
    (export : string -> W -> outcome unit * W) (acc : list string)
    (s : state W) :
  try_export host ext ev export acc s =
    let (t, w1) := time_int host (world s) in
    let path := model_file t ext in
    let (r, w2) := export path w1 in
    (Returned (acc ++ (if returned r then [basename path] else []))%list,
     {| world := w2; task_queue := task_queue s;
        response_queue := response_queue s;
        events := (events s ++ [EvClock; ev path])%list |}).
Proof.
  unfold try_export, catch, bind, now, outside, ret, model_file. cbn.
  destruct (time_int host (world s)) as [t w1]. cbn.
  destruct (export _ w1) as [[[]|e] w2]; cbn; rewrite <- app_assoc;
    [reflexivity | now rewrite app_nil_r].
Qed.

Lemma export_and_answer_runs (preview : string) (s : state W) :
  export_and_answer host preview s =
    let (tg, w1) := time_int host (world s) in
    let gltf := model_file tg ".gltf" in
    let (rg, w2) := export_scene_gltf host gltf w1 in
    let (to, w3) := time_int host w2 in
    let obj := model_file to ".obj" in
    let (ro, w4) := export_scene_obj host obj w3 in
    (Returned tt,
     {| world := w4; task_queue := task_queue s;
        response_queue :=
          (response_queue s ++
             [script_ok preview
                ((if returned rg then [basename gltf] else []) ++
                 (if returned ro then [basename obj] else []))])%list;
        events :=
          (events s ++ [EvClock; EvExportGltf gltf;
                        EvClock; EvExportObj obj])%list |}).
Proof.
  unfold export_and_answer, bind. rewrite try_export_runs.
  destruct (time_int host (world s)) as [tg w1]. cbv zeta.
  destruct (export_scene_gltf host (model_file tg ".gltf") w1) as [rg w2].
  rewrite try_export_runs. cbn [world].
  destruct (time_int host w2) as [to w3]. cbv zeta.
  destruct (export_scene_obj host (model_file to ".obj") w3) as [ro w4].
  unfold response_put. cbn. rewrite <- app_assoc. reflexivity.
Qed.

Lemma synthesize_preview_runs (s : state W) :
  synthesize_preview host s =
    let (t, w1) := time_int host (world s) in
    let (r, w2) := render_still host (preview_file t) w1 in
    (match r with
     | Returned _ => Returned (preview_file t)
     | Raised e => Raised e
     end,
     {| world := w2; task_queue := task_queue s;
        response_queue := response_queue s;
        events := (events s ++ [EvClock; EvRender (preview_file t)])%list |}).
Proof.
  unfold synthesize_preview, _render_and_save, bind, now, outside, ret,
    preview_file. cbn.
  destruct (time_int host (world s)) as [t w1]. cbn.
  destruct (render_still host _ w1) as [[[]|e] w2]; cbn;
    rewrite <- app_assoc; reflexivity.
Qed.

(** A tick that finds a script task is the inner [try] and its handler. *)
Lemma tick_script (text : string) (rest : list value) (s : state W) :
  task_queue s = script_task text :: rest ->
  blender_timer host s =
    match run_script host (VStr text) (taken s rest) with
    | (Returned _, s') => (Returned TICK, s')
    | (Raised e, s') =>
        (Returned TICK,
         {| world := world s'; task_queue := task_queue s';
            response_queue := (response_queue s' ++ [script_error e])%list;
            events := events s' |})
    end.
Proof.
  intros Hq. unfold blender_timer. rewrite Hq.
  unfold process_item, script_task, bind, lift, catch. cbn [get lookup].
  change ("type" =? "type") with true. cbv iota.
  change (is_str (VStr "script") "ops") with false. cbv iota.
  change (is_str (VStr "script") "script") with true. cbv iota.
  change ("type" =? "script") with false. cbv iota.
  change ("script" =? "script") with true. cbv iota. cbn [len].
  fold (taken s rest).
  destruct (run_script host (VStr text) (taken s rest)) as [[[]|e] s'].
  - reflexivity.
  - unfold put_quietly, catch, response_put, ret. reflexivity.
Qed.

Lemma run_script_runs (text : string) (s : state W) :
  bpy_available host = true ->
  run_script host (VStr text) s =
    let (r, w) := py_exec host (VStr text) exec_env (world s) in
    let s1 :=
      {| world := w; task_queue := task_queue s;
         response_queue := response_queue s;
         events := (events s ++ [EvExec (VStr text) exec_env])%list |} in
    match r with
    | Returned _ => post_process host s1
    | Raised e => (Raised e, s1)
    end.
Proof.
  intros Hb. unfold run_script, bind, outside, ret. rewrite Hb.
  destruct (py_exec host (VStr text) exec_env (world s)) as [[[]|e] w];
    reflexivity.
Qed.

(** *** The search for a preview *)

Lemma insert_desc_in (x y : Q * string) (l : list (Q * string)) :
  In y (insert_desc x l) <-> y = x \/ In y l.
Proof.
  induction l as [|h l IH]; cbn [insert_desc].
  - cbn. intuition congruence.
  - destruct (Qle_bool (fst h) (fst x)).
    + cbn. intuition congruence.
    + cbn [In]. rewrite IH. intuition congruence.
Qed.

Lemma sort_desc_in (y : Q * string) (l : list (Q * string)) :
  In y (sort_desc l) <-> In y l.
Proof.
  induction l as [|x l IH]; [reflexivity|].
  unfold sort_desc in *. cbn [fold_right]. rewrite insert_desc_in, IH.
  cbn. intuition congruence.
Qed.

(** The head of the sorted list is a latest file. *)
Lemma sort_desc_head (l : list (Q * string)) (t : Q) (f : string)
    (rest : list (Q * string)) :
  sort_desc l = (t, f) :: rest ->
  forall t' f', In (t', f') l -> (t' <= t)%Q.
Proof.
  revert t f rest. induction l as [|[tx fx] l IH]; intros t f rest Hs t' f' Hin.
  - destruct Hin.
  - unfold sort_desc in Hs. cbn [fold_right] in Hs. fold (sort_desc l) in Hs.
    destruct (sort_desc l) as [|[th fh] sorted] eqn:Hl.
    + cbn in Hs. inversion Hs; subst.
      destruct Hin as [Heq | Hin]; [inversion Heq; apply Qle_refl|].
      apply (sort_desc_in (t', f')) in Hin. rewrite Hl in Hin. destruct Hin.
    + cbn [insert_desc fst] in Hs.
      destruct (Qle_bool th tx) eqn:Hle.
      * inversion Hs; subst. apply Qle_bool_iff in Hle.
        destruct Hin as [Heq | Hin]; [inversion Heq; apply Qle_refl|].
        apply Qle_trans with th; [|exact Hle].
        exact (IH th fh sorted eq_refl t' f' Hin).
      * inversion Hs; subst.
        destruct Hin as [Heq | Hin].
        -- inversion Heq; subst. apply Qlt_le_weak, Qnot_le_lt.
           intros Hc. apply Qle_bool_iff in Hc. congruence.
        -- exact (IH t f sorted eq_refl t' f' Hin).
Qed.

Lemma mtimes_names (files : list string) :
  forall s keyed s',
    mtimes host files s = (Returned keyed, s') -> map snd keyed = files.
Proof.
  induction files as [|f files IH]; intros s keyed s' H.
  - inversion H. reflexivity.
  - cbn [mtimes] in H. unfold bind in H.
    destruct (outside _ _ s) as [[t | e] s1]; [|discriminate].
    destruct (mtimes host files s1) as [[r | e] s2] eqn:E; [|discriminate].
    inversion H; subst. cbn. f_equal. exact (IH _ _ _ E).
Qed.

(** What the search finds, by what the directory holds. *)
Lemma find_preview_finds (s s' : state W) (found : option string) :
  find_preview host s = (Returned found, s') ->
  (forall p, found = Some p ->
     exists names w f,
       os_listdir host OUTPUT_DIR (world s) = (Returned names, w) /\
       In f names /\ is_preview_name f = true /\
       p = path_join OUTPUT_DIR f) /\
  (forall names w,
     os_listdir host OUTPUT_DIR (world s) = (Returned names, w) ->
     (filter is_preview_name names = [] -> found = None) /\
     (forall keyed sk,
        filter is_preview_name names <> [] ->
        mtimes host (filter is_preview_name names) (listed s w)
          = (Returned keyed, sk) ->
        exists t f,
          found = Some (path_join OUTPUT_DIR f) /\
          In (t, f) keyed /\ In f names /\ is_preview_name f = true /\
          forall t' f', In (t', f') keyed -> (t' <= t)%Q)).
Proof.
  unfold find_preview, catch, bind, outside. intros H.
  destruct (os_listdir host OUTPUT_DIR (world s)) as [[names | e] w] eqn:El.
  - fold (listed s w) in H.
    destruct (filter is_preview_name names) as [|f0 fs] eqn:Ef.
    + inversion H; subst. split; [discriminate|].
      intros names' w' Heq. inversion Heq; subst. rewrite Ef.
      split; [reflexivity | intros ? ? Hne; now destruct Hne].
    + destruct (mtimes host (f0 :: fs) (listed s w)) as [[keyed | e] s1] eqn:Em.
      * pose proof (mtimes_names _ _ _ _ Em) as Hnames.
        destruct (sort_desc keyed) as [|[t f] sorted] eqn:Es.
        -- inversion H; subst. split; [discriminate|].
           intros names' w' Heq. inversion Heq; subst. rewrite Ef.
           split; [discriminate|]. intros keyed' sk _ Em'.
           rewrite Em in Em'. inversion Em'; subst.
           destruct keyed' as [|k keyed']; [discriminate|].
           assert (Hk : In k (sort_desc (k :: keyed')))
             by (apply sort_desc_in; now left).
           rewrite Es in Hk. destruct Hk.
        -- inversion H; subst.
           assert (Htf : In (t, f) keyed).
           { apply sort_desc_in. rewrite Es. now left. }
           assert (Hf : In f (filter is_preview_name names)).
           { rewrite Ef, <- Hnames. apply in_map_iff.
             exists (t, f). now split. }
           apply filter_In in Hf. destruct Hf as [Hfn Hfp].
           split.
           ++ intros p Hp. inversion Hp; subst.
              exists names, w, f. repeat split; assumption.
           ++ intros names' w' Heq. inversion Heq; subst. rewrite Ef.
              split; [discriminate|]. intros keyed' sk _ Em'.
              rewrite Em in Em'. inversion Em'; subst.
              exists t, f. repeat split; try assumption.
              exact (sort_desc_head keyed' t f sorted Es).
      * inversion H; subst. split; [discriminate|].
        intros names' w' Heq. inversion Heq; subst. rewrite Ef.
        split; [discriminate|]. intros keyed sk _ Em'.
        rewrite Em in Em'. discriminate.
  - inversion H; subst. split; [discriminate|]. intros ? ? Heq. discriminate.
Qed.

Lemma preview_path_nonempty (f : string) : path_join OUTPUT_DIR f <> "".
Proof.
  unfold path_join. destruct (startswith f "/") eqn:E.
  - intros ->. discriminate.
  - change ((OUTPUT_DIR =? "") || endswith OUTPUT_DIR "/") with false.
    cbv iota. discriminate.
Qed.

(** What follows [exec]: the search, then the found preview or a new
    one, then the exports. *)
Lemma post_process_runs (s1 : state W) :
  exists found s2 looked,
    find_preview host s1 = (Returned found, s2) /\
    task_queue s2 = task_queue s1 /\
    response_queue s2 = response_queue s1 /\
    events s2 = (events s1 ++ looked)%list /\
    Forall searches looked /\
    post_process host s1 =
      match found with
      | Some p => export_and_answer host p s2
      | None =>
          match synthesize_preview host s2 with
          | (Returned p, s3) => export_and_answer host p s3
          | (Raised e, s3) => (Raised e, s3)
          end
      end.
Proof.
  destruct (find_preview_returns s1) as (found & s2 & Hf).
  destruct (find_preview_only _ _ _ Hf) as (T & R & looked & E & F).
  exists found, s2, looked. repeat split; try assumption.
  unfold post_process, settle_preview, bind. rewrite Hf.
  destruct found as [p|].
  - destruct (proj1 (find_preview_finds _ _ _ Hf) p eq_refl)
      as (names & w & f & _ & _ & _ & ->).
    pose proof (preview_path_nonempty f) as Hne.
    apply String.eqb_neq in Hne. rewrite Hne. reflexivity.
  - destruct (synthesize_preview host s2) as [[p | e] s3]; reflexivity.
Qed.

(** *** One response per task *)

Lemma answers_once_put (r : value) : answers_once (response_put r : St unit).
Proof. intros s. cbn. split; [reflexivity | now exists r]. Qed.

Lemma answers_once_bind {A B} (P : event -> Prop) (m : St A) (k : A -> St B) :
  only P m -> (forall a, answers_once (k a)) -> answers_once (bind m k).
Proof.
  intros Hm Hk s. unfold bind.
  destruct (m s) as [[a | e] s1] eqn:E;
    destruct (Hm _ _ _ E) as (T & R & _).
  - specialize (Hk a s1). destruct (k a s1) as [[b | e] s2].
    + destruct Hk as (T2 & r & R2). split; [congruence|].
      exists r. congruence.
    + destruct Hk as (T2 & R2). split; congruence.
  - split; assumption.
Qed.

(** An inner [try] whose handler puts the error never raises and has put
    one response. *)
Lemma answers_once_catch (m : St unit) (h : exn -> value) :
  answers_once m ->
  answers_once (catch m (fun e => put_quietly (h e))) /\
  forall s, exists s', catch m (fun e => put_quietly (h e)) s = (Returned tt, s').
Proof.
  intros Hm. split; intros s; specialize (Hm s); unfold catch;
    destruct (m s) as [[[] | e] s1].
  - exact Hm.
  - destruct Hm as (T & R). cbn. split; [exact T|].
    exists (h e). now rewrite R.
  - now exists s1.
  - eexists. reflexivity.
Qed.

Lemma try_export_only (ext : string) (ev : string -> event)
    (export : string -> W -> outcome unit * W) (acc : list string) :
  only any (try_export host ext ev export acc).
Proof.
  unfold try_export, now.
  repeat first [ apply only_outside; exact I | only_step ].
Qed.

Lemma settle_preview_only : only any (settle_preview host).
Proof.
  unfold settle_preview.
  apply only_bind; [apply (only_any searches), find_preview_only|].
  assert (Hs : only any (synthesize_preview host)).
  { unfold synthesize_preview, _render_and_save, now.
    repeat first [ apply only_outside; exact I | only_step ]. }
  intros [p|]; [destruct (p =? ""); [exact Hs | apply only_ret] | exact Hs].
Qed.

Lemma run_script_answers_once (script : value) :
  answers_once (run_script host script).
Proof.
  unfold run_script.
  apply (answers_once_bind any);
    [destruct (bpy_available host); only_step|]. intros _.
  apply (answers_once_bind any); [apply only_outside; exact I|]. intros _.
  unfold post_process.
  apply (answers_once_bind any); [apply settle_preview_only|]. intros p.
  unfold export_and_answer.
  apply (answers_once_bind any); [apply try_export_only|]. intros g.
  apply (answers_once_bind any); [apply try_export_only|]. intros o.
  apply answers_once_put.
Qed.

Lemma only_bind_lift {A B} (P : event -> Prop) (o : outcome A)
    (k : A -> St B) :
  (forall a, o = Returned a -> only P (k a)) -> only P (bind (lift o) k).
Proof.
  intros Hk s r s' H. unfold bind, lift in H. destruct o as [a | e].
  - exact (Hk a eq_refl _ _ _ H).
  - inversion H; subst. repeat split. exists []. now rewrite app_nil_r.
Qed.

Lemma ops_loop_only (items : list value) :
  forall acc, only any (ops_loop host items acc).
Proof.
  induction items as [|item items IH]; intros acc; cbn [ops_loop];
    [apply only_ret|].
  apply only_bind; [apply only_lift|]. intros name.
  apply only_bind; [apply only_lift|]. intros params.
  apply only_bind_lift. intros handler Hh.
  destruct handler as [[func flag]|]; [|apply IH].
  apply only_bind; [|intros; apply IH].
  apply only_catch; [|intros; apply only_ret].
  apply only_bind; [|intros; apply only_ret].
  destruct name as [ | | | |n| | ]; try discriminate.
  cbn [OP_MAP_get] in Hh. inversion Hh as [Ha].
  exact (handler_only n func flag params Ha).
Qed.

Lemma process_operations_only (ops : value) :
  only any (process_operations_main_thread host ops).
Proof.
  unfold process_operations_main_thread.
  apply only_bind; [apply only_lift|]. intros operations.
  apply only_bind; [apply only_lift|]. intros items. apply ops_loop_only.
Qed.

Lemma process_item_answers_once (item : value) :
  answers_once (process_item host item).
Proof.
  unfold process_item.
  apply (answers_once_bind any); [apply only_lift|]. intros _.
  apply (answers_once_bind any); [apply only_lift|]. intros ty.
  destruct (is_str ty "ops").
  - apply (answers_once_bind any); [apply only_lift|]. intros ops.
    apply (answers_once_bind any); [apply only_lift|]. intros operations.
    apply (answers_once_bind any); [apply only_lift|]. intros _.
    apply (answers_once_bind any); [apply process_operations_only|].
    intros res. apply answers_once_put.
  - apply (answers_once_bind any); [apply only_lift|]. intros ty'.
    destruct (is_str ty' "script"); [|apply answers_once_put].
    apply (answers_once_bind any); [apply only_lift|]. intros script.
    apply (answers_once_bind any); [apply only_lift|]. intros _.
    apply (answers_once_catch (run_script host script) script_error).
    apply run_script_answers_once.
Qed.

(** A tick with a task: the task is taken, the outer [try] runs, and its
    handler answers for what the body let through. *)
Lemma tick_task (item : value) (rest : list value) (s : state W) :
  task_queue s = item :: rest ->
  blender_timer host s =
    match process_item host item (taken s rest) with
    | (Returned _, s') => (Returned TICK, s')
    | (Raised e, s') =>
        (Returned TICK, answered s' (VDict [("error", VStr (message e))]))
    end.
Proof.
  intros Hq. unfold blender_timer. rewrite Hq. fold (taken s rest).
  unfold bind, catch.
  destruct (process_item host item (taken s rest)) as [[[] | e] s'];
    reflexivity.
Qed.

(** *** A tick on a script task, case by case *)

Lemma exports_follow_intro (s : state W) (rest : list value) (p : string)
    (s3 s' : state W) :
  task_queue s3 = rest ->
  response_queue s3 = response_queue s ->
  export_and_answer host p s3 = (Returned tt, s') ->
  blender_timer host s = (Returned TICK, s') ->
  exports_follow host s rest p s3.
Proof.
  intros T R He Hb. unfold exports_follow.
  rewrite export_and_answer_runs in He.
  destruct (time_int host (world s3)) as [tg w1]. cbv zeta in *.
  destruct (export_scene_gltf host (model_file tg ".gltf") w1) as [rg w2].
  destruct (time_int host w2) as [to w3]. cbv zeta in *.
  destruct (export_scene_obj host (model_file to ".obj") w3) as [ro w4].
  rewrite Hb. injection He as Hs'. rewrite <- Hs', T, R. reflexivity.
Qed.

Lemma export_and_answer_returns (p : string) (s3 : state W) :
  exists s', export_and_answer host p s3 = (Returned tt, s').
Proof.
  rewrite export_and_answer_runs.
  destruct (time_int host (world s3)) as [tg w1]. cbv zeta.
  destruct (export_scene_gltf host (model_file tg ".gltf") w1) as [rg w2].
  destruct (time_int host w2) as [to w3]. cbv zeta.
  destruct (export_scene_obj host (model_file to ".obj") w3) as [ro w4].
  eexists. reflexivity.
Qed.

Lemma script_tick_cases (text : string) (rest : list value) (s : state W) :
  bpy_available host = true ->
  task_queue s = script_task text :: rest ->
  let (r, w1) := py_exec host (VStr text) exec_env (world s) in
  match r with
  | Raised e =>
      blender_timer host s =
        (Returned TICK, answered (after_exec s rest text w1) (script_error e))
  | Returned _ =>
      exists found s2 looked,
        find_preview host (after_exec s rest text w1) = (Returned found, s2) /\
        task_queue s2 = rest /\
        response_queue s2 = response_queue s /\
        events s2 = (events (after_exec s rest text w1) ++ looked)%list /\
        Forall searches looked /\
        match found with
        | Some p => exports_follow host s rest p s2
        | None => synthesis_follows host s rest s2
        end
  end.
Proof.
  intros Hb Hq. pose proof (tick_script text rest s Hq) as Ht.
  rewrite (run_script_runs text (taken s rest) Hb) in Ht.
  cbn [taken world task_queue response_queue events] in Ht.
  destruct (py_exec host (VStr text) exec_env (world s)) as [[[] | e] w1].
  - cbv zeta in Ht. fold (after_exec s rest text w1) in Ht.
    destruct (post_process_runs (after_exec s rest text w1))
      as (found & s2 & looked & Hf & T & R & E & F & Hp).
    exists found, s2, looked. repeat split; try assumption.
    rewrite Hp in Ht. destruct found as [p|].
    + destruct (export_and_answer_returns p s2) as [s' He].
      rewrite He in Ht.
      exact (exports_follow_intro s rest p s2 s' T R He Ht).
    + unfold synthesis_follows. rewrite synthesize_preview_runs in Ht.
      destruct (time_int host (world s2)) as [t w2].
      destruct (render_still host (preview_file t) w2) as [[[] | e] w3].
      * fold (rendered_state s2 t w3) in Ht.
        destruct (export_and_answer_returns (preview_file t)
                    (rendered_state s2 t w3)) as [s' He].
        rewrite He in Ht.
        exact (exports_follow_intro s rest (preview_file t)
                 (rendered_state s2 t w3) s' T R He Ht).
      * exact Ht.
  - exact Ht.
Qed.

Lemma searches_not_exec (l : list event) :
  Forall searches l -> Forall not_exec l.
Proof.
  apply Forall_impl. intros [ ]; cbn; tauto.
Qed.

Lemma exports_follow_events (s : state W) (rest : list value) (p : string)
    (s3 : state W) :
  exports_follow host s rest p s3 ->
  exists s' made,
    blender_timer host s = (Returned TICK, s') /\
    events s' = (events s3 ++ made)%list /\ Forall not_exec made.
Proof.
  unfold exports_follow.
  destruct (time_int host (world s3)) as [tg w1].
  destruct (export_scene_gltf host (model_file tg ".gltf") w1) as [rg w2].
  destruct (time_int host w2) as [to w3].
  destruct (export_scene_obj host (model_file to ".obj") w3) as [ro w4].
  intros H. do 2 eexists. split; [exact H|]. split; [reflexivity|].
  repeat constructor.
Qed.

Lemma synthesis_follows_events (s : state W) (rest : list value)
    (s2 : state W) :
  synthesis_follows host s rest s2 ->
  exists s' made,
    blender_timer host s = (Returned TICK, s') /\
    events s' = (events s2 ++ made)%list /\ Forall not_exec made.
Proof.
  unfold synthesis_follows.
  destruct (time_int host (world s2)) as [t w1].
  destruct (render_still host (preview_file t) w1) as [[[] | e] w2]; intros H.
  - destruct (exports_follow_events _ _ _ _ H) as (s' & made & Hb & He & Hf).
    exists s', ([EvClock; EvRender (preview_file t)] ++ made)%list.
    split; [exact Hb|]. split.
    + rewrite He. cbn [rendered_state events]. now rewrite <- app_assoc.
    + apply Forall_app. split; [repeat constructor | exact Hf].
  - do 2 eexists. split; [exact H|]. split; [reflexivity|].
    repeat constructor.
Qed.

(** *** A tick on a batch, and the waiting loops *)

Lemma tick_ops (d : list (string * value)) (items rs : list value)
    (rest : list value) (s s1 : state W) :
  task_queue s = ops_task (VDict d) :: rest ->
  lookup "operations" d = Some (VList items) ->
  process_operations_main_thread host (VDict d) (taken s rest)
    = (Returned rs, s1) ->
  blender_timer host s = (Returned TICK, answered s1 (VList rs)).
Proof.
  intros Hq Hd Hp.
  rewrite (tick_task (ops_task (VDict d)) rest s Hq).
  unfold process_item, ops_task, bind, lift. cbn [get lookup].
  change ("type" =? "type") with true. cbv iota.
  change (is_str (VStr "ops") "ops") with true. cbv iota.
  change ("type" =? "ops") with false. cbv iota.
  change ("ops" =? "ops") with true. cbv iota.
  cbv beta. cbn [get]. rewrite Hd. cbn [len]. rewrite Hp. reflexivity.
Qed.


End ExecutorFacts.

(** ** The timer with every ending of a script *)

Section EndingFacts.

Import Agent Bridge Endings.

Context {W : Type}.
Variable host : Host W.
Variable script_ends :
  value -> list (string * binding) -> W -> option (ending * W).

(** Every tick of the timer on scripts that end as [py_exec] tells
    returns the interval, takes the first task and puts one response. *)
Lemma tick_returns (s : state W) :
  exists s',
    Agent.blender_timer host s = (Returned TICK, s') /\
    (task_queue s = [] -> s' = s) /\
    (forall item rest,
        task_queue s = item :: rest ->
        task_queue s' = rest /\
        exists r, response_queue s' = (response_queue s ++ [r])%list).
Proof.
  destruct (task_queue s) as [|item rest] eqn:Hq.
  - exists s. unfold Agent.blender_timer. rewrite Hq.
    repeat split; discriminate.
  - pose proof (tick_task host item rest s Hq) as Ht.
    pose proof (process_item_answers_once host item (taken s rest)) as Ha.
    destruct (Agent.process_item host item (taken s rest)) as [[[] | e] s1].
    + exists s1. split; [exact Ht|]. split; [discriminate|].
      intros item' rest' Heq. inversion Heq; subst item' rest'. exact Ha.
    + eexists. split; [exact Ht|]. split; [discriminate|].
      intros item' rest' Heq. inversion Heq; subst item' rest'.
      destruct Ha as (T & R). split; [exact T|].
      eexists. cbn [answered response_queue]. now rewrite R.
Qed.

Lemma run_script_ordinary (script : value) (s : state W) :
  bpy_available host = false \/
  script_ends script exec_env (world s) = None ->
  Endings.run_script host script_ends script s
    = usual (Agent.run_script host script) s.
Proof.
  unfold Endings.run_script, Agent.run_script, and_then, usual, exec, bind,
    ret, raise.
  destruct (bpy_available host); intros [Hb | Hn]; try discriminate Hb;
    try reflexivity.
  rewrite Hn. unfold usual.
  destruct (outside (EvExec script exec_env) (py_exec host script exec_env) s)
    as [[[] | e] s1]; [|reflexivity].
  destruct (post_process host s1) as [o s2]. reflexivity.
Qed.

Lemma run_script_ends (script : value) (s : state W) (en : ending) (w1 : W) :
  bpy_available host = true ->
  script_ends script exec_env (world s) = Some (en, w1) ->
  Endings.run_script host script_ends script s
    = (match en with Garbled e2 => Mute e2 | Exits x => Left x end,
       left_at s script w1).
Proof.
  intros Hb He.
  unfold Endings.run_script, and_then, usual, exec, ret. rewrite Hb, He.
  destruct en; reflexivity.
Qed.

(** The inner [try] on each ending of the script. *)
Lemma inner_try (script : value) (s : state W) :
  handled (Endings.run_script host script_ends script)
      (fun e => usual (put_quietly (script_error e))) s
    = usual (catch (Agent.run_script host script)
               (fun e => put_quietly (script_error e))) s
  \/ exists en w1,
       bpy_available host = true /\
       script_ends script exec_env (world s) = Some (en, w1) /\
       handled (Endings.run_script host script_ends script)
           (fun e => usual (put_quietly (script_error e))) s
         = (match en with
            | Garbled e2 => Went (Raised e2)
            | Exits x => Left x
            end, left_at s script w1).
Proof.
  destruct (bpy_available host) eqn:Hb;
    [destruct (script_ends script exec_env (world s)) as [[en w1]|] eqn:He|].
  - right. exists en, w1. split; [reflexivity|]. split; [reflexivity|].
    unfold handled. rewrite (run_script_ends script s en w1 Hb He).
    destruct en; reflexivity.
  - left. unfold handled. rewrite (run_script_ordinary script s (or_intror He)).
    unfold usual, catch.
    destruct (Agent.run_script host script s) as [[[] | e] s1]; reflexivity.
  - left. unfold handled. rewrite (run_script_ordinary script s (or_introl Hb)).
    unfold usual, catch.
    destruct (Agent.run_script host script s) as [[[] | e] s1]; reflexivity.
Qed.

Lemma and_then_lift {A B} (o : outcome A) (k : A -> X B) (s : state W) :
  and_then (usual (lift o)) k s
    = match o with
      | Returned a => k a s
      | Raised e => (Went (Raised e), s)
      end.
Proof. destruct o; reflexivity. Qed.

Lemma usual_bind_lift {A B} (o : outcome A) (k : A -> @Agent.M W B)
    (s : state W) :
  usual (bind (lift o) k) s
    = match o with
      | Returned a => usual (k a) s
      | Raised e => (Went (Raised e), s)
      end.
Proof. destruct o; reflexivity. Qed.

(** The outer [try] body: as without the other endings, or left by the
    script that is executed. *)
Lemma process_item_cases (item : value) (s : state W) :
  Endings.process_item host script_ends item s
    = usual (Agent.process_item host item) s
  \/ exists script en w1,
       get item "script" (VStr "") = Returned script /\
       bpy_available host = true /\
       script_ends script exec_env (world s) = Some (en, w1) /\
       Endings.process_item host script_ends item s
         = (match en with
            | Garbled e2 => Went (Raised e2)
            | Exits x => Left x
            end, left_at s script w1).
Proof.
  unfold Endings.process_item, Agent.process_item.
  rewrite and_then_lift, usual_bind_lift.
  destruct (get item "type" VNone) as [ty | e]; [|left; reflexivity].
  rewrite and_then_lift, usual_bind_lift.
  destruct (is_str ty "ops"); [left; reflexivity|].
  rewrite and_then_lift, usual_bind_lift.
  destruct (is_str ty "script"); [|left; reflexivity].
  rewrite and_then_lift, usual_bind_lift.
  destruct (get item "script" (VStr "")) as [script | e]; [|left; reflexivity].
  rewrite and_then_lift, usual_bind_lift.
  destruct (len script) as [n | e]; [|left; reflexivity].
  destruct (inner_try script s) as [H | (en & w1 & Hb & He & H)].
  - left. exact H.
  - right. exists script, en, w1. repeat split; assumption.
Qed.


(** Where the script of the first task ends as [py_exec] tells, the
    timer is the one of [Agent]. *)
Lemma timer_agrees (s : state W) :
  (forall script,
      bpy_available host = false \/
      script_ends script exec_env (world s) = None) ->
  Endings.blender_timer host script_ends s
    = (Rescheduled TICK, snd (Agent.blender_timer host s)) /\
  fst (Agent.blender_timer host s) = Returned TICK.
Proof.
  intros Hord. destruct (tick_returns s) as (s' & Ht & _).
  rewrite Ht. split; [|reflexivity]. cbn [snd]. revert Ht.
  unfold Endings.blender_timer, Agent.blender_timer.
  destruct (task_queue s) as [|item rest]; [now intros [= <-]|].
  fold (taken s rest). unfold handled, bind, catch, ret.
  destruct (process_item_cases item (taken s rest))
    as [H | (script & en & w1 & _ & Hb & He & _)].
  - rewrite H. unfold usual.
    destruct (Agent.process_item host item (taken s rest)) as [[[] | e] s1].
    + now intros [= <-].
    + cbn. now intros [= <-].
  - destruct (Hord script) as [Hf | Hn]; [congruence|].
    cbn [taken world] in He. congruence.
Qed.




End EndingFacts.

(** *** Claims about the executor *)

Section ExecutorClaims.

Import Agent Bridge.

Context {W : Type}.
Variable host : Host W.
Variable script_ends :
  value -> list (string * binding) -> W -> option (Endings.ending * W).


(** C5 (as amended).  The script of a task is executed once, with the
    namespace [exec_env] as its globals: the four names [bpy], [os],
    [OUTPUT_DIR] and [render_and_save], bound to the Blender module, the
    [os] module, the output directory and the render helper.  No name of
    the registry and no function behind it is among them. *)
Theorem script_namespace :
  forall text rest s,
    bpy_available host = true ->
    task_queue s = script_task text :: rest ->
    (exists s' later,
        blender_timer host s = (Returned TICK, s') /\
        events s' = (events s ++ EvExec (VStr text) exec_env :: later)%list /\
        Forall not_exec later) /\
    map fst exec_env = ["bpy"; "os"; "OUTPUT_DIR"; "render_and_save"] /\
    map snd exec_env = [BpyModule; OsModule; StrConst OUTPUT_DIR; RenderAndSave] /\
    (forall name,
        In name (registry_names host) \/ In name (registry_functions host) ->
        assoc name exec_env = None).
Proof.
  intros text rest s Hb Hq. split; [|split; [reflexivity | split; [reflexivity|]]].
  - pose proof (script_tick_cases host text rest s Hb Hq) as H.
    destruct (py_exec host (VStr text) exec_env (world s)) as [[[] | e] w1].
    + destruct H as (found & s2 & looked & _ & _ & _ & E & F & H).
      assert (Hmade : exists s' made,
                 blender_timer host s = (Returned TICK, s') /\
                 events s' = (events s2 ++ made)%list /\ Forall not_exec made).
      { destruct found as [p|];
          [exact (exports_follow_events host _ _ _ _ H)
          | exact (synthesis_follows_events host _ _ _ H)]. }
      destruct Hmade as (s' & made & Ht & Em & Fm).
      exists s', (looked ++ made)%list. split; [exact Ht|]. split.
      * rewrite Em, E. cbn [after_exec events].
        rewrite <- !app_assoc. reflexivity.
      * apply Forall_app. split; [now apply searches_not_exec | exact Fm].
    + eexists. exists []. split; [exact H|]. split; [reflexivity | constructor].
  - intros name [Hin | Hin]; cbn in Hin;
      repeat (destruct Hin as [<- | Hin]; [reflexivity|]); destruct Hin.
Qed.





End ExecutorClaims.

(** [add_box] is a name of the registry and is not bound in the namespace
    of a script. *)
Lemma namespace_lacks_registry :
  ~ (forall (W : Type) (host : Agent.Host W) name,
        In name (Bridge.registry_names host) \/
        In name (Bridge.registry_functions host) ->
        exists b, Agent.assoc name Agent.exec_env = Some b).
Proof.
  intros H.
  destruct (H Z (Bridge.sample_host Bridge.ok (Returned []) Bridge.ok
                   Bridge.ok Bridge.ok) "add_box") as [b Hb].
  - left. cbn. tauto.
  - discriminate Hb.
Qed.




Section ExecutorWitnesses.

Import Agent Bridge.


Lemma script_namespace_witness :
  let host := sample_host ok (Returned []) ok ok ok in
  (exists s' later,
      blender_timer host (awaiting [script_task "import bpy"])
        = (Returned TICK, s') /\
      events s' = ([] ++ EvExec (VStr "import bpy") exec_env :: later)%list /\
      Forall not_exec later) /\
  assoc "add_box" exec_env = None.
Proof.
  intros host.
  destruct (script_namespace host "import bpy" []
              (awaiting [script_task "import bpy"]) eq_refl eq_refl)
    as (H1 & _ & _ & H4).
  split; [exact H1|]. apply H4. left. cbn. tauto.
Defined.





End ExecutorWitnesses.

(** ** Runs of the timer *)

Section TimerRuns.

Import Agent Bridge.

Context {W : Type}.
Variable host : Host W.
Variable script_ends :
  value -> list (string * binding) -> W -> option (Endings.ending * W).


End TimerRuns.

(** ** More on the agent *)

Section AgentCoverage.

Import Agent Bridge Runs.

Context {W : Type}.
Variable host : Host W.

(** *** The registry *)


(** Without [bpy] every primitive that takes parameters raises its
    [bpy not available] error on a mapping, and makes no call.
    [export_obj] joins the file name to the output directory before it
    looks for [bpy]: it raises that error for a file name that is a
    string or is left out, and the [TypeError] of [os.path.join] for any
    other. *)
Theorem primitives_need_bpy :
  forall name fname body flag d s,
    In (name, (Fun1 fname body, flag)) (OP_MAP host) ->
    bpy_available host = false ->
    (fname <> "export_obj" ->
     body (VDict d) s =
       (Raised (Exception
                  ("bpy not available: " ++ fname ++ " must run inside Blender")),
        s)) /\
    (fname = "export_obj" ->
     body (VDict d) s =
       (Raised
          match lookup "filename" d with
          | Some (VStr _) | None =>
              Exception
                "bpy not available: export_obj must run inside Blender"
          | Some v =>
              Exception
                ("join() argument must be str, bytes, or os.PathLike object, not '"
                   ++ type_name v ++ "'")
          end,
        s)).
Proof.
  intros name fname body flag d s Hin Hb. cbn in Hin.
  repeat (destruct Hin as [Heq | Hin];
          [ inversion Heq; subst; split; intros Hn;
            first
              [ discriminate Hn
              | now destruct Hn
              | unfold add_box, add_cylinder, translate, rotate, boolean_diff,
                  require_bpy, bind, lift, raise;
                cbn [get]; rewrite Hb; reflexivity
              | idtac ]
          | ]).
  - unfold export_obj, require_bpy, bind, lift, raise. cbn [get].
    destruct (lookup "filename" d) as [[ | | | | | | ] | ];
      cbn [join_output]; try reflexivity; rewrite Hb; reflexivity.
  - destruct Hin.
Qed.

(** Parameters that are not a mapping make every such primitive raise
    the [AttributeError] of [params.get] before anything else. *)
Theorem primitives_need_mapping :
  forall name fname body flag params s,
    In (name, (Fun1 fname body, flag)) (OP_MAP host) ->
    (forall d, params <> VDict d) ->
    body params s = (Raised (no_get params), s).
Proof.
  intros name fname body flag params s Hin Hnd.
  assert (Hget : forall k dflt, get params k dflt = Raised (no_get params)).
  { intros k dflt. destruct params; try reflexivity. now destruct (Hnd d). }
  cbn in Hin.
  repeat (destruct Hin as [Heq | Hin];
          [ inversion Heq; subst;
            unfold add_box, add_cylinder, translate, rotate, boolean_diff,
              export_obj, bind, lift;
            rewrite Hget; reflexivity | ]).
  destruct Hin.
Qed.

(** *** Batches out of shape *)

Lemma tick_ops_raised (d : list (string * value)) (items : list value)
    (e : exn) (rest : list value) (s s1 : state W) :
  task_queue s = ops_task (VDict d) :: rest ->
  lookup "operations" d = Some (VList items) ->
  process_operations_main_thread host (VDict d) (taken s rest)
    = (Raised e, s1) ->
  blender_timer host s =
    (Returned TICK, answered s1 (VDict [("error", VStr (message e))])).
Proof.
  intros Hq Hd Hp.
  rewrite (tick_task host (ops_task (VDict d)) rest s Hq).
  unfold process_item, ops_task, bind, lift. cbn [get lookup].
  change ("type" =? "type") with true. cbv iota.
  change (is_str (VStr "ops") "ops") with true. cbv iota.
  change ("type" =? "ops") with false. cbv iota.
  change ("ops" =? "ops") with true. cbv iota.
  cbv beta. cbn [get]. rewrite Hd. cbn [len]. rewrite Hp. reflexivity.
Qed.

Lemma ops_loop_aborts (before : list value) :
  forall (calls : list (string * value)) (acc : list value) (s : state W)
         (bad : value) (after : list value),
    map as_call before = map Some calls ->
    (forall d, bad <> VDict d) ->
    exists rs s1,
      ops_loop host (before ++ bad :: after) acc s = (Raised (no_get bad), s1) /\
      batch_results host s calls rs s1.
Proof.
  induction before as [|item before IH]; intros calls acc s bad after Hc Hbad.
  - destruct calls; [|discriminate]. exists [], s. split; [|constructor].
    cbn [app ops_loop]. unfold bind, lift.
    destruct bad; try reflexivity. now destruct (Hbad d).
  - destruct calls as [|[name params] calls]; [discriminate|].
    cbn [map] in Hc. inversion Hc as [[Hitem Hrest]].
    destruct (as_call_inv item name params Hitem) as [Hop Hpar].
    cbn [app ops_loop]. unfold bind, lift. rewrite Hop, Hpar.
    cbn [OP_MAP_get].
    destruct (assoc name (OP_MAP host)) as [[func flag]|] eqn:Ha.
    + unfold catch, ret.
      destruct (call1 func params s) as [[res | e] s1] eqn:Hcall.
      * destruct (IH calls (acc ++ [op_ok (VStr name) res])%list s1 bad after
                    Hrest Hbad) as (rs & s' & Hl & Hb).
        exists (op_ok (VStr name) res :: rs), s'. split; [exact Hl|].
        eapply results_ok; eassumption.
      * destruct (IH calls (acc ++ [op_error (VStr name) e])%list s1 bad after
                    Hrest Hbad) as (rs & s' & Hl & Hb).
        exists (op_error (VStr name) e :: rs), s'. split; [exact Hl|].
        eapply results_error; eassumption.
    + destruct (IH calls (acc ++ [op_unsupported (VStr name)])%list s bad
                  after Hrest Hbad) as (rs & s' & Hl & Hb).
      exists (op_unsupported (VStr name) :: rs), s'. split; [exact Hl|].
      now apply results_unsupported.
Qed.

(** A batch with no [operations], or an empty list of them, is answered
    with the empty list of results and nothing is called. *)
Theorem empty_batch_answers_empty :
  forall d rest s,
    task_queue s = ops_task (VDict d) :: rest ->
    lookup "operations" d = None \/ lookup "operations" d = Some (VList []) ->
    blender_timer host s = (Returned TICK, answered (taken s rest) (VList [])).
Proof.
  intros d rest s Hq Hd.
  rewrite (tick_task host (ops_task (VDict d)) rest s Hq).
  unfold process_item, ops_task, bind, lift. cbn [get lookup].
  change ("type" =? "type") with true. cbv iota.
  change (is_str (VStr "ops") "ops") with true. cbv iota.
  change ("type" =? "ops") with false. cbv iota.
  change ("ops" =? "ops") with true. cbv iota. cbv beta.
  unfold process_operations_main_thread, bind, lift. cbn [get].
  destruct Hd as [-> | ->]; reflexivity.
Qed.

(** An entry that is not a mapping aborts the whole batch: the entries
    before it have been carried out, but their results are dropped and
    the answer is the single [{"error": ...}] of the outer handler; the
    entries after it are not looked at. *)
Theorem malformed_entry_aborts_batch :
  forall d before bad after calls rest s,
    task_queue s = ops_task (VDict d) :: rest ->
    lookup "operations" d = Some (VList (before ++ bad :: after)) ->
    map as_call before = map Some calls ->
    (forall dd, bad <> VDict dd) ->
    exists rs s1,
      batch_results host (taken s rest) calls rs s1 /\
      length rs = length before /\
      blender_timer host s =
        (Returned TICK,
         answered s1 (VDict [("error", VStr (message (no_get bad)))])).
Proof.
  intros d before bad after calls rest s Hq Hd Hc Hbad.
  destruct (ops_loop_aborts before calls [] (taken s rest) bad after Hc Hbad)
    as (rs & s1 & Hl & Hb).
  exists rs, s1. split; [exact Hb|]. split.
  - rewrite (batch_results_length host _ _ _ _ Hb).
    rewrite <- (length_map Some calls), <- Hc. apply length_map.
  - apply (tick_ops_raised d (before ++ bad :: after) _ rest s s1 Hq Hd).
    unfold process_operations_main_thread, bind, lift. cbn [get].
    rewrite Hd. cbn [iterate]. exact Hl.
Qed.

(** A task whose type is neither ["ops"] nor ["script"] is answered
    [{"error": "unknown item type"}] and nothing is called. *)
Theorem unknown_task_type_answered :
  forall d rest s,
    task_queue s = VDict d :: rest ->
    lookup "type" d <> Some (VStr "ops") ->
    lookup "type" d <> Some (VStr "script") ->
    blender_timer host s =
      (Returned TICK,
       answered (taken s rest) (VDict [("error", VStr "unknown item type")])).
Proof.
  intros d rest s Hq Hops Hscript.
  rewrite (tick_task host (VDict d) rest s Hq).
  unfold process_item, bind, lift. cbn [get].
  assert (Hstr : forall k,
             lookup "type" d <> Some (VStr k) ->
             is_str match lookup "type" d with
                    | Some v => v
                    | None => VNone
                    end k = false).
  { intros k Hk. destruct (lookup "type" d) as [[ | | | |x| | ]|];
      try reflexivity.
    cbn [is_str]. apply String.eqb_neq. congruence. }
  rewrite (Hstr "ops" Hops), (Hstr "script" Hscript). reflexivity.
Qed.

(** *** Tasks in order *)

Lemma tick_step (s : state W) :
  (task_queue s = [] -> snd (blender_timer host s) = s) /\
  (forall item rest,
      task_queue s = item :: rest ->
      task_queue (snd (blender_timer host s)) = rest /\
      exists r,
        response_queue (snd (blender_timer host s))
          = (response_queue s ++ [r])%list).
Proof.
  split.
  - intros Hq. unfold blender_timer. now rewrite Hq.
  - intros item rest Hq. rewrite (tick_task host item rest s Hq).
    pose proof (process_item_answers_once host item (taken s rest)) as Ha.
    destruct (process_item host item (taken s rest)) as [[[] | e] s1].
    + exact Ha.
    + destruct Ha as [T R]. cbn. split; [exact T|].
      eexists. now rewrite R.
Qed.

Lemma ticks_queues :
  forall k s,
    task_queue (ticks host k s) = skipn k (task_queue s) /\
    exists put,
      response_queue (ticks host k s) = (response_queue s ++ put)%list /\
      length put = Nat.min k (length (task_queue s)).
Proof.
  induction k as [|k IH]; intros s.
  - split; [reflexivity|]. exists []. now rewrite app_nil_r.
  - cbn [ticks]. destruct (IH (snd (blender_timer host s))) as (T & put & R & L).
    destruct (tick_step s) as [Hempty Htask].
    destruct (task_queue s) as [|item rest] eqn:Hq.
    + rewrite (Hempty eq_refl) in *. rewrite Hq in *.
      split; [rewrite T; now destruct k|].
      exists put. split; [exact R|]. rewrite L. cbn. now rewrite Nat.min_0_r.
    + destruct (Htask item rest eq_refl) as (T1 & r & R1).
      rewrite T1 in *. split; [exact T|].
      exists (r :: put). split.
      * rewrite R, R1, <- app_assoc. reflexivity.
      * cbn [length Nat.min]. now rewrite L.
Qed.

(** *** The waiting loops *)

Lemma before_limit (limit t start : Q) :
  (t - start < limit)%Q -> Qle_bool limit (t - start) = false.
Proof.
  intros H. destruct (Qle_bool limit (t - start)) eqn:E; [|reflexivity].
  apply Qle_bool_iff in E. now apply Qlt_not_le in H.
Qed.

(** What a waiting loop answers: the timeout error at the first reading
    of the clock that has reached the limit, or the response at the head
    of the queue at the first poll that finds one; every poll before has
    found the queue empty with the limit not reached.  It never raises. *)
Theorem wait_response_answers :
  forall limit start turns o,
    wait_response limit start turns = Some o ->
    exists before t queue later,
      turns = (before ++ (t, queue) :: later)%list /\
      Forall (fun turn => (fst turn - start < limit)%Q /\ snd turn = [])
        before /\
      ((limit <= t - start)%Q /\ o = Returned timeout_error \/
       (t - start < limit)%Q /\
       exists r others, queue = r :: others /\ o = Returned r).
Proof.
  intros limit start turns o.
  induction turns as [|[t queue] later IH]; cbn [wait_response];
    [discriminate|].
  destruct (Qle_bool limit (t - start)) eqn:E.
  - intros H. inversion H; subst. exists [], t, queue, later.
    split; [reflexivity|]. split; [constructor|]. left.
    split; [now apply Qle_bool_iff | reflexivity].
  - assert (Hlt : (t - start < limit)%Q).
    { apply Qnot_le_lt. intros Hc. apply Qle_bool_iff in Hc. congruence. }
    destruct queue as [|r others]; cbn [get_nowait].
    + intros H. destruct (IH H) as (before & t' & q' & later' & -> & F & Hc).
      exists ((t, []) :: before), t', q', later'.
      split; [reflexivity|]. split; [|exact Hc].
      constructor; [now split | exact F].
    + intros H. inversion H; subst. exists [], t, (r :: others), later.
      split; [reflexivity|]. split; [constructor|]. right.
      split; [exact Hlt|]. now exists r, others.
Qed.

(** On an agent with nothing queued, a batch put by [process_operations]
    and taken by the next tick comes back to the caller at its next poll
    before the limit: the caller's answer is the list of results of its
    own batch. *)
Theorem idle_bridge_round_trip :
  forall d items calls start t s,
    task_queue s = [] ->
    response_queue s = [] ->
    lookup "operations" d = Some (VList items) ->
    map as_call items = map Some calls ->
    (t - start < OPS_TIMEOUT)%Q ->
    let s1 := snd (enqueue_ops (VDict d) start [] s) in
    let s2 := snd (blender_timer host s1) in
    exists results s',
      batch_results host (taken s1 []) calls results s' /\
      task_queue s2 = [] /\
      wait_response OPS_TIMEOUT start [(t, response_queue s2)]
        = Some (Returned (VList results)).
Proof.
  intros d items calls start t s Hq Hr Hd Hc Ht s1 s2.
  assert (Hq1 : task_queue s1 = [ops_task (VDict d)]).
  { subst s1. unfold enqueue_ops. cbn. now rewrite Hq. }
  destruct (process_operations_results host d items calls (taken s1 []) Hd Hc)
    as (results & s' & Hp & Hb).
  pose proof (tick_ops host d items results [] s1 s' Hq1 Hd Hp) as Htick.
  exists results, s'. split; [exact Hb|].
  destruct (batch_results_queues host _ _ _ _ Hb) as [T R].
  subst s2. rewrite Htick. cbn [snd answered task_queue response_queue].
  split; [exact T|]. rewrite R. cbn [taken response_queue].
  assert (Hr1 : response_queue s1 = []).
  { subst s1. unfold enqueue_ops. cbn. exact Hr. }
  rewrite Hr1. cbn [app wait_response]. rewrite (before_limit _ _ _ Ht).
  reflexivity.
Qed.

(** Responses are taken by position, not by caller: with a response
    already queued (left by a call that gave up), a new call is answered
    with that response at its first poll before the limit, however many
    ticks the agent has run meanwhile. *)
Theorem stale_response_taken_first :
  forall stale pending ops start t k s,
    response_queue s = stale :: pending ->
    (t - start < OPS_TIMEOUT)%Q ->
    wait_response OPS_TIMEOUT start
      [(t, response_queue (ticks host k (snd (enqueue_ops ops start [] s))))]
      = Some (Returned stale).
Proof.
  intros stale pending ops start t k s Hr Ht.
  destruct (ticks_queues k (snd (enqueue_ops ops start [] s)))
    as (_ & put & R & _).
  rewrite R. unfold enqueue_ops. cbn [snd task_put response_queue].
  rewrite Hr. cbn [app wait_response]. rewrite (before_limit _ _ _ Ht).
  reflexivity.
Qed.

End AgentCoverage.

(** *** The choice of a preview, and file names *)

Section PreviewChoice.

Import Agent Bridge Runs.

Lemma sort_desc_nil (l : list (Q * string)) : sort_desc l = [] -> l = [].
Proof.
  destruct l as [|x l]; [reflexivity|]. intros H.
  assert (Hin : In x (sort_desc (x :: l))) by (apply sort_desc_in; now left).
  rewrite H in Hin. destruct Hin.
Qed.

Lemma insert_desc_perm (x : Q * string) (l : list (Q * string)) :
  Permutation (insert_desc x l) (x :: l).
Proof.
  induction l as [|y l IH]; cbn [insert_desc]; [reflexivity|].
  destruct (Qle_bool (fst y) (fst x)); [reflexivity|].
  rewrite IH. apply perm_swap.
Qed.

Lemma insert_desc_sorted (x : Q * string) (l : list (Q * string)) :
  StronglySorted (fun a b => (fst b <= fst a)%Q) l ->
  StronglySorted (fun a b => (fst b <= fst a)%Q) (insert_desc x l).
Proof.
  induction 1 as [|y l Hs IH Hy]; cbn [insert_desc].
  - constructor; constructor.
  - destruct (Qle_bool (fst y) (fst x)) eqn:E.
    + apply Qle_bool_iff in E. constructor; [now constructor|].
      constructor; [exact E|].
      eapply Forall_impl; [|exact Hy]. intros z Hz. cbn in Hz.
      now apply Qle_trans with (fst y).
    + constructor; [exact IH|].
      assert (Hx : (fst x <= fst y)%Q).
      { apply Qlt_le_weak, Qnot_le_lt. intros Hc.
        apply Qle_bool_iff in Hc. congruence. }
      apply (Permutation_Forall (Permutation_sym (insert_desc_perm x l))).
      now constructor.
Qed.

(** [sort(key=mtime, reverse=True)] as the agent uses it rearranges the
    files it is given, newest first. *)
Theorem sort_desc_sorts :
  forall l,
    Permutation (sort_desc l) l /\
    StronglySorted (fun a b => (fst b <= fst a)%Q) (sort_desc l).
Proof.
  induction l as [|x l [IHp IHs]]; [split; constructor|].
  unfold sort_desc in *. cbn [fold_right]. split.
  - rewrite insert_desc_perm. now constructor.
  - now apply insert_desc_sorted.
Qed.

(** The file the agent picks ([preview_files[0]] after the sort) is the
    first one of the listing among the latest: the files listed before it
    are strictly older, the files after it are not newer. *)
Theorem latest_preview_first_listed :
  forall l t f rest,
    sort_desc l = (t, f) :: rest ->
    exists pre post,
      l = (pre ++ (t, f) :: post)%list /\
      Forall (fun x => (fst x < t)%Q) pre /\
      Forall (fun x => (fst x <= t)%Q) post.
Proof.
  induction l as [|[tx fx] l IH]; intros t f rest Hs; [discriminate|].
  unfold sort_desc in Hs. cbn [fold_right] in Hs. fold (sort_desc l) in Hs.
  destruct (sort_desc l) as [|[th fh] sorted] eqn:Hl.
  - apply sort_desc_nil in Hl. subst l. cbn in Hs. inversion Hs; subst.
    exists [], []. repeat split; constructor.
  - destruct (IH th fh sorted eq_refl) as (pre & post & -> & Hpre & Hpost).
    cbn [insert_desc fst] in Hs. destruct (Qle_bool th tx) eqn:E.
    + inversion Hs; subst. apply Qle_bool_iff in E.
      exists [], (pre ++ (th, fh) :: post)%list. split; [reflexivity|].
      split; [constructor|]. apply Forall_app. split.
      * eapply Forall_impl; [|exact Hpre]. intros z Hz. cbn in Hz.
        apply Qlt_le_weak. now apply Qlt_le_trans with th.
      * constructor; [exact E|].
        eapply Forall_impl; [|exact Hpost]. intros z Hz. cbn in Hz.
        now apply Qle_trans with th.
    + inversion Hs; subst. exists ((tx, fx) :: pre), post.
      split; [reflexivity|]. split; [|exact Hpost].
      constructor; [|exact Hpre]. cbn. apply Qnot_le_lt. intros Hc.
      apply Qle_bool_iff in Hc. congruence.
Qed.

(** *** File names *)

Lemma split_nonempty (sep : ascii) (s : string) : split sep s <> [].
Proof.
  destruct s as [|c s]; cbn [split]; [discriminate|].
  destruct (Ascii.eqb c sep); [discriminate|].
  destruct (split sep s); discriminate.
Qed.

(** [(a + sep + b).split(sep) == a.split(sep) + b.split(sep)] *)
Lemma split_app (sep : ascii) (a b : string) :
  split sep (a ++ String sep b) = (split sep a ++ split sep b)%list.
Proof.
  induction a as [|c a IH]; cbn [append split].
  - now rewrite Ascii.eqb_refl.
  - destruct (Ascii.eqb c sep); [now rewrite IH|].
    rewrite IH. pose proof (split_nonempty sep a) as Hne.
    destruct (split sep a) as [|w ws]; [contradiction | reflexivity].
Qed.

Lemma split_no_slash (f : string) : no_slash f -> split "/" f = [f].
Proof.
  induction f as [|c f IH]; cbn [no_slash split]; [reflexivity|].
  intros [Hc Hf]. apply Ascii.eqb_neq in Hc. rewrite Hc, (IH Hf). reflexivity.
Qed.

Lemma no_slash_start (f : string) : no_slash f -> startswith f "/" = false.
Proof.
  destruct f as [|c f]; [reflexivity|]. cbn [no_slash]. intros [Hc _].
  unfold startswith. cbn [String.prefix].
  destruct (ascii_dec "/" c) as [<- | _]; [contradiction | reflexivity].
Qed.

Lemma no_slash_app (a b : string) :
  no_slash a -> no_slash b -> no_slash (a ++ b).
Proof.
  induction a as [|c a IH]; cbn [append no_slash]; [tauto|].
  intros [Hc Ha] Hb. split; [exact Hc | now apply IH].
Qed.

Lemma no_slash_uint (d : Decimal.uint) :
  no_slash (NilEmpty.string_of_uint d).
Proof.
  induction d; cbn [NilEmpty.string_of_uint no_slash];
    try exact I; (split; [discriminate | assumption]).
Qed.

Lemma no_slash_str_of_Z (z : Z) : no_slash (str_of_Z z).
Proof.
  unfold str_of_Z, NilZero.string_of_int.
  assert (Hu : forall d, no_slash (NilZero.string_of_uint d)).
  { intros d. unfold NilZero.string_of_uint.
    destruct d; try apply no_slash_uint. cbn. split; [discriminate | exact I]. }
  destruct (Z.to_int z); [apply Hu|].
  cbn [no_slash]. split; [discriminate | apply Hu].
Qed.

Lemma last_split_join (a f : string) :
  no_slash f -> last (split "/" (path_join a f)) "" = f.
Proof.
  intros Hf. unfold path_join. rewrite (no_slash_start f Hf).
  assert (Hsep : forall p, last (split "/" (p ++ "/" ++ f)) "" = f).
  { intros p. change ("/" ++ f) with (String "/" f).
    rewrite split_app, (split_no_slash f Hf). apply last_last. }
  destruct (a =? "") eqn:Ea; cbn [orb].
  - apply String.eqb_eq in Ea. subst a. cbn [append].
    now rewrite (split_no_slash f Hf).
  - destruct (endswith a "/") eqn:Ee; [|apply Hsep].
    destruct (endswith_inv _ _ Ee) as [p ->].
    rewrite append_assoc. apply Hsep.
Qed.

(** [os.path.basename(os.path.join(d, f)) == f] for a name [f] without a
    separator, on the agent and on the gateway; so the preview the agent
    synthesizes and the exports it reports are known to the gateway by
    the bare names [preview_<t>.png] and [model_<t><ext>]. *)
Theorem basename_of_joined_path :
  forall dir f,
    no_slash f ->
    basename (path_join dir f) = f /\
    os_path_basename (VStr (path_join dir f)) = Returned f /\
    forall t ext,
      no_slash ext ->
      basename (model_file t ext) = "model_" ++ str_of_Z t ++ ext /\
      os_path_basename (VStr (preview_file t))
        = Returned ("preview_" ++ str_of_Z t ++ ".png").
Proof.
  intros dir f Hf. unfold basename, os_path_basename.
  rewrite (last_split_join dir f Hf). repeat split.
  - unfold model_file. apply last_split_join.
    apply (no_slash_app "model_"); [cbn; repeat split; discriminate|].
    apply no_slash_app; [apply no_slash_str_of_Z | exact H].
  - unfold preview_file. f_equal. apply last_split_join.
    apply (no_slash_app "preview_"); [cbn; repeat split; discriminate|].
    apply no_slash_app; [apply no_slash_str_of_Z|].
    cbn; repeat split; discriminate.
Qed.

End PreviewChoice.

(** ** More on the gateway *)

Section GatewayCoverage.

Import Routes.

Context {W : Type}.
Variable out : Outside W.

Ltac look :=
  repeat rewrite lookup_store_other by discriminate;
  try apply lookup_store_same; try reflexivity.

(** Whatever the sanitizer, the agent and the shape of its answer,
    [generate] from the sanitizer on returns an answer and leaves the
    tracker settled, never at ["running"]: status ["done"] with code 200,
    or status ["error"] with code 400 (refused, nothing sent) or 500
    (sent once, and failed).  Unless the code is 200 the file name and
    the exported files of the last success stay in the tracker. *)
Theorem submit_settles :
  forall model_text s,
    exists body code s',
      submit out model_text s = (Returned (body, code), s') /\
      (code = 200 /\
       lookup "status" (LATEST_PREVIEW s') = Some (VStr "done") /\
       lookup "error" (LATEST_PREVIEW s') = Some VNone /\
       sent s' = (sent s ++ [model_text])%list
       \/
       lookup "status" (LATEST_PREVIEW s') = Some (VStr "error") /\
       lookup "filename" (LATEST_PREVIEW s')
         = lookup "filename" (LATEST_PREVIEW s) /\
       lookup "exported_files" (LATEST_PREVIEW s')
         = lookup "exported_files" (LATEST_PREVIEW s) /\
       (code = 400 /\ fst (sanitize_script out model_text) = false /\
        sent s' = sent s
        \/
        code = 500 /\ fst (sanitize_script out model_text) = true /\
        sent s' = (sent s ++ [model_text])%list)).
Proof.
  intros model_text s. unfold submit.
  destruct (sanitize_script out model_text) as [[|] reason]; cbn [negb fst].
  - unfold bind, catch, now, outside, update, rpc_process_script, ret,
      mark_error. cbn.
    destruct (time_int out (world s)) as [t0 w0]. cbn.
    destruct (process_script out model_text w0) as [[resp | e] w1]; cbn.
    + assert (Hunexpected :
        exists body code s',
          unexpected out resp
            {| world := w1;
               LATEST_PREVIEW :=
                 store "last_updated" (VInt t0)
                   (store "error" VNone
                      (store "status" (VStr "running") (LATEST_PREVIEW s)));
               sent := (sent s ++ [model_text])%list |}
            = (Returned (body, code), s') /\
          code = 500 /\
          lookup "status" (LATEST_PREVIEW s') = Some (VStr "error") /\
          lookup "filename" (LATEST_PREVIEW s')
            = lookup "filename" (LATEST_PREVIEW s) /\
          lookup "exported_files" (LATEST_PREVIEW s')
            = lookup "exported_files" (LATEST_PREVIEW s) /\
          sent s' = (sent s ++ [model_text])%list).
      { unfold unexpected, mark_error, bind, now, outside, update, ret. cbn.
        destruct (time_int out w1) as [t1 w2]. cbn.
        do 3 eexists. split; [reflexivity|]. cbn. repeat split; look. }
      destruct resp as [ | | | | | |d];
        try (destruct Hunexpected as (body & code & s' & H1 & H2 & H3 & H4 & H5 & H6);
             rewrite H1; exists body, code, s'; split; [reflexivity|];
             right; repeat split; try assumption; right; now repeat split).
      destruct (is_ok d) eqn:Hok.
      * destruct (match lookup "preview" d with
                  | Some v => v
                  | None => VNone
                  end) as [ | | | |p| | ] eqn:Hp; cbn [os_path_basename lift];
          unfold bind, catch, now, outside, update, ret, mark_error, lift; cbn;
          destruct (time_int out w1) as [t1 w2]; cbn;
          do 3 eexists; (split; [reflexivity|]); cbn;
          try (right; repeat split; look; right; now repeat split).
        left. repeat split; look.
      * destruct Hunexpected as (body & code & s' & H1 & H2 & H3 & H4 & H5 & H6).
        rewrite H1. exists body, code, s'. split; [reflexivity|].
        right. repeat split; try assumption. right. now repeat split.
    + unfold bind, catch, now, outside, update, ret, mark_error, lift. cbn.
      destruct (time_int out w1) as [t1 w2]. cbn.
      do 3 eexists. split; [reflexivity|]. cbn.
      right. repeat split; look. right. now repeat split.
  - unfold bind, now, outside, update, ret. cbn.
    destruct (time_int out (world s)) as [t0 w0]. cbn.
    do 3 eexists. split; [reflexivity|]. cbn.
    right. repeat split; look. left. now repeat split.
Qed.

(** An accepted script the agent answers with status ["ok"] and a
    preview path: the answer is 200 and names the preview by its base
    name, which is also the file name the tracker holds, with the
    exported files as the agent reported them ([[]] when it reported
    none).  For a path the agent made by joining its output directory
    and a bare name, that name is the bare name. *)
Theorem accepted_script_done :
  forall model_text reason d p s w1,
    sanitize_script out model_text = (true, reason) ->
    process_script out model_text (snd (time_int out (world s)))
      = (Returned (VDict d), w1) ->
    lookup "status" d = Some (VStr "ok") ->
    lookup "preview" d = Some (VStr p) ->
    p <> "" ->
    exists n exported body s',
      os_path_basename (VStr p) = Returned n /\
      exported = match lookup "exported_files" d with
                 | Some v => v
                 | None => VList []
                 end /\
      submit out model_text s = (Returned (body, 200), s') /\
      body = VDict [("status", VStr "done"); ("preview", VStr n);
                    ("exported_files", exported);
                    ("blender_response", VDict d)] /\
      lookup "filename" (LATEST_PREVIEW s') = Some (VStr n) /\
      lookup "exported_files" (LATEST_PREVIEW s') = Some exported /\
      (forall dir f, Runs.no_slash f -> p = path_join dir f -> n = f).
Proof.
  intros model_text reason d p s w1 Hs Hrpc Hst Hp Hne.
  assert (Hok : is_ok d = true).
  { unfold is_ok. rewrite Hst, Hp. cbn.
    apply negb_true_iff, String.eqb_neq. exact Hne. }
  unfold submit. rewrite Hs. cbn [negb].
  unfold bind, catch, now, outside, update, rpc_process_script, ret. cbn.
  destruct (time_int out (world s)) as [t0 w0]. cbn in *. rewrite Hrpc. cbn.
  rewrite Hok, Hp. cbn [os_path_basename lift].
  unfold bind, catch, now, outside, update, ret, lift. cbn.
  destruct (time_int out w1) as [t1 w2]. cbn.
  do 4 eexists. split; [reflexivity|]. split; [reflexivity|].
  split; [reflexivity|]. split; [reflexivity|]. cbn.
  split; [look|]. split; [look|].
  intros dir f Hf ->. now apply last_split_join.
Qed.

(** *** What [generate] answers before any script exists *)

(** A [GET], an empty body, and a JSON body without a text are answered
    at once (200 with the usage, 400 with ["no text provided"]); the
    model is not called, nothing is saved, and the tracker and the agent
    are left alone. *)
Theorem early_answers_touch_nothing :
  forall req s,
    let declared :=
      lower match content_type req with Some c => c | None => "" end in
    (method req = "GET" -> generate out req s = (Returned (usage, 200), s)) /\
    (method req <> "GET" ->
     (contains declared "application/json" = false /\ get_data req = ""
      \/
      contains declared "application/json" = true /\
      (get_json req = None \/
       (exists v, get_json req = Some v /\ truthy v = false) \/
       (exists d, get_json req = Some (VDict d) /\
                  (lookup "text" d = None \/
                   exists t, lookup "text" d = Some t /\ truthy t = false)))) ->
     generate out req s
       = (Returned (VDict [("error", VStr "no text provided")], 400), s)).
Proof.
  intros req s declared. unfold generate, prepare. fold declared. split.
  - intros ->. reflexivity.
  - intros Hm Hcase. apply String.eqb_neq in Hm. rewrite Hm.
    destruct Hcase as [[Hj Hd] | [Hj Hcase]]; rewrite Hj.
    + rewrite Hd. reflexivity.
    + destruct Hcase as [Hn | [(v & Hv & Hf) | (d & Hd & Ht)]].
      * rewrite Hn. reflexivity.
      * rewrite Hv, Hf. reflexivity.
      * rewrite Hd. destruct (truthy (VDict d)) eqn:Etd.
        -- unfold bind, lift, ret. cbn [get].
           destruct Ht as [-> | (t & -> & Ht)]; [reflexivity|].
           rewrite Ht. reflexivity.
        -- reflexivity.
Qed.

(** A JSON body that is not an object, and is not empty either (a
    non-empty list, a number, a string), makes [generate] raise the
    [AttributeError] of [data.get]: no answer is built. *)
Theorem json_non_object_raises :
  forall req v s,
    method req <> "GET" ->
    contains (lower match content_type req with Some c => c | None => "" end)
      "application/json" = true ->
    get_json req = Some v ->
    truthy v = true ->
    (forall d, v <> VDict d) ->
    generate out req s = (Raised (Runs.no_get v), s).
Proof.
  intros req v s Hm Hj Hv Ht Hnd. unfold generate, prepare.
  apply String.eqb_neq in Hm. rewrite Hm, Hj, Hv, Ht.
  unfold bind, lift. destruct v; try reflexivity. now destruct (Hnd d).
Qed.

Lemma prepare_raw_runs {V : Type} (o : Outside V) (req : request)
    (s : state V) :
  method req <> "GET" ->
  contains (lower match content_type req with Some c => c | None => "" end)
    "application/json" = false ->
  strip (get_data req) <> "" ->
  prepare o req s =
    match get_output_dir o (world s) with
    | (Raised e, w1) =>
        (Raised e,
         {| world := w1; LATEST_PREVIEW := LATEST_PREVIEW s; sent := sent s |})
    | (Returned dir, w1) =>
        (Returned (inr (adjust_for_preview o (strip_fences (get_data req)))),
         {| world :=
              snd (write_text o (path_join dir "last_model_script.py")
                     (strip_fences (get_data req)) w1);
            LATEST_PREVIEW := LATEST_PREVIEW s; sent := sent s |})
    end.
Proof.
  intros Hm Hj Hb. apply String.eqb_neq in Hm.
  assert (Hne : (get_data req =? "") = false).
  { apply String.eqb_neq. intros E. rewrite E in Hb. now apply Hb. }
  apply String.eqb_neq in Hb.
  unfold prepare, build_prompt. rewrite Hm, Hj.
  unfold bind, ret, catch, outside. cbn [truthy String.eqb negb andb].
  rewrite Hne. cbn [negb andb]. rewrite Hb. cbn [negb andb].
  destruct s as [w lp st]. cbn [world LATEST_PREVIEW sent].
  destruct (get_output_dir o w) as [[dir | e] w1]; [|reflexivity].
  cbn [world LATEST_PREVIEW sent].
  destruct (write_text o _ _ w1) as [[[] | e] w2]; reflexivity.
Qed.

(** A body sent as the script itself (not JSON, and not white space
    throughout) never reaches the model: the request is prepared in the
    same way whatever the client would do, and preparing it sends
    nothing to Blender and leaves the tracker as it is. *)
Theorem raw_body_bypasses_model :
  forall req s,
    method req <> "GET" ->
    contains (lower match content_type req with Some c => c | None => "" end)
      "application/json" = false ->
    strip (get_data req) <> "" ->
    (forall client, prepare (with_hermes out client) req s = prepare out req s) /\
    (forall r s1,
        prepare out req s = (r, s1) ->
        LATEST_PREVIEW s1 = LATEST_PREVIEW s /\ sent s1 = sent s).
Proof.
  intros req s Hm Hj Hb. split.
  - intros client.
    rewrite (prepare_raw_runs out req s Hm Hj Hb).
    rewrite (prepare_raw_runs (with_hermes out client) req s Hm Hj Hb).
    reflexivity.
  - intros r s1 Hp. destruct (prepare_quiet out req s r s1 Hp) as [Hs Hl].
    now split.
Qed.

(** When the model client raises, [generate] raises with it: no answer
    is built and the tracker is not written (its status does not become
    ["error"]).  This is so for a JSON request with a text, and for a
    body of white space only, which is sent to the model as an empty
    instruction rather than refused as missing. *)
Theorem model_failure_propagates :
  forall req s e w,
    method req <> "GET" ->
    let declared :=
      lower match content_type req with Some c => c | None => "" end in
    (forall d t,
        contains declared "application/json" = true ->
        get_json req = Some (VDict d) ->
        lookup "text" d = Some t ->
        truthy t = true ->
        call_hermes out
          (fst (build_prompt out t
                  match lookup "constraints" d with
                  | Some c => c
                  | None => VDict []
                  end)) t (world s) = (Raised e, w) ->
        generate out req s =
          (Raised e,
           {| world := w; LATEST_PREVIEW := LATEST_PREVIEW s;
              sent := sent s |})) /\
    (contains declared "application/json" = false ->
     get_data req <> "" ->
     strip (get_data req) = "" ->
     call_hermes out system_prompt_text (VStr "") (world s) = (Raised e, w) ->
     generate out req s =
       (Raised e,
        {| world := w; LATEST_PREVIEW := LATEST_PREVIEW s; sent := sent s |})).
Proof.
  intros req s e w Hm declared. apply String.eqb_neq in Hm.
  unfold generate, prepare. fold declared. rewrite Hm. split.
  - intros d t Hj Hd Ht Htt Hcall. rewrite Hj, Hd.
    assert (Hdt : truthy (VDict d) = true).
    { destruct d; [discriminate Ht | reflexivity]. }
    rewrite Hdt. unfold bind at 1 2. unfold bind at 1 2. unfold lift, ret.
    cbn [get]. rewrite Ht, Htt. cbn [negb andb].
    destruct (build_prompt out t
                match lookup "constraints" d with
                | Some c => c
                | None => VDict []
                end) as [sp up] eqn:Eb.
    assert (Hup : up = t) by (unfold build_prompt in Eb; now inversion Eb).
    subst up. cbn [fst] in Hcall.
    unfold bind, outside. rewrite Hcall. reflexivity.
  - intros Hj Hne Hblank Hcall. rewrite Hj.
    apply String.eqb_neq in Hne. apply String.eqb_eq in Hblank.
    unfold bind at 1 2. unfold ret at 1.
    cbn [truthy String.eqb negb andb]. rewrite Hne. cbn [negb andb].
    unfold build_prompt. cbn [truthy negb]. rewrite Hblank. cbn [negb andb].
    unfold bind, outside. rewrite Hcall. reflexivity.
Qed.

End GatewayCoverage.

(** *** Fences *)

Section Fences.

Import Runs.

Lemma split_lacks (sep : ascii) (f : string) :
  lacks sep f -> split sep f = [f].
Proof.
  induction f as [|c f IH]; cbn [lacks split]; [reflexivity|].
  intros [Hc Hf]. apply Ascii.eqb_neq in Hc. rewrite Hc, (IH Hf). reflexivity.
Qed.

(** [sep.join(s.split(sep)) == s] *)
Lemma join_split (sep : ascii) (s : string) :
  join (String sep EmptyString) (split sep s) = s.
Proof.
  unfold join. induction s as [|c s IH]; [reflexivity|]. cbn [split].
  pose proof (split_nonempty sep s) as Hne.
  destruct (Ascii.eqb c sep) eqn:E.
  - apply Ascii.eqb_eq in E. subst c.
    destruct (split sep s) as [|w ws]; [contradiction|].
    change (String.concat (String sep "") ("" :: w :: ws))
      with (String sep (String.concat (String sep "") (w :: ws))).
    now rewrite IH.
  - destruct (split sep s) as [|w ws]; [contradiction|].
    rewrite <- IH. destruct ws; reflexivity.
Qed.

Lemma is_space2_low (c1 c : ascii) :
  (nat_of_ascii c < 128)%nat -> is_space2 c1 c = false.
Proof.
  intros Hc. unfold is_space2, byte_is.
  replace (nat_of_ascii c =? 133)%nat with false
    by (symmetry; apply Nat.eqb_neq; lia).
  replace (nat_of_ascii c =? 160)%nat with false
    by (symmetry; apply Nat.eqb_neq; lia).
  apply andb_false_r.
Qed.

Lemma is_space3_low (c1 c2 c : ascii) :
  (nat_of_ascii c < 128)%nat -> is_space3 c1 c2 c = false.
Proof.
  intros Hc. unfold is_space3, byte_is.
  replace (128 <=? nat_of_ascii c)%nat with false
    by (symmetry; apply Nat.leb_gt; lia).
  replace (nat_of_ascii c =? 128)%nat with false
    by (symmetry; apply Nat.eqb_neq; lia).
  replace (nat_of_ascii c =? 159)%nat with false
    by (symmetry; apply Nat.eqb_neq; lia).
  replace (nat_of_ascii c =? 168)%nat with false
    by (symmetry; apply Nat.eqb_neq; lia).
  replace (nat_of_ascii c =? 169)%nat with false
    by (symmetry; apply Nat.eqb_neq; lia).
  replace (nat_of_ascii c =? 175)%nat with false
    by (symmetry; apply Nat.eqb_neq; lia).
  cbn [andb orb]. now rewrite !andb_false_r.
Qed.

(** A text that ends with a one-byte character that is no white space is
    not white space throughout. *)
Lemma lstrip_end (c : ascii) :
  is_space c = false -> (nat_of_ascii c < 128)%nat ->
  forall n y, (String.length y <= n)%nat ->
    lstrip (y ++ String c EmptyString) <> EmptyString.
Proof.
  intros Hs Hc. induction n as [|n IH]; intros y Hy.
  - destruct y; [|cbn in Hy; lia]. cbn [append lstrip]. now rewrite Hs.
  - destruct y as [|c1 y]; [cbn [append lstrip]; now rewrite Hs|].
    cbn [String.length] in Hy. cbn [append lstrip].
    destruct (is_space c1); [apply IH; lia|].
    destruct y as [|c2 y]; cbn [append].
    { now rewrite (is_space2_low c1 c Hc). }
    cbn [String.length] in Hy.
    destruct (is_space2 c1 c2); [apply IH; lia|].
    destruct y as [|c3 y]; cbn [append].
    { now rewrite (is_space3_low c1 c2 c Hc). }
    cbn [String.length] in Hy.
    destruct (is_space3 c1 c2 c3); [apply IH; lia|discriminate].
Qed.

Lemma rstrip_keeps (x : string) (c : ascii) :
  is_space c = false -> (nat_of_ascii c < 128)%nat ->
  rstrip (x ++ String c EmptyString) = x ++ String c EmptyString.
Proof.
  intros Hs Hc.
  assert (Hkeep : forall y, (lstrip (y ++ String c EmptyString) =? "") = false).
  { intros y. apply String.eqb_neq.
    exact (lstrip_end c Hs Hc (String.length y) y (le_n _)). }
  induction x as [|a x IH].
  - pose proof (Hkeep "") as H0. cbn [append] in *. cbn [rstrip].
    now rewrite H0.
  - pose proof (Hkeep (String a x)) as H0. cbn [append] in *. cbn [rstrip].
    now rewrite H0, IH.
Qed.

(** A model answer wrapped in a Markdown fence, [```lang], the code and
    a closing [```] each on their own line, is unwrapped to the code,
    line for line. *)
Theorem strip_fences_unwraps :
  forall lang body,
    lacks (ascii_of_nat 10) lang ->
    strip_fences (fence ++ lang ++ newline ++ body ++ newline ++ fence) = body.
Proof.
  intros lang body Hl.
  set (text := fence ++ lang ++ newline ++ body ++ newline ++ fence).
  assert (Hstrip : strip text = text).
  { assert (Hl1 : lstrip text = text) by reflexivity.
    assert (Hend : forall x, rstrip (x ++ fence) = x ++ fence).
    { intros x.
      replace (x ++ fence) with ((x ++ "``") ++ String "`" EmptyString)
        by (rewrite append_assoc; reflexivity).
      apply rstrip_keeps; [reflexivity | cbn; lia]. }
    unfold strip. rewrite Hl1.
    replace text with ((fence ++ lang ++ newline ++ body ++ newline) ++ fence)
      by (unfold text; now rewrite !append_assoc).
    apply Hend. }
  unfold strip_fences. rewrite Hstrip.
  assert (Hstart : forall rest, startswith (fence ++ rest) fence = true).
  { intros rest. unfold startswith, fence. cbn [append String.prefix].
    repeat (destruct (ascii_dec "`" "`") as [_ | Hc]; [|now destruct Hc]).
    destruct rest; reflexivity. }
  unfold text at 1. rewrite Hstart.
  assert (Hparts :
    split (ascii_of_nat 10) text
    = (fence ++ lang) :: (split (ascii_of_nat 10) body ++ [fence])%list).
  { unfold text, newline.
    change (fence ++ lang ++
              String (ascii_of_nat 10) "" ++ body ++
              String (ascii_of_nat 10) "" ++ fence)
      with (fence ++ lang ++
              String (ascii_of_nat 10) (body ++ String (ascii_of_nat 10) fence)).
    rewrite <- append_assoc, split_app, split_app.
    rewrite (split_lacks _ (fence ++ lang)).
    - rewrite (split_lacks _ fence); [reflexivity|].
      cbn. repeat split; discriminate.
    - unfold fence. cbn [append lacks]. repeat split; try discriminate.
      exact Hl. }
  rewrite Hparts, Hstart.
  pose proof (split_nonempty (ascii_of_nat 10) body) as Hne.
  destruct (split (ascii_of_nat 10) body ++ [fence])%list as [|p0 ps] eqn:E.
  - destruct (split (ascii_of_nat 10) body); discriminate.
  - rewrite <- E, last_last.
    change (startswith fence fence) with true. cbv iota.
    rewrite removelast_last. apply join_split.
Qed.

End Fences.

(** *** The listing of previews *)

Section Listing.

Import Routes.

Context {W : Type}.
Variable out : Outside W.
Variable files : Files W.

Lemma insert_by_mtime_perm (x : string * Z) (l : list (string * Z)) :
  Permutation (insert_by_mtime x l) (x :: l).
Proof.
  induction l as [|y l IH]; cbn [insert_by_mtime]; [reflexivity|].
  destruct (snd y <=? snd x)%Z; [reflexivity|].
  rewrite IH. apply perm_swap.
Qed.

Lemma insert_by_mtime_sorted (x : string * Z) (l : list (string * Z)) :
  StronglySorted (fun a b => (snd b <= snd a)%Z) l ->
  StronglySorted (fun a b => (snd b <= snd a)%Z) (insert_by_mtime x l).
Proof.
  induction 1 as [|y l Hs IH Hy]; cbn [insert_by_mtime].
  - constructor; constructor.
  - destruct (snd y <=? snd x)%Z eqn:E.
    + apply Z.leb_le in E. constructor; [now constructor|].
      constructor; [exact E|].
      eapply Forall_impl; [|exact Hy]. intros z Hz. cbn in Hz. lia.
    + apply Z.leb_gt in E. constructor; [exact IH|].
      apply (Permutation_Forall (Permutation_sym (insert_by_mtime_perm x l))).
      constructor; [lia | exact Hy].
Qed.

Lemma sort_by_mtime_sorts (l : list (string * Z)) :
  Permutation (sort_by_mtime l) l /\
  StronglySorted (fun a b => (snd b <= snd a)%Z) (sort_by_mtime l).
Proof.
  induction l as [|x l [IHp IHs]]; [split; constructor|].
  unfold sort_by_mtime in *. cbn [fold_right]. split.
  - rewrite insert_by_mtime_perm. now constructor.
  - now apply insert_by_mtime_sorted.
Qed.

(** The loop never raises; it keeps the names that look like previews,
    in the order listed, each with the whole seconds of its time of
    change, or 0 when that cannot be read. *)
Lemma collect_runs (outdir : string) (names : list string) :
  forall acc s,
    exists found w',
      collect files outdir names acc s
        = (Returned (acc ++ found)%list,
           {| world := w'; LATEST_PREVIEW := LATEST_PREVIEW s;
              sent := sent s |}) /\
      recorded files outdir (world s) names found w'.
Proof.
  induction names as [|fn names IH]; intros acc s.
  - exists [], (world s). cbn. rewrite app_nil_r. split; [|constructor].
    now destruct s.
  - cbn [collect]. destruct (is_listed fn) eqn:El.
    + unfold bind at 1. unfold catch, bind, outside, ret.
      destruct (getmtime files (path_join outdir fn) (world s))
        as [[t | e] w1] eqn:Eg.
      * destruct (IH (acc ++ [(fn, int_of t)])%list
                    {| world := w1; LATEST_PREVIEW := LATEST_PREVIEW s;
                       sent := sent s |})
          as (found & w' & Hc & Hr).
        exists ((fn, int_of t) :: found), w'. split.
        -- rewrite Hc, <- app_assoc. reflexivity.
        -- exact (recorded_time files outdir _ fn t w1 _ _ _ El Eg Hr).
      * destruct (IH (acc ++ [(fn, 0%Z)])%list
                    {| world := w1; LATEST_PREVIEW := LATEST_PREVIEW s;
                       sent := sent s |})
          as (found & w' & Hc & Hr).
        exists ((fn, 0%Z) :: found), w'. split.
        -- rewrite Hc, <- app_assoc. reflexivity.
        -- exact (recorded_zero files outdir _ fn e w1 _ _ _ El Eg Hr).
    + destruct (IH acc s) as (found & w' & Hc & Hr).
      exists found, w'. split; [exact Hc|].
      now apply recorded_skip.
Qed.

Lemma recorded_names (outdir : string) (w : W) (names : list string)
    (found : list (string * Z)) (w' : W) :
  recorded files outdir w names found w' ->
  map fst found = filter is_listed names.
Proof.
  induction 1 as [w | w fn rest found w' El _ IH
                  | w fn t w1 rest found w' El Eg _ IH
                  | w fn e w1 rest found w' El Eg _ IH];
    cbn [filter map fst]; try rewrite El; try rewrite IH; reflexivity.
Qed.

(** What is recorded for a listing is one thing. *)
Lemma recorded_once (outdir : string) (w : W) (names : list string)
    (found : list (string * Z)) (w' : W) :
  recorded files outdir w names found w' ->
  forall found2 w2,
    recorded files outdir w names found2 w2 -> found2 = found /\ w2 = w'.
Proof.
  induction 1 as [w | w fn rest found w' El _ IH
                  | w fn t w1 rest found w' El Eg _ IH
                  | w fn e w1 rest found w' El Eg _ IH];
    intros found2 w2 H2; inversion H2; subst; try congruence.
  - now split.
  - now apply IH.
  - match goal with
    | Hg : getmtime files _ w = (Returned _, _) |- _ =>
        rewrite Eg in Hg; injection Hg as <- <-
    end.
    match goal with
    | Hr : recorded files outdir w1 rest _ _ |- _ =>
        destruct (IH _ _ Hr) as [-> ->]
    end.
    now split.
  - match goal with
    | Hg : getmtime files _ w = (Raised _, _) |- _ =>
        rewrite Eg in Hg; injection Hg as <- <-
    end.
    match goal with
    | Hr : recorded files outdir w1 rest _ _ |- _ =>
        destruct (IH _ _ Hr) as [-> ->]
    end.
    now split.
Qed.

(** [/api/previews] on a directory that can be listed answers 200 with
    the files named [preview_*] with an image extension (in any case),
    each with the whole seconds of its time of change as [getmtime]
    gives it when the loop comes to it, newest first; a file whose time
    of change cannot be read is listed with 0 and does not fail the
    listing.  A directory that cannot be listed is answered 500 with the
    error text. *)
Theorem list_previews_newest_first :
  forall s dir w1,
    get_output_dir out (world s) = (Returned dir, w1) ->
    (forall names w2,
        listdir files dir w1 = (Returned names, w2) ->
        exists found w3,
          recorded files dir w2 names found w3 /\
          map fst found = filter is_listed names /\
          (forall found' w3',
              recorded files dir w2 names found' w3' ->
              found' = found /\ w3' = w3) /\
          list_previews out files s =
            (Returned
               (VDict [("previews",
                        VList (map preview_entry (sort_by_mtime found)))],
                200),
             {| world := w3; LATEST_PREVIEW := LATEST_PREVIEW s;
                sent := sent s |}) /\
          Permutation (sort_by_mtime found) found /\
          StronglySorted (fun a b => (snd b <= snd a)%Z)
            (sort_by_mtime found)) /\
    (forall e w2,
        listdir files dir w1 = (Raised e, w2) ->
        list_previews out files s =
          (Returned (VDict [("error", VStr (message e))], 500),
           {| world := w2; LATEST_PREVIEW := LATEST_PREVIEW s;
              sent := sent s |})).
Proof.
  intros s dir w1 Hdir. unfold list_previews. split.
  - intros names w2 Hl. unfold bind at 1. unfold outside at 1.
    rewrite Hdir. unfold catch, bind at 1. unfold outside at 1.
    cbn [world]. rewrite Hl.
    destruct (collect_runs dir names []
                {| world := w2; LATEST_PREVIEW := LATEST_PREVIEW s;
                   sent := sent s |})
      as (found & w3 & Hc & Hr).
    cbn [app world LATEST_PREVIEW sent] in Hc, Hr.
    unfold bind. cbn [LATEST_PREVIEW sent]. rewrite Hc.
    exists found, w3. split; [exact Hr|].
    split; [exact (recorded_names dir w2 names found w3 Hr)|]. split.
    { intros found' w3' Hr'.
      exact (recorded_once dir w2 names found w3 Hr found' w3' Hr'). }
    split; [reflexivity|].
    exact (sort_by_mtime_sorts found).
  - intros e w2 Hl. unfold bind at 1. unfold outside at 1.
    rewrite Hdir. unfold catch, bind at 1. unfold outside at 1.
    cbn [world]. rewrite Hl. reflexivity.
Qed.

End Listing.

Section ListingNames.

Import Routes.

Lemma lower_app (a b : string) : lower (a ++ b) = lower a ++ lower b.
Proof.
  induction a as [|c a IH]; [reflexivity|]. cbn [append lower].
  now rewrite IH.
Qed.

Lemma endswith_lower (f suffix : string) :
  lower suffix = suffix ->
  endswith f suffix = true -> endswith (lower f) suffix = true.
Proof.
  intros Hs H. destruct (endswith_inv _ _ H) as [p ->].
  rewrite lower_app, Hs. apply endswith_append.
Qed.

(** Every file the agent takes for a preview of a run is a file the
    gateway lists as a preview; the gateway also lists names whose
    extension is in upper case, which the agent passes over. *)
Theorem agent_previews_are_listed :
  (forall f, Agent.is_preview_name f = true -> is_listed f = true) /\
  (forall stem,
      is_listed ("preview_" ++ stem ++ ".PNG") = true /\
      Agent.is_preview_name ("preview_" ++ stem ++ ".PNG") = false).
Proof.
  split.
  - intros f H. unfold Agent.is_preview_name in H. unfold is_listed.
    apply andb_true_iff in H. destruct H as [Hp He]. rewrite Hp.
    rewrite andb_true_r.
    apply orb_true_iff in He. destruct He as [He | He].
    + apply orb_true_iff in He. destruct He as [He | He].
      * now rewrite (endswith_lower f ".png" eq_refl He).
      * rewrite (endswith_lower f ".jpg" eq_refl He). now rewrite orb_true_r.
    + rewrite (endswith_lower f ".jpeg" eq_refl He). now rewrite !orb_true_r.
  - intros stem. split.
    + unfold is_listed.
      assert (Hl : lower ("preview_" ++ stem ++ ".PNG")
                   = ("preview_" ++ lower stem) ++ ".png").
      { rewrite lower_app, lower_app, append_assoc. reflexivity. }
      rewrite Hl, endswith_append. cbn [orb andb].
      unfold startswith. cbn [append String.prefix].
      repeat match goal with
             | |- context [ascii_dec ?a ?a] =>
                 destruct (ascii_dec a a) as [_ | Hc]; [|now destruct Hc]
             end.
      destruct (stem ++ ".PNG"); reflexivity.
    + assert (Hlast : forall x suffix,
                 suffix <> "" ->
                 Runs.last_char (x ++ suffix) = Runs.last_char suffix).
      { intros x suffix Hne. induction x as [|c x IH]; [reflexivity|].
        cbn [append Runs.last_char]. rewrite IH.
        destruct (x ++ suffix) eqn:E; [|reflexivity].
        destruct x; [cbn in E; contradiction | discriminate]. }
      assert (Hno : forall suffix,
                 suffix <> "" ->
                 Runs.last_char suffix <> Some "G"%char ->
                 endswith ("preview_" ++ stem ++ ".PNG") suffix = false).
      { intros suffix Hne Hg.
        destruct (endswith ("preview_" ++ stem ++ ".PNG") suffix) eqn:E;
          [|reflexivity].
        destruct (endswith_inv _ _ E) as [p Hp].
        assert (Hc : Runs.last_char ("preview_" ++ stem ++ ".PNG")
                     = Some "G"%char).
        { rewrite <- append_assoc. now rewrite Hlast. }
        rewrite Hp, (Hlast p suffix Hne) in Hc. contradiction. }
      unfold Agent.is_preview_name.
      rewrite (Hno ".png"), (Hno ".jpg"), (Hno ".jpeg");
        try discriminate. apply andb_false_r.
Qed.

End ListingNames.

(** *** The preview route *)

Section PreviewRoute.

Import Routes.

Context {W : Type}.
Variable out : Outside W.
Variable files : Files W.

Lemma unexpected_runs (resp : value) (st : state W) :
  exists st',
    unexpected out resp st =
      (Returned (VDict [("status", VStr "error"); ("blender_response", resp)],
                 500), st').
Proof.
  unfold unexpected, mark_error, bind, now, outside, update, ret. cbn.
  destruct (time_int out (world st)). cbn. eexists. reflexivity.
Qed.

Lemma submit_done_names (model_text : string) (s s' : state W) (body : value) :
  submit out model_text s = (Returned (body, 200), s') ->
  exists n,
    Bridge.field "preview" body = Some (VStr n) /\
    lookup "filename" (LATEST_PREVIEW s') = Some (VStr n).
Proof.
  unfold submit.
  destruct (sanitize_script out model_text) as [[|] reason]; cbn [negb].
  - unfold bind, catch, now, outside, update, rpc_process_script, ret,
      mark_error. cbn.
    destruct (time_int out (world s)) as [t0 w0]. cbn.
    destruct (process_script out model_text w0) as [[resp | e] w1]; cbn.
    + destruct resp as [ | | | | | |d];
        try (match goal with
             | |- context [unexpected out ?r ?st] =>
                 destruct (unexpected_runs r st) as [st1 ->]
             end; intros H; inversion H).
      destruct (is_ok d) eqn:Hok.
      * destruct (match lookup "preview" d with
                  | Some v => v
                  | None => VNone
                  end) as [ | | | |p| | ] eqn:Hp; cbn [os_path_basename lift];
          unfold bind, catch, now, outside, update, ret, mark_error, lift; cbn;
          destruct (time_int out w1) as [t1 w2]; cbn;
          intros H; inversion H; subst.
        eexists. split; [reflexivity|]. cbn.
        repeat rewrite lookup_store_other by discriminate.
        apply lookup_store_same.
      * match goal with
        | |- context [unexpected out ?r ?st] =>
            destruct (unexpected_runs r st) as [st1 ->]
        end. intros H. inversion H.
    + unfold bind, catch, now, outside, update, ret, mark_error, lift. cbn.
      destruct (time_int out w1) as [t1 w2]. cbn. intros H. inversion H.
  - unfold bind, now, outside, update, ret. cbn.
    destruct (time_int out (world s)) as [t0 w0]. cbn. intros H. inversion H.
Qed.

(** [/api/preview] answers 404 while the tracker holds no file name, as
    it does before the first success.  After a script is done under a
    name that is not empty, it asks Flask for the file of that very name
    in the output directory; what Flask raises (a missing file included)
    is answered 500, not 404. *)
Theorem preview_route_follows_generate :
  forall s,
    (lookup "filename" (LATEST_PREVIEW s) = None \/
     lookup "filename" (LATEST_PREVIEW s) = Some VNone \/
     lookup "filename" (LATEST_PREVIEW s) = Some (VStr "") ->
     serve_latest_preview out files s =
       (Returned (VDict [("error", VStr "no preview available")], 404), s)) /\
    (forall model_text s0 body n dir w1 r w2,
        submit out model_text s0 = (Returned (body, 200), s) ->
        Bridge.field "preview" body = Some (VStr n) ->
        n <> "" ->
        get_output_dir out (world s) = (Returned dir, w1) ->
        send_from_directory files dir (VStr n) w1 = (r, w2) ->
        fst (serve_latest_preview out files s) =
          match r with
          | Returned answer => Returned answer
          | Raised e =>
              Returned (VDict [("error", VStr "failed to read preview");
                               ("details", VStr (message e))], 500)
          end).
Proof.
  intros s. split.
  - unfold serve_latest_preview. intros [-> | [-> | ->]]; reflexivity.
  - intros model_text s0 body n dir w1 r w2 Hsub Hbody Hne Hdir Hsend.
    destruct (submit_done_names model_text s0 s body Hsub) as (n' & Hb & Hf).
    rewrite Hbody in Hb. inversion Hb; subst n'.
    unfold serve_latest_preview. rewrite Hf. cbn [truthy negb].
    apply String.eqb_neq in Hne. rewrite Hne. cbn [negb].
    unfold catch, bind, outside. rewrite Hdir. cbn [world].
    rewrite Hsend. destruct r; reflexivity.
Qed.

End PreviewRoute.

(** ** The model client *)

Section ClientCoverage.

Import Client.

Variable py_repr : value -> string.
Variable fault : value -> exn.

(** What [call_hermes] returns from an answer of the service is never
    empty: a text that is missing, [None] or [""] makes it raise. *)
Theorem assistant_content_is_truthy :
  forall data content,
    assistant_content py_repr fault data = Returned content ->
    truthy content = true.
Proof.
  intros data content. unfold assistant_content.
  destruct (get data "choices" (VList [])) as [choices | e]; [|discriminate].
  destruct (negb (truthy choices)); [discriminate|].
  destruct (first_choice fault choices) as [[ | | | | | |first] | e];
    try discriminate.
  match goal with
  | |- match ?c with _ => _ end = _ -> _ => destruct c as [c0 | e]
  end; [|discriminate].
  destruct (truthy c0) eqn:E; [|discriminate].
  intros H. inversion H; subst. exact E.
Qed.

(** Of the first choice, the content of the message is taken when it is
    there and not empty, whatever [text] holds; the [text] is taken when the
    message has no such content; the other choices are not looked at.
    An answer without choices raises. *)
Theorem assistant_content_source :
  forall d first others,
    lookup "choices" d = Some (VList (VDict first :: others)) ->
    (forall msg c,
        lookup "message" first = Some (VDict msg) ->
        lookup "content" msg = Some c -> truthy c = true ->
        assistant_content py_repr fault (VDict d) = Returned c) /\
    (forall t,
        lookup "message" first = None \/
        (exists msg, lookup "message" first = Some (VDict msg) /\
                     lookup "content" msg = None) ->
        lookup "text" first = Some t -> truthy t = true ->
        assistant_content py_repr fault (VDict d) = Returned t) /\
    (forall d',
        lookup "choices" d' = None \/ lookup "choices" d' = Some (VList []) ->
        assistant_content py_repr fault (VDict d') =
          Raised (Exception
                    ("no choices in Nebius response: " ++ py_repr (VDict d')))).
Proof.
  intros d first others Hd. unfold assistant_content. cbn [get].
  repeat split.
  - intros msg c Hm Hc Ht. rewrite Hd. cbn [truthy negb first_choice].
    rewrite Hm, Hc, Ht. cbv iota. now rewrite Ht.
  - intros t Hm Ht Htt. rewrite Hd. cbn [truthy negb first_choice].
    destruct Hm as [Hm | (msg & Hm & Hc)]; rewrite Hm; [|rewrite Hc];
      cbn [truthy]; rewrite Ht, Htt; cbv iota; now rewrite Htt.
  - intros d' [Hd' | Hd']; rewrite Hd'; reflexivity.
Qed.

End ClientCoverage.

(** ** Instances *)

Section AgentInstances.

Import Agent Bridge Runs.



Lemma primitives_need_bpy_witness :
  ("export_obj" <> "export_obj" ->
   export_obj (without_bpy plain_host) (VDict [("filename", VInt 5)])
       (awaiting []) =
     (Raised (Exception
                ("bpy not available: " ++ "export_obj"
                   ++ " must run inside Blender")),
      awaiting [])) /\
  ("export_obj" = "export_obj" ->
   export_obj (without_bpy plain_host) (VDict [("filename", VInt 5)])
       (awaiting []) =
     (Raised
        (Exception
           "join() argument must be str, bytes, or os.PathLike object, not 'int'"),
      awaiting [])).
Proof.
  apply (primitives_need_bpy (without_bpy plain_host) "export" "export_obj"
           (export_obj (without_bpy plain_host)) true
           [("filename", VInt 5)] (awaiting [])).
  - do 6 right. left. reflexivity.
  - reflexivity.
Defined.

Lemma primitives_need_mapping_witness :
  rotate plain_host (VInt 3) (awaiting []) = (Raised (no_get (VInt 3)), awaiting []).
Proof.
  apply (primitives_need_mapping plain_host "rotate" "rotate" (rotate plain_host) true).
  - do 4 right. left. reflexivity.
  - discriminate.
Defined.

Lemma empty_batch_answers_empty_witness :
  blender_timer plain_host (awaiting [ops_task (VDict [])]) =
    (Returned TICK, answered (awaiting []) (VList [])).
Proof.
  apply (empty_batch_answers_empty plain_host [] [] (awaiting [ops_task (VDict [])])).
  - reflexivity.
  - left. reflexivity.
Defined.

Lemma malformed_entry_aborts_batch_witness :
  exists (rs : list value) s1,
    List.length rs = 1%nat /\
    blender_timer plain_host
      (awaiting
         [ops_task
            (batch [entry "add_box" (VDict [("name", VStr "B1")]);
                    VInt 7; entry "rotate" (VDict [])])]) =
      (Returned TICK,
       answered s1
         (VDict [("error", VStr "'int' object has no attribute 'get'")])).
Proof.
  destruct (malformed_entry_aborts_batch plain_host
              [("operations",
                VList [entry "add_box" (VDict [("name", VStr "B1")]);
                       VInt 7; entry "rotate" (VDict [])])]
              [entry "add_box" (VDict [("name", VStr "B1")])]
              (VInt 7) [entry "rotate" (VDict [])]
              [("add_box", VDict [("name", VStr "B1")])] []
              (awaiting
                 [ops_task
                    (batch [entry "add_box" (VDict [("name", VStr "B1")]);
                            VInt 7; entry "rotate" (VDict [])])])
              eq_refl eq_refl eq_refl)
    as (rs & s1 & _ & Hl & Ht).
  - discriminate.
  - exists rs, s1. split; [exact Hl | exact Ht].
Defined.

Lemma unknown_task_type_answered_witness :
  blender_timer plain_host (awaiting [VDict [("type", VStr "render")]]) =
    (Returned TICK,
     answered (awaiting []) (VDict [("error", VStr "unknown item type")])).
Proof.
  apply (unknown_task_type_answered plain_host [("type", VStr "render")] []
           (awaiting [VDict [("type", VStr "render")]]));
    [reflexivity | discriminate | discriminate].
Defined.

Lemma wait_response_answers_witness :
  exists before t queue later,
    [(10 # 1, []); (20 # 1, [VInt 5; VInt 6])]%Q
      = (before ++ (t, queue) :: later)%list /\
    Forall (fun turn => (fst turn - 10 < 60)%Q /\ snd turn = []) before /\
    ((60 <= t - 10)%Q /\ Returned (VInt 5) = Returned timeout_error \/
     (t - 10 < 60)%Q /\
     exists r others, queue = r :: others /\ Returned (VInt 5) = Returned r).
Proof.
  exact (wait_response_answers 60 10
           [(10 # 1, []); (20 # 1, [VInt 5; VInt 6])]%Q (Returned (VInt 5))
           eq_refl).
Defined.

Lemma idle_bridge_round_trip_witness :
  let d := [("operations",
             VList [entry "add_box" (VDict [("name", VStr "B1")])])] in
  let s1 := snd (enqueue_ops (VDict d) 0 [] (awaiting [])) in
  let s2 := snd (blender_timer plain_host s1) in
  exists results,
    task_queue s2 = [] /\
    wait_response OPS_TIMEOUT 0 [(1 # 1, response_queue s2)]%Q
      = Some (Returned (VList results)).
Proof.
  intros d s1 s2.
  destruct (idle_bridge_round_trip plain_host d
              [entry "add_box" (VDict [("name", VStr "B1")])]
              [("add_box", VDict [("name", VStr "B1")])] 0 (1 # 1)%Q
              (awaiting []) eq_refl eq_refl eq_refl eq_refl)
    as (results & s' & _ & T & Hw).
  - reflexivity.
  - exists results. split; [exact T | exact Hw].
Defined.

Lemma stale_response_taken_first_witness :
  wait_response OPS_TIMEOUT 0
    [(1 # 1,
      response_queue
        (ticks plain_host 3
           (snd (enqueue_ops (batch []) 0 []
                   {| world := 0%Z; task_queue := [];
                      response_queue := [VStr "late"]; events := [] |}))))]%Q
    = Some (Returned (VStr "late")).
Proof.
  apply (stale_response_taken_first plain_host (VStr "late") [] (batch []) 0
           (1 # 1)%Q 3).
  - reflexivity.
  - reflexivity.
Defined.

Lemma latest_preview_first_listed_witness :
  exists pre post,
    [(1 # 1, "a.png"); (3 # 1, "b.png"); (3 # 1, "c.png")]%Q
      = (pre ++ (3 # 1, "b.png")%Q :: post)%list /\
    Forall (fun x => (fst x < 3 # 1)%Q) pre /\
    Forall (fun x => (fst x <= 3 # 1)%Q) post.
Proof.
  exact (latest_preview_first_listed
           [(1 # 1, "a.png"); (3 # 1, "b.png"); (3 # 1, "c.png")]%Q
           (3 # 1)%Q "b.png" _ eq_refl).
Defined.

Lemma basename_of_joined_path_witness :
  basename (path_join OUTPUT_DIR "preview_1.png") = "preview_1.png" /\
  os_path_basename (VStr (path_join OUTPUT_DIR "preview_1.png"))
    = Returned "preview_1.png".
Proof.
  destruct (basename_of_joined_path OUTPUT_DIR "preview_1.png") as (H1 & H2 & _).
  - cbn. repeat split; discriminate.
  - split; assumption.
Defined.

End AgentInstances.

Section GatewayInstances.

Import Routes.

Lemma accepted_script_done_witness :
  exists body s',
    submit done_outside cube_code (fresh 1000) = (Returned (body, 200), s') /\
    body = VDict [("status", VStr "done"); ("preview", VStr "preview_1.png");
                  ("exported_files", VList [VStr "model_1.gltf"]);
                  ("blender_response", done_answer)] /\
    lookup "filename" (LATEST_PREVIEW s') = Some (VStr "preview_1.png").
Proof.
  destruct (accepted_script_done done_outside cube_code None
              [("status", VStr "ok");
               ("preview", VStr "/opt/app/output/preview_1.png");
               ("exported_files", VList [VStr "model_1.gltf"])]
              "/opt/app/output/preview_1.png" (fresh 1000) 1001%Z
              eq_refl eq_refl eq_refl eq_refl)
    as (n & exported & body & s' & Hn & He & Hs & Hb & Hf & _).
  - discriminate.
  - exists body, s'. vm_compute in Hn. inversion Hn; subst n.
    vm_compute in He. subst exported. repeat split; assumption.
Defined.

Lemma early_answers_touch_nothing_witness :
  generate done_outside
    {| method := "GET"; content_type := None; get_json := None;
       get_data := "" |} (fresh 1000)
    = (Returned (usage, 200), fresh 1000) /\
  generate done_outside (raw_post "") (fresh 1000)
    = (Returned (VDict [("error", VStr "no text provided")], 400), fresh 1000) /\
  generate done_outside (json_post (Some (VDict [("text", VStr "")])))
    (fresh 1000)
    = (Returned (VDict [("error", VStr "no text provided")], 400), fresh 1000).
Proof.
  split; [|split].
  - apply (early_answers_touch_nothing done_outside
             {| method := "GET"; content_type := None; get_json := None;
                get_data := "" |} (fresh 1000)). reflexivity.
  - apply (early_answers_touch_nothing done_outside (raw_post "")
             (fresh 1000)); [discriminate|]. left. split; reflexivity.
  - apply (early_answers_touch_nothing done_outside
             (json_post (Some (VDict [("text", VStr "")]))) (fresh 1000));
      [discriminate|].
    right. split; [reflexivity|]. right. right.
    exists [("text", VStr "")]. split; [reflexivity|]. right.
    exists (VStr ""). split; reflexivity.
Defined.

Lemma json_non_object_raises_witness :
  generate done_outside (json_post (Some (VList [VInt 1]))) (fresh 1000)
    = (Raised (Runs.no_get (VList [VInt 1])), fresh 1000).
Proof.
  apply (json_non_object_raises done_outside
           (json_post (Some (VList [VInt 1]))) (VList [VInt 1]) (fresh 1000));
    [discriminate | reflexivity | reflexivity | reflexivity | discriminate].
Defined.

Lemma raw_body_bypasses_model_witness :
  prepare (with_hermes done_outside failing_client) (raw_post cube_code)
    (fresh 1000)
  = prepare done_outside (raw_post cube_code) (fresh 1000).
Proof.
  refine (proj1 (raw_body_bypasses_model done_outside (raw_post cube_code)
                   (fresh 1000) _ _ _) failing_client).
  - discriminate.
  - reflexivity.
  - vm_compute. discriminate.
Defined.

Lemma model_failure_propagates_witness :
  generate (with_hermes done_outside failing_client)
    (json_post (Some (VDict [("text", VStr "a small table")]))) (fresh 1000)
  = (Raised (Exception "Nebius API request failed"), fresh 1000) /\
  generate (with_hermes done_outside failing_client) (raw_post "   ")
    (fresh 1000)
  = (Raised (Exception "Nebius API request failed"), fresh 1000).
Proof.
  split.
  - refine (proj1 (model_failure_propagates
                     (with_hermes done_outside failing_client)
                     (json_post (Some (VDict [("text", VStr "a small table")])))
                     (fresh 1000) (Exception "Nebius API request failed")
                     1000%Z _)
              [("text", VStr "a small table")] (VStr "a small table")
              eq_refl eq_refl eq_refl eq_refl eq_refl).
    discriminate.
  - refine (proj2 (model_failure_propagates
                     (with_hermes done_outside failing_client)
                     (raw_post "   ") (fresh 1000)
                     (Exception "Nebius API request failed") 1000%Z _)
              eq_refl _ eq_refl eq_refl);
      discriminate.
Defined.

Lemma strip_fences_unwraps_witness :
  strip_fences (fence ++ "python" ++ newline ++ cube_code ++ newline ++ fence)
    = cube_code.
Proof.
  apply (strip_fences_unwraps "python" cube_code).
  cbn. repeat split; discriminate.
Defined.

Lemma list_previews_newest_first_witness :
  list_previews done_outside
    (sample_files
       (Returned ["preview_a.png"; "notes.txt"; "preview_gone.png";
                  "preview_bb.JPG"]))
    (fresh 1000) =
    (Returned
       (VDict [("previews",
                VList [preview_entry ("preview_bb.JPG", 30%Z);
                       preview_entry ("preview_a.png", 29%Z);
                       preview_entry ("preview_gone.png", 0%Z)])], 200),
     fresh 1000).
Proof.
  destruct (proj1 (list_previews_newest_first done_outside
                     (sample_files
                        (Returned ["preview_a.png"; "notes.txt";
                                   "preview_gone.png"; "preview_bb.JPG"]))
                     (fresh 1000) "/opt/app/output" 1000%Z eq_refl)
              ["preview_a.png"; "notes.txt"; "preview_gone.png";
               "preview_bb.JPG"] 1000%Z eq_refl)
    as (found & w3 & _ & _ & Hone & Hl & _).
  rewrite Hl.
  destruct (Hone [("preview_a.png", 29%Z); ("preview_gone.png", 0%Z);
                  ("preview_bb.JPG", 30%Z)] 1000%Z) as [<- <-].
  - apply recorded_time
      with (t := ((29 # 1) + (1 # 2))%Q) (w1 := 1000%Z); try reflexivity.
    apply recorded_skip; [reflexivity|].
    apply recorded_zero
      with (e := Exception "No such file or directory") (w1 := 1000%Z);
      try reflexivity.
    apply recorded_time
      with (t := ((30 # 1) + (1 # 2))%Q) (w1 := 1000%Z); try reflexivity.
    apply recorded_end.
  - vm_compute. reflexivity.
Defined.

Lemma agent_previews_are_listed_witness :
  is_listed "preview_1700000000.png" = true.
Proof.
  apply (proj1 agent_previews_are_listed). reflexivity.
Defined.

Lemma preview_route_follows_generate_witness :
  serve_latest_preview done_outside (sample_files (Returned [])) (fresh 1000)
    = (Returned (VDict [("error", VStr "no preview available")], 404),
       fresh 1000) /\
  fst (serve_latest_preview done_outside (sample_files (Returned []))
         (snd (submit done_outside cube_code (fresh 1000))))
    = Returned (VDict [("sent", VStr "preview_1.png")], 200).
Proof.
  split.
  - apply (preview_route_follows_generate done_outside
             (sample_files (Returned [])) (fresh 1000)).
    right. left. reflexivity.
  - refine (proj2 (preview_route_follows_generate done_outside
                     (sample_files (Returned []))
                     (snd (submit done_outside cube_code (fresh 1000))))
              cube_code (fresh 1000)
              (VDict [("status", VStr "done"); ("preview", VStr "preview_1.png");
                      ("exported_files", VList [VStr "model_1.gltf"]);
                      ("blender_response", done_answer)])
              "preview_1.png" "/opt/app/output" 1002%Z
              (Returned (VDict [("sent", VStr "preview_1.png")], 200)) 1002%Z
              _ eq_refl _ _ _).
    + vm_compute. reflexivity.
    + discriminate.
    + vm_compute. reflexivity.
    + vm_compute. reflexivity.
Defined.

Lemma assistant_content_is_truthy_witness :
  truthy (VStr "import bpy") = true.
Proof.
  apply (assistant_content_is_truthy Client.sample_repr Client.sample_fault
           (VDict Client.sample_reply) (VStr "import bpy")).
  reflexivity.
Defined.

Lemma assistant_content_source_witness :
  Client.assistant_content Client.sample_repr Client.sample_fault
    (VDict Client.sample_reply) = Returned (VStr "import bpy").
Proof.
  refine (proj1 (assistant_content_source Client.sample_repr
                   Client.sample_fault Client.sample_reply
                   Client.sample_choice [] eq_refl)
            [("role", VStr "assistant"); ("content", VStr "import bpy")]
            (VStr "import bpy") eq_refl eq_refl eq_refl).
Defined.

End GatewayInstances.
